(** * Resume tailoring endpoint: parser, date formatter, line wrapper,
      inline emphasis, page flow and HTTP handler

    Shallow embedding of [src/app/api/generate-dynamic-resume-pdf/route.ts].

    Conventions.
    - A JavaScript string is the list of its UTF-16 code units ([jsstring]);
      the regular expressions of the source have no [u] flag, so they work on
      code units as well.
    - JavaScript numbers are modelled as exact rationals ([Q]); the source
      computes in binary64, so a cursor value agrees with the code up to
      rounding.  What is proved of the cursor are order facts and single
      steps, which hold with rounding as well, not closed forms.
    - A font is the measuring function the source calls on it
      ([widthOfTextAtSize]); it is taken as total.  What the PDF library
      throws while a document is generated is an input of the handler
      ([pdf_throws]).
    - [undefined] is [None]. *)

From Stdlib Require Import String Ascii.
From Stdlib Require Import NArith ZArith QArith Bool Lia Lqa List.
Import ListNotations.
Close Scope Q_scope.

(* ===================================================================== *)
(** * Part I: definitions *)
(* ===================================================================== *)

(** ** Strings as code-unit lists *)

Definition char := N.
Definition jsstring := list char.

(** ASCII literal to code units. *)
Definition js (s : string) : jsstring :=
  map N_of_ascii (list_ascii_of_string s).
Arguments js s%_string.

Definition LF : char := 10%N.
Definition SPACE : char := 32%N.
Definition COLON : char := 58%N.
Definition SLASH : char := 47%N.
Definition HYPHEN : char := 45%N.
Definition STAR : char := 42%N.
Definition QUOTE : char := 34%N.
Definition BACKSLASH : char := 92%N.
Definition UNDERSCORE : char := 95%N.
(** U+00B7 MIDDLE DOT, the skills-category glyph. *)
Definition MIDDLE_DOT : char := 183%N.
(** U+2013 EN DASH. *)
Definition EN_DASH : char := 8211%N.
(** U+2022 BULLET, the contact separator. *)
Definition BULLET : char := 8226%N.

Definition char_eqb (a b : char) : bool := N.eqb a b.

Fixpoint str_eqb (a b : jsstring) : bool :=
  match a, b with
  | [], [] => true
  | x :: a', y :: b' => char_eqb x y && str_eqb a' b'
  | _, _ => false
  end.

(** Truthiness of a string: non-empty. *)
Definition truthy (s : jsstring) : bool :=
  match s with [] => false | _ :: _ => true end.

(** ECMAScript WhiteSpace and LineTerminator code points, as stripped by
    [String.prototype.trim] and matched by [\s]. *)
Definition isLineTerminator (c : char) : bool :=
  (N.eqb c 10 || N.eqb c 13 || N.eqb c 8232 || N.eqb c 8233)%N.

Definition isWhiteSpace (c : char) : bool :=
  (N.eqb c 9 || N.eqb c 11 || N.eqb c 12 || N.eqb c 32 || N.eqb c 160
   || N.eqb c 5760 || (N.leb 8192 c && N.leb c 8202)
   || N.eqb c 8239 || N.eqb c 8287 || N.eqb c 12288 || N.eqb c 65279)%N.

Definition isSpaceChar (c : char) : bool :=
  isWhiteSpace c || isLineTerminator c.

Fixpoint dropWhile {A} (p : A -> bool) (l : list A) : list A :=
  match l with
  | [] => []
  | x :: l' => if p x then dropWhile p l' else l
  end.

Definition trimStart (s : jsstring) : jsstring := dropWhile isSpaceChar s.
Definition trimEnd (s : jsstring) : jsstring := rev (dropWhile isSpaceChar (rev s)).
(** [s.trim()] *)
Definition trim (s : jsstring) : jsstring := trimEnd (trimStart s).

(** [s.split(sep)] where [sep] is a one-character string or a regular
    expression that is a single character class (given as [p]): never
    returns the empty array. *)
Fixpoint split_by (p : char -> bool) (s : jsstring) : list jsstring :=
  match s with
  | [] => [[]]
  | c :: s' =>
      if p c then [] :: split_by p s'
      else match split_by p s' with
           | w :: ws => (c :: w) :: ws
           | [] => [[c]]
           end
  end.

Definition split (sep : char) (s : jsstring) : list jsstring :=
  split_by (fun c => char_eqb c sep) s.

(** [parts.join(sep)] *)
Fixpoint join (sep : jsstring) (parts : list jsstring) : jsstring :=
  match parts with
  | [] => []
  | [p] => p
  | p :: ps => p ++ sep ++ join sep ps
  end.

Fixpoint startsWith (s prefix : jsstring) {struct prefix} : bool :=
  match prefix with
  | [] => true
  | p :: prefix' =>
      match s with
      | c :: s' => char_eqb c p && startsWith s' prefix'
      | [] => false
      end
  end.

Definition endsWith (s suffix : jsstring) : bool :=
  startsWith (rev s) (rev suffix).

(** [s.slice(from, -back)] with [from], [back] non-negative. *)
Definition slice_between (from back : nat) (s : jsstring) : jsstring :=
  skipn from (firstn (length s - back) s).

(** ** Resume Parser *)

Record Parsed := mkParsed {
  headline : option jsstring;
  name : option jsstring;
  email : option jsstring;
  phone : option jsstring;
  location : option jsstring;
  linkedin : option jsstring;
  body : jsstring
}.

(** The [for] loop of [parseResume]: [idx] is the index of the head of
    [rest]; returns the collected [info] and [bodyStart] (0 when the loop
    ends without reaching six entries). *)
Fixpoint header_loop (rest : list jsstring) (idx : nat) (info : list jsstring)
  : list jsstring * nat :=
  match rest with
  | [] => (info, 0)
  | l :: rest' =>
      let info' := if truthy (trim l) then info ++ [trim l] else info in
      if Nat.eqb (length info') 6 then (info', idx + 1)
      else header_loop rest' (S idx) info'
  end.

(** The [while] loop: [suffix] is [lines.slice(bodyStart)]. *)
Fixpoint skip_blank (suffix : list jsstring) (bodyStart : nat) : nat :=
  match suffix with
  | [] => bodyStart
  | l :: suffix' =>
      if negb (truthy (trim l)) then skip_blank suffix' (S bodyStart)
      else bodyStart
  end.

Definition parseResume (resumeText : jsstring) : Parsed :=
  let lines := split LF resumeText in
  let '(info, bodyStart) := header_loop lines 0 [] in
  let bodyStart := skip_blank (skipn bodyStart lines) bodyStart in
  mkParsed (nth_error info 0) (nth_error info 1) (nth_error info 2)
           (nth_error info 3) (nth_error info 4) (nth_error info 5)
           (join [LF] (skipn bodyStart lines)).

(** A line that the parser does not collect. *)
Definition blank (l : jsstring) : bool := negb (truthy (trim l)).
Definition nonblank (l : jsstring) : bool := truthy (trim l).

(** ** Date Formatter *)

Definition monthNames : list jsstring :=
  [js "Jan"; js "Feb"; js "Mar"; js "Apr"; js "May"; js "Jun";
   js "Jul"; js "Aug"; js "Sep"; js "Oct"; js "Nov"; js "Dec"].

(** [\d] *)
Definition isDigit (c : char) : bool := (N.leb 48 c && N.leb c 57)%N.

(** [part.match(/^\d{2}\/\d{4}$/)] as a test. *)
Definition is_mm_yyyy (part : jsstring) : bool :=
  match part with
  | [m1; m2; sl; y1; y2; y3; y4] =>
      isDigit m1 && isDigit m2 && char_eqb sl SLASH
      && isDigit y1 && isDigit y2 && isDigit y3 && isDigit y4
  | _ => false
  end.

(** [parseInt(s)] on the strings the formatter passes to it (they start with
    a digit): the value of the leading decimal digits; [None] is [NaN]. *)
Fixpoint leading_digits (s : jsstring) (acc : Z) : Z :=
  match s with
  | c :: s' => if isDigit c then leading_digits s' (10 * acc + (Z.of_N c - 48)) else acc
  | [] => acc
  end.

Definition parseInt (s : jsstring) : option Z :=
  match s with
  | c :: _ => if isDigit c then Some (leading_digits s 0) else None
  | [] => None
  end.

(** [arr[i]] for a number [i]: [undefined] out of range. *)
Definition index_Z {A} (arr : list A) (i : option Z) : option A :=
  match i with
  | Some i => if (i <? 0)%Z then None else nth_error arr (Z.to_nat i)
  | None => None
  end.

(** A value interpolated in a template literal. *)
Definition interpolate (v : option jsstring) : jsstring :=
  match v with
  | Some s => s
  | None => js "undefined"
  end.

(** The body shared by both [MM/YYYY] branches. *)
Definition month_year (part : jsstring) : jsstring :=
  let pieces := split SLASH part in
  let month := nth_error pieces 0 in
  let year := nth_error pieces 1 in
  let monthIndex := option_map (fun m => (m - 1)%Z) (parseInt (interpolate month)) in
  interpolate (index_Z monthNames monthIndex) ++ [SPACE] ++ interpolate year.

(** The callback of [parts.map] in [formatDate]. *)
Definition format_part (part : jsstring) : jsstring :=
  if is_mm_yyyy part then month_year part else part.

(** The class [[–-]]. *)
Definition isDash (c : char) : bool := char_eqb c EN_DASH || char_eqb c HYPHEN.

(** [s.includes(c)] for a one-character string. *)
Definition includes (s : jsstring) (c : char) : bool := existsb (fun x => char_eqb x c) s.

Definition DASH_SEP : jsstring := [SPACE; EN_DASH; SPACE].

Definition formatDate (dateStr : jsstring) : jsstring :=
  if includes dateStr EN_DASH || includes dateStr HYPHEN then
    let parts := map trim (split_by isDash dateStr) in
    join DASH_SEP (map format_part parts)
  else if is_mm_yyyy dateStr then month_year dateStr
  else dateStr.

(** ** Text Measurer and Line Wrapper *)

Record Font := mkFont { widthOfTextAtSize : jsstring -> Q -> Q }.

(** A fixed-pitch face for the examples: every character is half the
    size wide. *)
Definition fixed_pitch : Font :=
  mkFont (fun text size => (inject_Z (Z.of_nat (length text)) * size / 2)%Q).

(** [a > b] on numbers. *)
Definition Qgtb (a b : Q) : bool := negb (Qle_bool a b).
(** [a < b] on numbers. *)
Definition Qltb (a b : Q) : bool := negb (Qle_bool b a).

(** The loop of [wrapText] over the remaining words. *)
Fixpoint wrap_loop (font : Font) (size maxWidth : Q) (words : list jsstring)
    (lines : list jsstring) (currentLine : jsstring) : list jsstring :=
  match words with
  | [] => if truthy currentLine then lines ++ [currentLine] else lines
  | w :: words' =>
      let testLine := if truthy currentLine then currentLine ++ [SPACE] ++ w else w in
      let testWidth := widthOfTextAtSize font testLine size in
      if Qgtb testWidth maxWidth && truthy currentLine
      then wrap_loop font size maxWidth words' (lines ++ [currentLine]) w
      else wrap_loop font size maxWidth words' lines testLine
  end.

Definition wrapText (text : jsstring) (font : Font) (size maxWidth : Q) : list jsstring :=
  wrap_loop font size maxWidth (split SPACE text) [] [].

(** ** Inline Emphasis Renderer *)

Fixpoint takeWhile {A} (p : A -> bool) (l : list A) : list A :=
  match l with
  | [] => []
  | x :: l' => if p x then x :: takeWhile p l' else []
  end.

Definition notStar (c : char) : bool := negb (char_eqb c STAR).

Definition STARS : jsstring := [STAR; STAR].

(** A match of [\*\*[^*]+\*\*] at the head of [s]: the matched text and
    what follows it.  The class run is the longest one; a shorter run is
    followed by a character of the class, never by [*]. *)
Definition match_bold (s : jsstring) : option (jsstring * jsstring) :=
  match s with
  | a :: b :: s1 =>
      if char_eqb a STAR && char_eqb b STAR then
        match takeWhile notStar s1, dropWhile notStar s1 with
        | (_ :: _) as inner, c :: d :: rest =>
            if char_eqb c STAR && char_eqb d STAR
            then Some (STARS ++ inner ++ STARS, rest)
            else None
        | _, _ => None
        end
      else None
  | _ => None
  end.

(** [text.split] on the captured pattern [\*\*[^*]+\*\*] (global): the
    pieces between matches alternate
    with the captured matches.  [skip] counts the characters of the last
    match still to be passed over; [acc] is the current piece, reversed. *)
Fixpoint split_bold_from (s : jsstring) (skip : nat) (acc : jsstring) : list jsstring :=
  match s with
  | [] => [rev acc]
  | c :: s' =>
      match skip with
      | S k => split_bold_from s' k acc
      | O =>
          match match_bold s with
          | Some (m, _) => rev acc :: m :: split_bold_from s' (length m - 1) []
          | None => split_bold_from s' 0 (c :: acc)
          end
      end
  end.

Definition split_bold (text : jsstring) : list jsstring := split_bold_from text 0 [].

Record Color := rgb { red : Q; green : Q; blue : Q }.

(** A call on a page. *)
Inductive Op :=
| DrawText (text : jsstring) (x y size : Q) (font : Font) (color : Color)
| DrawLine (x1 y1 x2 y2 thickness : Q) (color : Color).

(** The loop of [drawTextWithBold] over the remaining parts; the calls it
    makes on [page], in order. *)
Fixpoint bold_loop (parts : list jsstring) (offsetX y : Q) (font fontBold : Font)
    (size : Q) (color : Color) : list Op :=
  match parts with
  | [] => []
  | part :: parts' =>
      if startsWith part STARS && endsWith part STARS then
        let content := slice_between 2 2 part in
        DrawText content offsetX y size fontBold color
        :: bold_loop parts' (offsetX + widthOfTextAtSize fontBold content size)%Q y
             font fontBold size color
      else
        DrawText part offsetX y size font color
        :: bold_loop parts' (offsetX + widthOfTextAtSize font part size)%Q y
             font fontBold size color
  end.

Definition drawTextWithBold (text : jsstring) (x y : Q) (font fontBold : Font)
    (size : Q) (color : Color) : list Op :=
  bold_loop (split_bold text) x y font fontBold size color.

(** ** The regular expressions of the body classifier

    A backtracking matcher for the constructs the two job-entry patterns
    use: literals, [c+], [c+?], [c*] over a character class, capture
    groups, sequence and the anchors (no [m] flag). *)

Inductive regex :=
| RLit (l : jsstring)
| RPlus (greedy : bool) (cls : char -> bool)
| RStar (greedy : bool) (cls : char -> bool)
| RGroup (r : regex)
| RSeq (r1 r2 : regex)
| RBol
| REol.

(** [cls*]: longest first, giving characters back one at a time. *)
Fixpoint star_greedy {R} (cls : char -> bool) (s : jsstring)
    (k : jsstring -> option R) : option R :=
  match s with
  | c :: s' =>
      if cls c then
        match star_greedy cls s' k with
        | Some r => Some r
        | None => k s
        end
      else k s
  | [] => k s
  end.

(** [cls*?]: shortest first, taking one more character at a time. *)
Fixpoint star_lazy {R} (cls : char -> bool) (s : jsstring)
    (k : jsstring -> option R) : option R :=
  match k s with
  | Some r => Some r
  | None =>
      match s with
      | c :: s' => if cls c then star_lazy cls s' k else None
      | [] => None
      end
  end.

Definition star {R} (greedy : bool) := if greedy then @star_greedy R else @star_lazy R.

(** [rmatch input r s caps k]: match [r] at the suffix [s] of [input], with
    the captures [caps] closed so far, then continue with [k]. *)
Fixpoint rmatch {R} (input : jsstring) (r : regex) (s : jsstring) (caps : list jsstring)
    (k : jsstring -> list jsstring -> option R) : option R :=
  match r with
  | RLit l => if startsWith s l then k (skipn (length l) s) caps else None
  | RPlus g cls =>
      match s with
      | c :: s' => if cls c then star g cls s' (fun s2 => k s2 caps) else None
      | [] => None
      end
  | RStar g cls => star g cls s (fun s2 => k s2 caps)
  | RGroup r1 =>
      rmatch input r1 s caps
        (fun s2 caps2 => k s2 (caps2 ++ [firstn (length s - length s2) s]))
  | RSeq r1 r2 => rmatch input r1 s caps (fun s2 caps2 => rmatch input r2 s2 caps2 k)
  | RBol => if Nat.eqb (length s) (length input) then k s caps else None
  | REol => match s with [] => k s caps | _ :: _ => None end
  end.

(** The first match, trying every start position from the left. *)
Fixpoint rsearch (r : regex) (input s : jsstring) : option (list jsstring) :=
  match rmatch input r s [] (fun _ caps => Some caps) with
  | Some caps => Some caps
  | None =>
      match s with
      | _ :: s' => rsearch r input s'
      | [] => None
      end
  end.

(** [input.match(r)] without the whole-match entry: the captured groups. *)
Definition regex_match (r : regex) (input : jsstring) : option (list jsstring) :=
  rsearch r input input.

(** [r.test(input)] *)
Definition regex_test (r : regex) (input : jsstring) : bool :=
  match regex_match r input with Some _ => true | None => false end.

(** [.] *)
Definition dot (c : char) : bool := negb (isLineTerminator c).

(** [/ at .+:.+/] *)
Definition JOB_TEST : regex :=
  RSeq (RLit (js " at ")) (RSeq (RPlus true dot) (RSeq (RLit [COLON]) (RPlus true dot))).

(** [/^(.+?) at (.+?):\s*(.+)$/] *)
Definition JOB_MATCH : regex :=
  RSeq RBol
    (RSeq (RGroup (RPlus false dot))
       (RSeq (RLit (js " at "))
          (RSeq (RGroup (RPlus false dot))
             (RSeq (RLit [COLON])
                (RSeq (RStar true isSpaceChar)
                   (RSeq (RGroup (RPlus true dot)) REol)))))).

(** ** Page Flow Engine *)

Open Scope Q_scope.

Definition BLACK := rgb 0 0 0.
Definition DARK_BLUE := rgb 0.1 0.2 0.4.
Definition MEDIUM_BLUE := rgb 0.2 0.4 0.6.
Definition GRAY := rgb 0.4 0.4 0.4.
Definition DARK_GRAY := rgb 0.2 0.2 0.2.

Definition MARGIN_TOP : Q := 72.
Definition MARGIN_BOTTOM : Q := 50.
Definition MARGIN_LEFT : Q := 50.
Definition MARGIN_RIGHT : Q := 50.
Definition PAGE_WIDTH : Q := 595.
Definition PAGE_HEIGHT : Q := 842.
Definition CONTENT_WIDTH : Q := PAGE_WIDTH - MARGIN_LEFT - MARGIN_RIGHT.

Definition NAME_SIZE : Q := 24.
Definition CONTACT_SIZE : Q := 9.
Definition SECTION_HEADER_SIZE : Q := 14.
Definition BODY_SIZE : Q := 11.

Definition NAME_LINE_HEIGHT : Q := NAME_SIZE * 0.8.
Definition CONTACT_LINE_HEIGHT : Q := CONTACT_SIZE * 1.5.
Definition SECTION_LINE_HEIGHT : Q := SECTION_HEADER_SIZE * 1.5.
Definition BODY_LINE_HEIGHT : Q := BODY_SIZE * 1.4.

Definition left : Q := MARGIN_LEFT.
Definition right : Q := PAGE_WIDTH - MARGIN_RIGHT.

(** What the source takes from its platform: the two embedded faces and
    the Unicode case mappings of [String.prototype]. *)
Record Env := mkEnv {
  helvetica : Font;
  helveticaBold : Font;
  toUpperCase : jsstring -> jsstring;
  toLowerCase : jsstring -> jsstring
}.

(** The case mappings on the letters a-z and A-Z only; on ASCII strings
    they are [toUpperCase] and [toLowerCase].  For the examples. *)
Definition ascii_upper (s : jsstring) : jsstring :=
  map (fun c => if (N.leb 97 c && N.leb c 122)%N then (c - 32)%N else c) s.

Definition ascii_lower (s : jsstring) : jsstring :=
  map (fun c => if (N.leb 65 c && N.leb c 90)%N then (c + 32)%N else c) s.

Definition example_env : Env := mkEnv fixed_pitch fixed_pitch ascii_upper ascii_lower.

(** A resume for the examples: six header lines, [n] one-word body lines
    and a section header. *)
Definition resume_with_lines (n : nat) : jsstring :=
  js "Engineer" ++ [LF] ++ js "Ann Lee" ++ [LF] ++ js "ann@x.io" ++ [LF]
  ++ js "555" ++ [LF] ++ js "Austin" ++ [LF] ++ js "x.io/ann" ++ [LF] ++ [LF]
  ++ concat (repeat (js "x" ++ [LF]) n) ++ js "S:".

(** The places of the source that draw wrapped lines, one per loop. *)
Inductive LineKind :=
| KName | KContact | KSection | KTitle | KCompany | KPeriod
| KCategory | KBody | KSkills.

(** [y -= h] after a line of each kind. *)
Definition line_advance (k : LineKind) : Q :=
  match k with
  | KName => NAME_LINE_HEIGHT
  | KContact => CONTACT_LINE_HEIGHT
  | KSection => SECTION_LINE_HEIGHT
  | KTitle => BODY_LINE_HEIGHT + 2
  | KCompany => BODY_LINE_HEIGHT
  | KPeriod => BODY_LINE_HEIGHT - 2
  | KCategory => BODY_LINE_HEIGHT + 2
  | KBody => BODY_LINE_HEIGHT
  | KSkills => BODY_LINE_HEIGHT
  end.

(** Whether the loop tests [y < MARGIN_BOTTOM] after each line: the two
    header loops do not. *)
Definition line_checked (k : LineKind) : bool :=
  match k with
  | KName | KContact => false
  | _ => true
  end.

(** The drawing calls for one wrapped line at height [y]. *)
Definition draw_calls (E : Env) (k : LineKind) (text : jsstring) (y : Q) : list Op :=
  let font := helvetica E in
  let fontBold := helveticaBold E in
  match k with
  | KName => [DrawText text left y NAME_SIZE fontBold DARK_BLUE]
  | KContact => [DrawText text left y CONTACT_SIZE font DARK_GRAY]
  | KSection => [DrawText text left y SECTION_HEADER_SIZE fontBold DARK_BLUE]
  | KTitle => [DrawText text (left + 10) y (BODY_SIZE + 1) fontBold MEDIUM_BLUE]
  | KCompany => [DrawText text (left + 10) y BODY_SIZE font GRAY]
  | KPeriod => [DrawText text (left + 10) y (BODY_SIZE - 1) font GRAY]
  | KCategory => [DrawText text (left + 10) y (BODY_SIZE + 1) fontBold MEDIUM_BLUE]
  | KBody => drawTextWithBold text (left + 10) y font fontBold BODY_SIZE BLACK
  | KSkills => [DrawText text (left + 20) y BODY_SIZE font DARK_GRAY]
  end.

(** One drawn item: the page it went to (index in the document), the
    place of the source that drew it ([None] for the rule under the contact
    line), the cursor at that moment and the calls made. *)
Record Placed := mkPlaced {
  pl_page : nat;
  pl_kind : option LineKind;
  pl_y : Q;
  pl_calls : list Op
}.

(** The document and the locals of [generateResumePdf]: [page] is always
    the last page added. *)
Record Flow := mkFlow {
  pages : list (Q * Q);
  y : Q;
  placed : list Placed;
  inSkillsSection : bool;
  skills : list jsstring
}.

Definition current_page (st : Flow) : nat := length (pages st) - 1.

(** [y -= h] *)
Definition advance (h : Q) (st : Flow) : Flow :=
  mkFlow (pages st) (y st - h) (placed st) (inSkillsSection st) (skills st).

(** [if (y < MARGIN_BOTTOM) { page = pdfDoc.addPage([PAGE_WIDTH, PAGE_HEIGHT]);
    y = PAGE_HEIGHT - MARGIN_TOP; }] *)
Definition page_check (st : Flow) : Flow :=
  if Qltb (y st) MARGIN_BOTTOM
  then mkFlow (pages st ++ [(PAGE_WIDTH, PAGE_HEIGHT)]) (PAGE_HEIGHT - MARGIN_TOP)
         (placed st) (inSkillsSection st) (skills st)
  else st.

Definition place (p : Placed) (st : Flow) : Flow :=
  mkFlow (pages st) (y st) (placed st ++ [p]) (inSkillsSection st) (skills st).

(** One turn of a [for (const line of wrapped)] loop. *)
Definition flow_line (E : Env) (k : LineKind) (text : jsstring) (st : Flow) : Flow :=
  let st1 := place (mkPlaced (current_page st) (Some k) (y st) (draw_calls E k text (y st))) st in
  let st2 := advance (line_advance k) st1 in
  if line_checked k then page_check st2 else st2.

Fixpoint flow_lines (E : Env) (k : LineKind) (lines : list jsstring) (st : Flow) : Flow :=
  match lines with
  | [] => st
  | l :: lines' => flow_lines E k lines' (flow_line E k l st)
  end.

Definition enter_skills (st : Flow) : Flow :=
  mkFlow (pages st) (y st) (placed st) true (skills st).

(** The job-entry branch, once the line has passed [JOB_TEST]. *)
Definition job_entry (E : Env) (line : jsstring) (st : Flow) : Flow :=
  match regex_match JOB_MATCH line with
  | Some [jobTitle; companyName; period] =>
      let st := advance 8 st in
      let st := flow_lines E KTitle
                  (wrapText (trim jobTitle) (helveticaBold E) (BODY_SIZE + 1) (CONTENT_WIDTH - 10)) st in
      let st := flow_lines E KCompany
                  (wrapText (trim companyName) (helvetica E) BODY_SIZE (CONTENT_WIDTH - 10)) st in
      let formattedPeriod := formatDate (trim period) in
      let st := flow_lines E KPeriod
                  (wrapText formattedPeriod (helvetica E) (BODY_SIZE - 1) (CONTENT_WIDTH - 10)) st in
      advance 4 st
  | _ => st
  end.

(** The body of the loop over [bodyLines] for a non-blank trimmed [line],
    up to the test that closes every such turn. *)
Definition classify_and_draw (E : Env) (line : jsstring) (st : Flow) : Flow :=
  if endsWith line [COLON] then
    let st := advance 12 st in
    let st := flow_lines E KSection
                (wrapText line (helveticaBold E) SECTION_HEADER_SIZE CONTENT_WIDTH) st in
    if str_eqb (toLowerCase E line) (js "skills:") then enter_skills st else st
  else if regex_test JOB_TEST line then job_entry E line st
  else if startsWith line [MIDDLE_DOT] then
    let categoryName := trim line in
    flow_lines E KCategory
      (wrapText categoryName (helveticaBold E) (BODY_SIZE + 1) (CONTENT_WIDTH - 20)) st
  else
    flow_lines E KBody (wrapText line (helvetica E) BODY_SIZE (CONTENT_WIDTH - 10)) st.

(** One turn of the loop over [bodyLines]; a blank line leaves through
    [continue], before the closing test. *)
Definition body_line (E : Env) (st : Flow) (raw : jsstring) : Flow :=
  let line := trim raw in
  if negb (truthy line) then advance 6 st
  else page_check (classify_and_draw E line st).

Definition body_loop (E : Env) (bodyLines : list jsstring) (st : Flow) : Flow :=
  fold_left (body_line E) bodyLines st.

(** The branch after the loop. *)
Definition trailing_skills (E : Env) (st : Flow) : Flow :=
  if inSkillsSection st && Nat.ltb 0 (length (skills st)) then
    let skillsText := join [SPACE] (skills st) in
    flow_lines E KSkills (wrapText skillsText (helvetica E) BODY_SIZE (CONTENT_WIDTH - 20)) st
  else st.

(** [[a, b, ...].filter(Boolean)] on optional strings. *)
Fixpoint filter_Boolean (l : list (option jsstring)) : list jsstring :=
  match l with
  | [] => []
  | Some s :: l' => if truthy s then s :: filter_Boolean l' else filter_Boolean l'
  | None :: l' => filter_Boolean l'
  end.

Definition CONTACT_SEP : jsstring := [SPACE; BULLET; SPACE].

(** Everything before the loop over the body: first page, name, contact
    line and rule. *)
Definition header_block (E : Env) (p : Parsed) : Flow :=
  let st := mkFlow [(595, 842)] (PAGE_HEIGHT - MARGIN_TOP) [] false [] in
  let st :=
    match name p with
    | Some ((_ :: _) as name) =>
        advance 2 (flow_lines E KName
                     (wrapText (toUpperCase E name) (helveticaBold E) NAME_SIZE CONTENT_WIDTH) st)
    | _ => advance NAME_LINE_HEIGHT st
    end in
  let contactParts := filter_Boolean [location p; phone p; email p; linkedin p] in
  let st :=
    if Nat.ltb 0 (length contactParts) then
      let contactLine := join CONTACT_SEP contactParts in
      advance 4 (flow_lines E KContact
                   (wrapText contactLine (helvetica E) CONTACT_SIZE CONTENT_WIDTH) st)
    else st in
  let st := place (mkPlaced (current_page st) None (y st)
                     [DrawLine left (y st) right (y st) 1.5 DARK_BLUE]) st in
  advance 16 st.

(** The state when the loop over the body has ended. *)
Definition after_body (E : Env) (resumeText : jsstring) : Flow :=
  let p := parseResume resumeText in
  body_loop E (split LF (body p)) (header_block E p).

(** [generateResumePdf]: the document that is then serialized. *)
Definition generateResumePdf (E : Env) (resumeText : jsstring) : Flow :=
  trailing_skills E (after_body E resumeText).

Close Scope Q_scope.

(** ** HTTP endpoint *)

(** [JSON.stringify] of a string: QuoteJSONString. *)
Definition hex_digit (n : N) : char :=
  if (n <? 10)%N then (48 + n)%N else (87 + n)%N.

Definition unicode_escape (c : char) : jsstring :=
  [BACKSLASH; 117%N;
   hex_digit (N.modulo (N.div c 4096) 16); hex_digit (N.modulo (N.div c 256) 16);
   hex_digit (N.modulo (N.div c 16) 16); hex_digit (N.modulo c 16)].

Definition isHighSurrogate (c : char) : bool := (N.leb 55296 c && N.leb c 56319)%N.
Definition isLowSurrogate (c : char) : bool := (N.leb 56320 c && N.leb c 57343)%N.

Definition json_escape_char (c : char) : jsstring :=
  if N.eqb c 8 then [BACKSLASH; 98%N]
  else if N.eqb c 9 then [BACKSLASH; 116%N]
  else if N.eqb c 10 then [BACKSLASH; 110%N]
  else if N.eqb c 12 then [BACKSLASH; 102%N]
  else if N.eqb c 13 then [BACKSLASH; 114%N]
  else if N.eqb c QUOTE then [BACKSLASH; QUOTE]
  else if N.eqb c BACKSLASH then [BACKSLASH; BACKSLASH]
  else if (c <? 32)%N || isHighSurrogate c || isLowSurrogate c then unicode_escape c
  else [c].

Fixpoint json_quote_chars (s : jsstring) : jsstring :=
  match s with
  | [] => []
  | c :: s' =>
      if isHighSurrogate c then
        match s' with
        | d :: s'' =>
            if isLowSurrogate d then c :: d :: json_quote_chars s''
            else unicode_escape c ++ json_quote_chars s'
        | [] => unicode_escape c
        end
      else json_escape_char c ++ json_quote_chars s'
  end.

Definition json_quote (s : jsstring) : jsstring :=
  [QUOTE] ++ json_quote_chars s ++ [QUOTE].

(** [JSON.stringify] of an object whose properties are strings. *)
Fixpoint json_members (props : list (jsstring * jsstring)) : jsstring :=
  match props with
  | [] => []
  | [(k, v)] => json_quote k ++ [COLON] ++ json_quote v
  | (k, v) :: props' => json_quote k ++ [COLON] ++ json_quote v ++ js "," ++ json_members props'
  end.

Definition JSON_stringify (props : list (jsstring * jsstring)) : jsstring :=
  js "{" ++ json_members props ++ js "}".

(** A value that was thrown: an [Error] with its message, or anything else. *)
Inductive Thrown :=
| ErrorObject (message : jsstring)
| OtherThrown.

Inductive Outcome (A : Type) :=
| Returned (a : A)
| Threw (e : Thrown).
Arguments Returned {A} a.
Arguments Threw {A} e.

(** A value of the form: a string, or a [File] for an uploaded file.  The
    cast [as string] of the source changes nothing when the code runs. *)
Inductive FormValue :=
| FormString (s : jsstring)
| FormFile.

(** The three fields read from the form: [formData.get] gives [null]
    ([None]) for an absent field. *)
Record FormData := mkFormData {
  job_description : option FormValue;
  company : option FormValue;
  role : option FormValue
}.

(** What the handler reaches outside itself: the environment variables,
    the completion service (the content of the first choice, [None] for
    [null]), the faces and case mappings of the renderer, the two long
    literal texts of the source (prompt template and base resume), and what
    the PDF library throws while the document of a text is generated (it
    throws on a character its standard faces cannot encode), [None] when
    it throws nothing. *)
Record Deps := mkDeps {
  OPENAI_API_KEY : option jsstring;
  OPENAI_VERSION : option jsstring;
  chat_create : jsstring -> jsstring -> Outcome (option jsstring);
  render_env : Env;
  buildPrompt : jsstring -> jsstring -> jsstring;
  baseResume : jsstring;
  pdf_throws : jsstring -> option Thrown
}.

Inductive Event :=
| ModelCall (model prompt : jsstring)
| PdfGeneration (resumeText : jsstring).

Inductive ResponseBody :=
| TextBody (text : jsstring)
| PdfBody (doc : Flow).

Record Response := mkResponse {
  status : nat;
  headers : list (jsstring * jsstring);
  response_body : ResponseBody
}.

(** Truthiness of a string or [null]/[undefined]. *)
Definition opt_truthy (v : option jsstring) : bool :=
  match v with
  | Some s => truthy s
  | None => false
  end.

(** [v || d] *)
Definition or_else (v : option jsstring) (d : jsstring) : jsstring :=
  match v with
  | Some ((_ :: _) as s) => s
  | _ => d
  end.

(** Truthiness of a value of the form or [null]: a [File] is an object. *)
Definition field_truthy (v : option FormValue) : bool :=
  match v with
  | Some (FormString s) => truthy s
  | Some FormFile => true
  | None => false
  end.

(** The text of a value inside a template literal. *)
Definition field_text (v : option FormValue) : jsstring :=
  match v with
  | Some (FormString s) => s
  | Some FormFile => js "[object File]"
  | None => js "null"
  end.

Definition json_error (code : nat) (props : list (jsstring * jsstring)) : Response :=
  mkResponse code [(js "Content-Type", js "application/json")] (TextBody (JSON_stringify props)).

(** The [catch] clause. *)
Definition internal_error (e : Thrown) : Response :=
  json_error 500
    [(js "error", js "Internal server error");
     (js "details", match e with
                    | ErrorObject message => message
                    | OtherThrown => js "Unknown error"
                    end)].

(** The class [[^a-zA-Z0-9_]] negated: the characters that are kept. *)
Definition isWordChar (c : char) : bool :=
  ((N.leb 97 c && N.leb c 122) || (N.leb 65 c && N.leb c 90)
   || (N.leb 48 c && N.leb c 57) || N.eqb c UNDERSCORE)%N.

(** [s.replace(/[^a-zA-Z0-9_]/g, '_')] *)
Definition sanitize (s : jsstring) : jsstring :=
  map (fun c => if isWordChar c then c else UNDERSCORE) s.

(** [v.replace(/[^a-zA-Z0-9_]/g, '_')] on the field called [name]: only a
    string has the method. *)
Definition replace_non_word (name : jsstring) (v : option FormValue) : Outcome jsstring :=
  match v with
  | Some (FormString s) => Returned (sanitize s)
  | Some FormFile => Threw (ErrorObject (name ++ js ".replace is not a function"))
  | None => Threw (ErrorObject (js "Cannot read properties of null (reading 'replace')"))
  end.

Definition MISSING_FIELDS : jsstring :=
  js "Missing required fields: job_description, company, role".

(** [POST]: the response and the outside calls made, in order.  [form] is
    the result of [req.formData()].  Whatever is thrown inside the [try],
    by the form, the completion service, the PDF library or a method that a
    value does not have, is answered by the [catch] clause. *)
Definition POST (D : Deps) (form : Outcome FormData) : Response * list Event :=
  match form with
  | Threw e => (internal_error e, [])
  | Returned formData =>
      let jobDescription := job_description formData in
      let company := company formData in
      let role := role formData in
      if negb (field_truthy jobDescription) || negb (field_truthy company)
         || negb (field_truthy role)
      then (json_error 400 [(js "error", MISSING_FIELDS)], [])
      else if negb (opt_truthy (OPENAI_API_KEY D))
      then (json_error 500 [(js "error", js "OpenAI API key not configured")], [])
      else
        let prompt := buildPrompt D (baseResume D) (field_text jobDescription) in
        let model := or_else (OPENAI_VERSION D) (js "gpt-3.5-turbo") in
        match chat_create D model prompt with
        | Threw e => (internal_error e, [ModelCall model prompt])
        | Returned content =>
            let tailoredResume := or_else content [] in
            if negb (truthy tailoredResume)
            then (json_error 500 [(js "error", js "Failed to generate tailored resume content")],
                  [ModelCall model prompt])
            else
              let calls := [ModelCall model prompt; PdfGeneration tailoredResume] in
              match pdf_throws D tailoredResume with
              | Some e => (internal_error e, calls)
              | None =>
                  let doc := generateResumePdf (render_env D) tailoredResume in
                  match replace_non_word (js "company") company with
                  | Threw e => (internal_error e, calls)
                  | Returned companyPart =>
                      match replace_non_word (js "role") role with
                      | Threw e => (internal_error e, calls)
                      | Returned rolePart =>
                          let fileBase := js "Louis_Bailey_" ++ companyPart
                                          ++ js "_" ++ rolePart in
                          (mkResponse 200
                             [(js "Content-Type", js "application/pdf");
                              (js "Content-Disposition",
                               js "attachment; filename=" ++ [QUOTE] ++ fileBase
                               ++ js ".pdf" ++ [QUOTE])]
                             (PdfBody doc),
                           calls)
                      end
                  end
              end
        end
  end.

(** [headers[name]] *)
Fixpoint header_value (name : jsstring) (hs : list (jsstring * jsstring)) : option jsstring :=
  match hs with
  | [] => None
  | (k, v) :: hs' => if str_eqb k name then Some v else header_value name hs'
  end.

(** A completion for the examples: six header lines, then a summary. *)
Definition example_completion : jsstring :=
  js "Engineer" ++ [LF] ++ js "Ann Lee" ++ [LF] ++ js "ann@x.io" ++ [LF]
  ++ js "555" ++ [LF] ++ js "Austin" ++ [LF] ++ js "x.io/ann" ++ [LF] ++ [LF]
  ++ js "Summary:" ++ [LF] ++ js "Builds APIs.".

(** Services for the examples: a configured key and a completion stub. *)
Definition example_deps : Deps :=
  mkDeps (Some (js "sk-test")) None
         (fun _ _ => Returned (Some example_completion))
         example_env
         (fun resume jobDescription => resume ++ [LF] ++ jobDescription)
         (js "Base resume")
         (fun _ => None).

(** ** Vocabulary of the properties *)

Definition six_line_resume : jsstring :=
  js "Engineer" ++ [LF] ++ [LF] ++ js " Ann Lee " ++ [LF] ++ js "ann@x.io" ++ [LF]
  ++ js "555" ++ [LF] ++ js "Austin" ++ [LF] ++ js "x.io/ann" ++ [LF] ++ [LF]
  ++ js "Summary:" ++ [LF] ++ js "text".

Definition three_line_resume : jsstring :=
  [LF] ++ js "Engineer" ++ [LF] ++ js "Ann Lee" ++ [LF] ++ [LF] ++ js "Summary:".

Definition noDash (s : jsstring) : bool := forallb (fun c => negb (isDash c)) s.

(** A four-digit year. *)
Definition is_year (y : jsstring) : bool :=
  match y with
  | [a; b; c; d] => isDigit a && isDigit b && isDigit c && isDigit d
  | _ => false
  end.

(** The two-digit rendering of a month number. *)
Definition mm (n : nat) : jsstring := [N.of_nat (48 + n / 10); N.of_nat (48 + n mod 10)].

(** A part that a further pass leaves alone: no dash, nothing to trim,
    not of the shape two digits, slash, four digits. *)
Definition settled (q : jsstring) : Prop :=
  noDash q = true /\ trim q = q /\ is_mm_yyyy q = false.

Definition hd_nonspace (m : jsstring) : bool :=
  match m with
  | a :: _ => negb (isSpaceChar a)
  | [] => false
  end.

(** The words of a string: the non-empty pieces between spaces. *)
Definition words (s : jsstring) : list jsstring := filter truthy (split SPACE s).

(** The string with every run of spaces collapsed to one space and the
    spaces at both ends removed. *)
Definition collapse_spaces (s : jsstring) : jsstring := join [SPACE] (words s).

(** The measured width of [line] exceeds [maxWidth]. *)
Definition exceeds (font : Font) (size maxWidth : Q) (line : jsstring) : bool :=
  Qgtb (widthOfTextAtSize font line size) maxWidth.

(** What is known of a committed line: it is not empty, and when it is
    too wide it is one of the words of the text. *)
Definition fits_or_word (font : Font) (size maxWidth : Q) (text line : jsstring) : Prop :=
  truthy line = true /\ (exceeds font size maxWidth line = true -> In line (split SPACE text)).

Definition noStar (s : jsstring) : bool := forallb notStar s.

(** [s.replace(/\*\*/g, '')]: the line with all [**] markers removed. *)
Fixpoint strip_markers (s : jsstring) : jsstring :=
  match s with
  | a :: ((b :: s'') as s') =>
      if char_eqb a STAR && char_eqb b STAR then strip_markers s''
      else a :: strip_markers s'
  | _ => s
  end.

(** The text of a drawn run (empty for a rule). *)
Definition op_text (o : Op) : jsstring :=
  match o with
  | DrawText text _ _ _ _ _ => text
  | DrawLine _ _ _ _ _ _ => []
  end.

(** The font of a drawn run. *)
Definition op_font (o : Op) : option Font :=
  match o with
  | DrawText _ _ _ _ font _ => Some font
  | DrawLine _ _ _ _ _ _ => None
  end.

(** A piece is drawn bold when it starts and ends with the marker. *)
Definition is_bold_part (part : jsstring) : bool :=
  startsWith part STARS && endsWith part STARS.

Definition run_content (part : jsstring) : jsstring :=
  if is_bold_part part then slice_between 2 2 part else part.

(** A line made of star-free texts alternating with spans [**b**] whose
    inside [b] is non-empty and star-free: [n0 **b1** n1 ... **bk** nk]. *)
Definition spans_line (n0 : jsstring) (spans : list (jsstring * jsstring)) : jsstring :=
  n0 ++ concat (map (fun bn => STARS ++ fst bn ++ STARS ++ snd bn) spans).

Definition well_formed_spans (n0 : jsstring) (spans : list (jsstring * jsstring)) : Prop :=
  noStar n0 = true /\
  Forall (fun bn => fst bn <> [] /\ noStar (fst bn) = true /\ noStar (snd bn) = true) spans.

(** A span: [**b**] with an inside [b] that is not empty and has no star. *)
Definition is_span (m : jsstring) : Prop :=
  exists b : jsstring, m = STARS ++ b ++ STARS /\ b <> [] /\ noStar b = true.

(** A span starts at position [i] of [s]. *)
Definition span_at (i : nat) (s : jsstring) : Prop :=
  exists pre m rest : jsstring, s = pre ++ m ++ rest /\ length pre = i /\ is_span m.

(** The cut of a line at its spans, from left to right: a piece in which
    no span starts, then the first span, then the cut of what follows that
    span; the last piece is one in which no span starts at all. *)
Inductive cut_at_spans : jsstring -> list jsstring -> Prop :=
| cut_end (p : jsstring) :
    (forall i, ~ span_at i p) -> cut_at_spans p [p]
| cut_span (p m rest : jsstring) (parts : list jsstring) :
    (forall i, i < length p -> ~ span_at i (p ++ m ++ rest)) ->
    is_span m ->
    cut_at_spans rest parts ->
    cut_at_spans (p ++ m ++ rest) (p :: m :: parts).

Definition run_font (font fontBold : Font) (part : jsstring) : Font :=
  if is_bold_part part then fontBold else font.

(** The width by which a run moves the offset: measured in the font it
    is drawn with. *)
Definition run_width (font fontBold : Font) (size : Q) (part : jsstring) : Q :=
  widthOfTextAtSize (run_font font fontBold part) (run_content part) size.

(** The height a drawn item takes in the body: the advance of its line
    for the loops of the body, nothing for the header block. *)
Definition drawn_height (p : Placed) : Q :=
  match pl_kind p with
  | Some k => if line_checked k then line_advance k else 0
  | None => 0
  end.

Definition body_drawn_height (log : list Placed) : Q :=
  fold_right (fun p acc => (drawn_height p + acc)%Q) 0%Q log.

(** The moves the renderer is made of.  [allowed] tells which places of
    the source may draw. *)
Inductive step (E : Env) (allowed : LineKind -> bool) : Flow -> Flow -> Prop :=
| step_advance (h : Q) (st : Flow) :
    (0 <= h)%Q -> step E allowed st (advance h st)
| step_line (k : LineKind) (text : jsstring) (st : Flow) :
    allowed k = true -> step E allowed st (flow_line E k text st)
| step_check (st : Flow) : step E allowed st (page_check st)
| step_rule (calls : list Op) (st : Flow) :
    step E allowed st (place (mkPlaced (current_page st) None (y st) calls) st)
| step_skills (st : Flow) : step E allowed st (enter_skills st).

Inductive steps (E : Env) (allowed : LineKind -> bool) : Flow -> Flow -> Prop :=
| steps_refl (st : Flow) : steps E allowed st st
| steps_more (st1 st2 st3 : Flow) :
    steps E allowed st1 st2 -> step E allowed st2 st3 -> steps E allowed st1 st3.

Definition not_skills_kind (k : LineKind) : bool :=
  match k with KSkills => false | _ => true end.

Definition body_kind (k : LineKind) : bool :=
  match k with KSection | KTitle | KCompany | KPeriod | KCategory | KBody => true | _ => false end.

Definition initial_flow : Flow :=
  mkFlow [(595, 842)%Q] (PAGE_HEIGHT - MARGIN_TOP)%Q [] false [].

Definition kinds_allowed (allowed : LineKind -> bool) (log : list Placed) : Prop :=
  Forall (fun p => forall k, pl_kind p = Some k -> allowed k = true) log.

(** While the document has one page, the cursor has come down by at least
    the height drawn in the body, and that height fits between the
    margins. *)
Definition one_page_bound (st : Flow) : Prop :=
  1 <= length (pages st) /\
  Forall (fun sz => sz = (PAGE_WIDTH, PAGE_HEIGHT)) (pages st) /\
  (length (pages st) = 1 ->
   (y st + body_drawn_height (placed st) <= PAGE_HEIGHT - MARGIN_TOP)%Q /\
   (body_drawn_height (placed st) <= PAGE_HEIGHT - MARGIN_TOP - MARGIN_BOTTOM)%Q).

(** The items drawn since some state: the first one is at [b] or above,
    the others at the bottom margin or above. *)
Definition bounded_from (b : Q) (new : list Placed) : Prop :=
  match new with
  | [] => True
  | p :: rest => (b <= pl_y p)%Q /\ Forall (fun q => (MARGIN_BOTTOM <= pl_y q)%Q) rest
  end.

Definition drawn_bounded (b : Q) (st0 st : Flow) : Prop :=
  exists new, placed st = placed st0 ++ new /\ bounded_from b new.

(** The same, with the cursor: at [b] or above while nothing is drawn, at
    the bottom margin or above afterwards. *)
Definition drawn_since (b : Q) (st0 st : Flow) : Prop :=
  exists new, placed st = placed st0 ++ new /\ bounded_from b new /\
              (new = [] -> (b <= y st)%Q) /\ (new <> [] -> (MARGIN_BOTTOM <= y st)%Q).

(** A section header of the log drawn on the first page at height [h]
    below the bottom margin, as a test. *)
Definition low_section_header (h : Q) (p : Placed) : bool :=
  match pl_kind p with
  | Some KSection => Nat.eqb (pl_page p) 0 && Qeq_bool (pl_y p) h && Qltb (pl_y p) MARGIN_BOTTOM
  | _ => false
  end.

Definition drawn_texts (log : list Placed) : list jsstring :=
  flat_map (fun p => map op_text (pl_calls p)) log.

(** A field that fails the validation: absent, or present and empty. *)
Definition missing (v : option FormValue) : Prop := field_truthy v = false.

(** The JSON text of the validation error. *)
Definition MISSING_FIELDS_JSON : jsstring :=
  js "{" ++ [QUOTE] ++ js "error" ++ [QUOTE] ++ js ":" ++ [QUOTE]
  ++ js "Missing required fields: job_description, company, role" ++ [QUOTE] ++ js "}".

Definition CONTENT_DISPOSITION (fileName : jsstring) : jsstring :=
  js "attachment; filename=" ++ [QUOTE] ++ fileName ++ [QUOTE].

(** ** Vocabulary of the further properties *)

(** The outside calls of a trace that are calls to the model. *)
Definition is_model_call (e : Event) : bool :=
  match e with ModelCall _ _ => true | PdfGeneration _ => false end.

Definition is_pdf_generation (e : Event) : bool :=
  match e with ModelCall _ _ => false | PdfGeneration _ => true end.

(** A response that carries JSON text. *)
Definition is_json_response (r : Response) : Prop :=
  headers r = [(js "Content-Type", js "application/json")]
  /\ exists text, response_body r = TextBody text.

(** The characters of a file name that need no quoting: the word
    characters and the dot. *)
Definition isFileNameChar (c : char) : bool := isWordChar c || N.eqb c 46.

(** A header line as the parser returns it: not empty, nothing to trim,
    on one line. *)
Definition header_line (h : jsstring) : Prop :=
  truthy h = true /\ trim h = h /\ forallb (fun c => negb (char_eqb c LF)) h = true.

(** The class of the en-dash alone. *)
Definition isEnDash (c : char) : bool := char_eqb c EN_DASH.

(** The month text for a month number: its abbreviation from 1 to 12, the
    rendering of [undefined] otherwise. *)
Definition month_text (n : nat) : jsstring :=
  if (1 <=? n) && (n <=? 12) then nth (n - 1) monthNames [] else js "undefined".

(** A line that is not empty and does not start with a space. *)
Definition starts_nonspace (l : jsstring) : bool :=
  match l with
  | c :: _ => negb (char_eqb c SPACE)
  | [] => false
  end.

(** The text without the spaces in front. *)
Definition strip_leading_spaces (text : jsstring) : jsstring :=
  dropWhile (fun c => char_eqb c SPACE) text.

(** The current line after the words [ws], when no line is ever cut. *)
Definition glue (currentLine : jsstring) (ws : list jsstring) : jsstring :=
  fold_left (fun c w => if truthy c then c ++ [SPACE] ++ w else w) ws currentLine.

(** The lines the loop of the wrapper measures as long as it cuts none:
    each word glued to the ones before it. *)
Fixpoint test_lines (currentLine : jsstring) (ws : list jsstring) : list jsstring :=
  match ws with
  | [] => []
  | w :: ws' =>
      let testLine := if truthy currentLine then currentLine ++ [SPACE] ++ w else w in
      testLine :: test_lines testLine ws'
  end.

Definition candidate_lines (text : jsstring) : list jsstring :=
  test_lines [] (split SPACE text).

(** The items of a log are in page order: an item is never on an earlier
    page than an item drawn before it. *)
Definition in_page_order (log : list Placed) : Prop :=
  forall (i j : nat) (p q : Placed),
    i <= j -> nth_error log i = Some p -> nth_error log j = Some q ->
    pl_page p <= pl_page q.

(** What holds of the document at every moment: there is a page; the
    cursor is at the top margin or below; every item is on a page up to the
    current one, at the top margin or below; the items are in page order. *)
Definition flow_ok (st : Flow) : Prop :=
  1 <= length (pages st) /\
  (y st <= PAGE_HEIGHT - MARGIN_TOP)%Q /\
  Forall (fun p => pl_page p <= current_page st /\ (pl_y p <= PAGE_HEIGHT - MARGIN_TOP)%Q)
    (placed st) /\
  in_page_order (placed st).

(** The rule under the contact line, drawn at height [yr]. *)
Definition header_rule (yr : Q) : Placed :=
  mkPlaced 0 None yr [DrawLine left yr right yr 1.5 DARK_BLUE].

(** The kind of item each branch of the body loop draws. *)
Definition is_kind (k : LineKind) (p : Placed) : Prop := pl_kind p = Some k.

Definition is_job_kind (p : Placed) : Prop :=
  pl_kind p = Some KTitle \/ pl_kind p = Some KCompany \/ pl_kind p = Some KPeriod.

(* ===================================================================== *)
(** * Part II: properties *)
(* ===================================================================== *)

(** ** Splitting and joining *)

Lemma split_by_nonempty (p : char -> bool) (s : jsstring) : split_by p s <> [].
Proof. destruct s as [|c s]; simpl; [|destruct (p c), (split_by p s)]; discriminate. Qed.

Lemma split_by_cons_keep (p : char -> bool) (c : char) (s : jsstring) :
  p c = false ->
  exists w ws, split_by p s = w :: ws /\ split_by p (c :: s) = (c :: w) :: ws.
Proof.
  intros Hc. simpl. rewrite Hc.
  destruct (split_by p s) as [|w ws] eqn:E.
  - exfalso. exact (split_by_nonempty p s E).
  - exists w, ws. split; reflexivity.
Qed.

(** Splitting distributes over a separator occurrence. *)
Lemma split_by_app_sep (p : char -> bool) (a b : jsstring) (c : char) :
  p c = true -> split_by p (a ++ c :: b) = split_by p a ++ split_by p b.
Proof.
  intros Hc. induction a as [|x a IH]; simpl.
  - rewrite Hc. reflexivity.
  - destruct (p x); [rewrite IH; reflexivity|].
    rewrite IH.
    destruct (split_by p a) as [|w ws] eqn:E; [exfalso; exact (split_by_nonempty p a E)|].
    reflexivity.
Qed.

Lemma split_by_no_sep (p : char -> bool) (a : jsstring) :
  forallb (fun c => negb (p c)) a = true -> split_by p a = [a].
Proof.
  induction a as [|x a IH]; simpl; [reflexivity|].
  intros H. apply andb_true_iff in H. destruct H as [Hx Ha].
  apply negb_true_iff in Hx. rewrite Hx, (IH Ha). reflexivity.
Qed.

(** No piece of a split contains a separator. *)
Lemma split_by_pieces_clean (p : char -> bool) (s w : jsstring) :
  In w (split_by p s) -> forallb (fun c => negb (p c)) w = true.
Proof.
  revert w. induction s as [|c s IH]; simpl; intros w Hw.
  - destruct Hw as [<-|[]]. reflexivity.
  - destruct (p c) eqn:Hc.
    + destruct Hw as [<-|Hw]; [reflexivity|auto].
    + destruct (split_by p s) as [|w0 ws] eqn:E.
      * destruct Hw as [<-|[]]. simpl. rewrite Hc. reflexivity.
      * destruct Hw as [<-|Hw].
        -- simpl. rewrite Hc. simpl. apply IH. left. reflexivity.
        -- apply IH. right. exact Hw.
Qed.

Lemma split_join (p : char -> bool) (c : char) (parts : list jsstring) :
  p c = true -> parts <> [] ->
  (forall w, In w parts -> forallb (fun x => negb (p x)) w = true) ->
  split_by p (join [c] parts) = parts.
Proof.
  intros Hc. induction parts as [|w parts IH]; intros Hne Hclean; [congruence|].
  destruct parts as [|w' parts].
  - simpl. apply split_by_no_sep. apply Hclean. left. reflexivity.
  - change (join [c] (w :: w' :: parts)) with (w ++ c :: join [c] (w' :: parts)).
    rewrite split_by_app_sep by exact Hc.
    rewrite split_by_no_sep by (apply Hclean; left; reflexivity).
    rewrite IH; [reflexivity|discriminate|].
    intros x Hx. apply Hclean. right. exact Hx.
Qed.

Lemma char_eqb_refl (c : char) : char_eqb c c = true.
Proof. apply N.eqb_refl. Qed.

Lemma char_eqb_eq (a b : char) : char_eqb a b = true <-> a = b.
Proof. apply N.eqb_eq. Qed.

Lemma str_eqb_eq (a b : jsstring) : str_eqb a b = true <-> a = b.
Proof.
  revert b. induction a as [|x a IH]; destruct b as [|y b]; simpl;
    try (split; [discriminate|discriminate]); [tauto|].
  rewrite andb_true_iff, char_eqb_eq, IH. split.
  - intros [-> ->]. reflexivity.
  - intros H. inversion H. auto.
Qed.

(** ** Resume Parser *)

Lemma blank_nonblank (l : jsstring) : blank l = negb (nonblank l).
Proof. reflexivity. Qed.

(** The [for] loop stops at the sixth collected line. *)
Lemma header_loop_reaches_six (pre : list jsstring) :
  forall (idx : nat) (info : list jsstring) (l : jsstring) (rest : list jsstring),
    length info + length (filter nonblank pre) = 5 ->
    nonblank l = true ->
    header_loop (pre ++ l :: rest) idx info
    = (info ++ map trim (filter nonblank pre) ++ [trim l], idx + length pre + 1).
Proof.
  induction pre as [|x pre IH]; intros idx info l rest Hlen Hl; simpl in *.
  - unfold nonblank in Hl. rewrite Hl.
    rewrite length_app. simpl.
    replace (length info + 1) with 6 by lia. simpl.
    f_equal. lia.
  - unfold nonblank at 1 in Hlen. unfold nonblank at 1.
    destruct (truthy (trim x)) eqn:Hx; simpl in *.
    + replace (length (info ++ [trim x]) =? 6) with false
        by (symmetry; apply Nat.eqb_neq; rewrite length_app; simpl; lia).
      rewrite IH by (rewrite ?length_app; simpl; auto; lia).
      rewrite <- app_assoc. simpl. f_equal. lia.
    + replace (length info =? 6) with false by (symmetry; apply Nat.eqb_neq; lia).
      rewrite IH by auto. f_equal. lia.
Qed.

(** With fewer than six collectable lines the loop runs to the end and
    leaves [bodyStart] at 0. *)
Lemma header_loop_runs_out (lines : list jsstring) :
  forall (idx : nat) (info : list jsstring),
    length info + length (filter nonblank lines) < 6 ->
    header_loop lines idx info = (info ++ map trim (filter nonblank lines), 0).
Proof.
  induction lines as [|x lines IH]; intros idx info Hlen; simpl in *.
  - rewrite app_nil_r. reflexivity.
  - unfold nonblank at 1 in Hlen. unfold nonblank at 1.
    destruct (truthy (trim x)) eqn:Hx; simpl in *.
    + replace (length (info ++ [trim x]) =? 6) with false
        by (symmetry; apply Nat.eqb_neq; rewrite length_app; simpl; lia).
      rewrite IH by (rewrite length_app; simpl; lia).
      rewrite <- app_assoc. simpl. reflexivity.
    + replace (length info =? 6) with false by (symmetry; apply Nat.eqb_neq; lia).
      apply IH. exact Hlen.
Qed.

Lemma skipn_tail {A} (l : list A) :
  forall (n : nat) (x : A) (t : list A), skipn n l = x :: t -> skipn (S n) l = t.
Proof.
  induction l as [|a l IH]; intros n x t H.
  - rewrite skipn_nil in H. discriminate.
  - destruct n; simpl in *.
    + injection H as _ ->. reflexivity.
    + apply IH with (x := x). exact H.
Qed.

(** The [while] loop moves [bodyStart] past the blank lines in front. *)
Lemma skip_blank_drops (lines suffix : list jsstring) :
  forall bodyStart : nat,
    skipn bodyStart lines = suffix ->
    skipn (skip_blank suffix bodyStart) lines = dropWhile blank suffix.
Proof.
  induction suffix as [|l suffix IH]; intros bodyStart H; simpl.
  - exact H.
  - unfold blank at 1. destruct (negb (truthy (trim l))).
    + apply IH. apply skipn_tail with (x := l). exact H.
    + exact H.
Qed.

(** The [n]-th element satisfying [p] splits the list around it. *)
Lemma nth_satisfying {A} (p : A -> bool) (l : list A) :
  forall n : nat,
    n < length (filter p l) ->
    exists pre x rest, l = pre ++ x :: rest /\ length (filter p pre) = n /\ p x = true.
Proof.
  induction l as [|a l IH]; intros n Hn; simpl in *; [lia|].
  destruct (p a) eqn:Ha; simpl in *.
  - destruct n as [|n].
    + exists [], a, l. auto.
    + destruct (IH n) as (pre & x & rest & -> & Hc & Hx); [lia|].
      exists (a :: pre), x, rest. simpl. rewrite Ha. simpl. auto.
  - destruct (IH n Hn) as (pre & x & rest & -> & Hc & Hx).
    exists (a :: pre), x, rest. simpl. rewrite Ha. auto.
Qed.

Lemma skipn_app_exact {A} (pre rest : list A) (n : nat) :
  n = length pre -> skipn n (pre ++ rest) = rest.
Proof. intros ->. rewrite skipn_app, skipn_all, Nat.sub_diag. reflexivity. Qed.

(** C1. When the text has at least six non-blank lines, the header fields
    are the first six of them, trimmed, in the order headline, name, email,
    phone, location, link, and the body is made of the lines after the
    sixth one, without the blank lines that directly follow it. *)
Theorem parseResume_six_header_lines (resumeText : jsstring) :
  6 <= length (filter nonblank (split LF resumeText)) ->
  exists (pre : list jsstring) (l6 : jsstring) (rest : list jsstring)
         (l1 l2 l3 l4 l5 : jsstring),
    split LF resumeText = pre ++ l6 :: rest /\
    filter nonblank pre = [l1; l2; l3; l4; l5] /\
    nonblank l6 = true /\
    parseResume resumeText
    = mkParsed (Some (trim l1)) (Some (trim l2)) (Some (trim l3))
               (Some (trim l4)) (Some (trim l5)) (Some (trim l6))
               (join [LF] (dropWhile blank rest)).
Proof.
  intros Hsix.
  destruct (nth_satisfying nonblank (split LF resumeText) 5)
    as (pre & l6 & rest & Hsplit & Hcount & Hl6); [lia|].
  destruct (filter nonblank pre) as [|l1 [|l2 [|l3 [|l4 [|l5 [|? ?]]]]]] eqn:Hpre;
    simpl in Hcount; try discriminate.
  exists pre, l6, rest, l1, l2, l3, l4, l5.
  repeat split; auto.
  unfold parseResume. rewrite Hsplit.
  rewrite header_loop_reaches_six by (rewrite ?Hpre; auto).
  rewrite Hpre. cbv beta iota zeta. cbn [app map nth_error].
  assert (Hskip : skipn (0 + length pre + 1) (pre ++ l6 :: rest) = rest).
  { replace (pre ++ l6 :: rest) with ((pre ++ [l6]) ++ rest)
      by (rewrite <- app_assoc; reflexivity).
    apply skipn_app_exact. rewrite length_app. simpl. lia. }
  rewrite Hskip at 1.
  rewrite skip_blank_drops with (suffix := rest) by exact Hskip.
  reflexivity.
Qed.

Lemma parseResume_six_header_lines_witness :
  exists (pre : list jsstring) (l6 : jsstring) (rest : list jsstring)
         (l1 l2 l3 l4 l5 : jsstring),
    split LF six_line_resume = pre ++ l6 :: rest /\
    filter nonblank pre = [l1; l2; l3; l4; l5] /\
    nonblank l6 = true /\
    parseResume six_line_resume
    = mkParsed (Some (trim l1)) (Some (trim l2)) (Some (trim l3))
               (Some (trim l4)) (Some (trim l5)) (Some (trim l6))
               (join [LF] (dropWhile blank rest)).
Proof.
  apply (parseResume_six_header_lines six_line_resume).
  vm_compute. lia.
Defined.

Example parseResume_six_line_resume :
  parseResume six_line_resume
  = mkParsed (Some (js "Engineer")) (Some (js "Ann Lee")) (Some (js "ann@x.io"))
             (Some (js "555")) (Some (js "Austin")) (Some (js "x.io/ann"))
             (js "Summary:" ++ [LF] ++ js "text").
Proof. reflexivity. Qed.

Lemma In_dropWhile_blank (lines : list jsstring) (l : jsstring) :
  In l lines -> nonblank l = true -> In l (dropWhile blank lines).
Proof.
  induction lines as [|x lines IH]; simpl; intros Hin Hl; [contradiction|].
  destruct (blank x) eqn:Hx.
  - destruct Hin as [->|Hin]; [|auto].
    rewrite blank_nonblank, Hl in Hx. discriminate.
  - exact Hin.
Qed.

Lemma dropWhile_incl {A} (p : A -> bool) (l : list A) (x : A) :
  In x (dropWhile p l) -> In x l.
Proof.
  induction l as [|a l IH]; simpl; [auto|].
  destruct (p a); [right; auto|auto].
Qed.

(** C10. With fewer than six non-blank lines the body start stays at 0:
    the body is the whole text from its first non-blank line on, so every
    collected header line is reported as a header field and is still a line
    of the body. *)
Theorem parseResume_short_header_kept_in_body (resumeText : jsstring) :
  length (filter nonblank (split LF resumeText)) < 6 ->
  let lines := split LF resumeText in
  let info := map trim (filter nonblank lines) in
  let p := parseResume resumeText in
  header_loop lines 0 [] = (info, 0) /\
  [headline p; name p; email p; phone p; location p; linkedin p]
  = map (nth_error info) [0; 1; 2; 3; 4; 5] /\
  body p = join [LF] (dropWhile blank lines) /\
  (forall l, In l lines -> nonblank l = true -> In l (split LF (body p))).
Proof.
  intros Hshort lines info p.
  assert (Hloop : header_loop lines 0 [] = (info, 0)).
  { unfold lines, info. rewrite header_loop_runs_out by (simpl; exact Hshort). reflexivity. }
  assert (Hbody : body p = join [LF] (dropWhile blank lines)).
  { unfold p, parseResume. fold lines. rewrite Hloop. simpl body.
    rewrite skip_blank_drops with (suffix := lines) by reflexivity. reflexivity. }
  repeat split; auto.
  - unfold p, parseResume. fold lines. rewrite Hloop. reflexivity.
  - intros l Hin Hl. rewrite Hbody.
    pose proof (In_dropWhile_blank lines l Hin Hl) as Hd.
    unfold split. rewrite split_join.
    + exact Hd.
    + apply char_eqb_refl.
    + intros E. rewrite E in Hd. contradiction.
    + intros w Hw. apply dropWhile_incl in Hw.
      apply (split_by_pieces_clean (fun c => char_eqb c LF) resumeText). exact Hw.
Qed.

Lemma parseResume_short_header_kept_in_body_witness :
  let lines := split LF three_line_resume in
  let info := map trim (filter nonblank lines) in
  let p := parseResume three_line_resume in
  header_loop lines 0 [] = (info, 0) /\
  [headline p; name p; email p; phone p; location p; linkedin p]
  = map (nth_error info) [0; 1; 2; 3; 4; 5] /\
  body p = join [LF] (dropWhile blank lines) /\
  (forall l, In l lines -> nonblank l = true -> In l (split LF (body p))).
Proof.
  apply (parseResume_short_header_kept_in_body three_line_resume).
  vm_compute. lia.
Defined.

Example parseResume_three_line_resume :
  parseResume three_line_resume
  = mkParsed (Some (js "Engineer")) (Some (js "Ann Lee")) (Some (js "Summary:"))
             None None None
             (js "Engineer" ++ [LF] ++ js "Ann Lee" ++ [LF] ++ [LF] ++ js "Summary:").
Proof. reflexivity. Qed.

(** ** Trimming *)

Lemma dropWhile_app {A} (p : A -> bool) (a b : list A) :
  dropWhile p (a ++ b) = if forallb p a then dropWhile p b else dropWhile p a ++ b.
Proof.
  induction a as [|x a IH]; simpl; [reflexivity|].
  destruct (p x); simpl; [exact IH|reflexivity].
Qed.

Lemma dropWhile_idem {A} (p : A -> bool) (l : list A) :
  dropWhile p (dropWhile p l) = dropWhile p l.
Proof.
  induction l as [|x l IH]; simpl; [reflexivity|].
  destruct (p x) eqn:E; [exact IH|]. simpl. rewrite E. reflexivity.
Qed.

Lemma dropWhile_all {A} (p : A -> bool) (l : list A) :
  forallb p l = true -> dropWhile p l = [].
Proof.
  induction l as [|x l IH]; simpl; [reflexivity|].
  destruct (p x); simpl; [exact IH|discriminate].
Qed.

Lemma trimEnd_cons (a : char) (t : jsstring) :
  isSpaceChar a = false -> trimEnd (a :: t) = a :: trimEnd t.
Proof.
  intros Ha. unfold trimEnd. simpl rev. rewrite dropWhile_app.
  destruct (forallb isSpaceChar (rev t)) eqn:E.
  - simpl. rewrite Ha. rewrite (dropWhile_all _ _ E). reflexivity.
  - rewrite rev_app_distr. reflexivity.
Qed.

Lemma trimEnd_idem (s : jsstring) : trimEnd (trimEnd s) = trimEnd s.
Proof. unfold trimEnd. rewrite rev_involutive, dropWhile_idem. reflexivity. Qed.

Lemma trimStart_head (s : jsstring) :
  trimStart s = [] \/ exists a t, trimStart s = a :: t /\ isSpaceChar a = false.
Proof.
  unfold trimStart. induction s as [|x s IH]; simpl; [left; reflexivity|].
  destruct (isSpaceChar x) eqn:E; [exact IH|].
  right. exists x, s. auto.
Qed.

Lemma trim_head (s : jsstring) :
  trim s = [] \/ exists a t, trim s = a :: t /\ isSpaceChar a = false.
Proof.
  unfold trim. destruct (trimStart_head s) as [->|(a & t & -> & Ha)].
  - left. reflexivity.
  - right. rewrite (trimEnd_cons _ _ Ha). exists a, (trimEnd t). auto.
Qed.

Lemma trim_idem (s : jsstring) : trim (trim s) = trim s.
Proof.
  destruct (trim_head s) as [E|(a & t & E & Ha)].
  - rewrite E. reflexivity.
  - unfold trim at 1. unfold trimStart. rewrite E. simpl. rewrite Ha.
    rewrite <- E. unfold trim. apply trimEnd_idem.
Qed.

Lemma trim_cons_space (c : char) (s : jsstring) :
  isSpaceChar c = true -> trim (c :: s) = trim s.
Proof. intros Hc. unfold trim, trimStart. simpl. rewrite Hc. reflexivity. Qed.

Lemma trimEnd_snoc_space (c : char) (s : jsstring) :
  isSpaceChar c = true -> trimEnd (s ++ [c]) = trimEnd s.
Proof. intros Hc. unfold trimEnd. rewrite rev_app_distr. simpl. rewrite Hc. reflexivity. Qed.

Lemma trim_snoc_space (c : char) (s : jsstring) :
  isSpaceChar c = true -> trim (s ++ [c]) = trim s.
Proof.
  intros Hc. unfold trim, trimStart. rewrite dropWhile_app.
  destruct (forallb isSpaceChar s) eqn:E.
  - simpl. rewrite Hc. rewrite (dropWhile_all _ _ E). reflexivity.
  - apply trimEnd_snoc_space. exact Hc.
Qed.

Lemma forallb_dropWhile {A} (p q : A -> bool) (l : list A) :
  forallb q l = true -> forallb q (dropWhile p l) = true.
Proof.
  induction l as [|x l IH]; simpl; [reflexivity|].
  intros H. apply andb_true_iff in H. destruct H as [Hx Hl].
  destruct (p x); [auto|]. simpl. rewrite Hx, Hl. reflexivity.
Qed.

Lemma forallb_rev {A} (q : A -> bool) (l : list A) :
  forallb q (rev l) = forallb q l.
Proof.
  induction l as [|x l IH]; simpl; [reflexivity|].
  rewrite forallb_app, IH. simpl. rewrite andb_true_r. apply andb_comm.
Qed.

(** Trimming only removes characters. *)
Lemma forallb_trim (q : char -> bool) (s : jsstring) :
  forallb q s = true -> forallb q (trim s) = true.
Proof.
  intros H. unfold trim, trimEnd, trimStart.
  rewrite forallb_rev. apply forallb_dropWhile.
  rewrite forallb_rev. apply forallb_dropWhile. exact H.
Qed.

(** ** Date Formatter *)

Lemma digit_cases (c : char) :
  isDigit c = true ->
  c = 48%N \/ c = 49%N \/ c = 50%N \/ c = 51%N \/ c = 52%N \/ c = 53%N \/
  c = 54%N \/ c = 55%N \/ c = 56%N \/ c = 57%N.
Proof.
  unfold isDigit. rewrite andb_true_iff, !N.leb_le. lia.
Qed.

Lemma digit_facts (c : char) :
  isDigit c = true ->
  char_eqb c SLASH = false /\ isDash c = false /\ isSpaceChar c = false.
Proof.
  intros H. destruct (digit_cases c H) as [->|[->|[->|[->|[->|[->|[->|[->|[->| ->]]]]]]]]];
    repeat split; reflexivity.
Qed.

Lemma includes_dash (s : jsstring) :
  includes s EN_DASH || includes s HYPHEN = existsb isDash s.
Proof.
  unfold includes. induction s as [|x s IH]; simpl; [reflexivity|].
  rewrite <- IH. unfold isDash.
  destruct (char_eqb x EN_DASH), (char_eqb x HYPHEN); simpl;
    rewrite ?orb_true_r; reflexivity.
Qed.

Lemma noDash_existsb (s : jsstring) : noDash s = negb (existsb isDash s).
Proof.
  unfold noDash. induction s as [|x s IH]; simpl; [reflexivity|].
  rewrite IH, negb_orb. reflexivity.
Qed.

Lemma formatDate_settled (q : jsstring) : settled q -> formatDate q = q.
Proof.
  intros (Hd & _ & Hm). unfold formatDate.
  rewrite includes_dash. rewrite noDash_existsb in Hd.
  apply negb_true_iff in Hd. rewrite Hd, Hm. reflexivity.
Qed.

Lemma map_trim_split_space (c : char) (s : jsstring) :
  isDash c = false -> isSpaceChar c = true ->
  map trim (split_by isDash (c :: s)) = map trim (split_by isDash s).
Proof.
  intros Hd Hs. destruct (split_by_cons_keep isDash c s Hd) as (w & ws & E1 & E2).
  rewrite E1, E2. simpl. rewrite (trim_cons_space _ _ Hs). reflexivity.
Qed.

Lemma join_two_more (sep p p' : jsstring) (r : list jsstring) :
  join sep (p :: p' :: r) = p ++ sep ++ join sep (p' :: r).
Proof. reflexivity. Qed.

(** Splitting a joined list of settled parts and trimming gives the parts
    back. *)
Lemma parts_of_join (ps : list jsstring) :
  ps <> [] -> Forall settled ps ->
  map trim (split_by isDash (join DASH_SEP ps)) = ps.
Proof.
  induction ps as [|p ps IH]; intros Hne Hall; [congruence|].
  inversion Hall as [|? ? (Hd & Ht & _) Hrest]; subst.
  destruct ps as [|p' r].
  - simpl. rewrite split_by_no_sep by exact Hd. simpl. rewrite Ht. reflexivity.
  - rewrite join_two_more. unfold DASH_SEP at 1.
    change (p ++ [SPACE; EN_DASH; SPACE] ++ join DASH_SEP (p' :: r))
      with (p ++ [SPACE] ++ EN_DASH :: SPACE :: join DASH_SEP (p' :: r)).
    rewrite app_assoc.
    rewrite split_by_app_sep by reflexivity.
    rewrite split_by_no_sep
      by (fold (noDash (p ++ [SPACE])); unfold noDash; rewrite forallb_app;
          fold (noDash p); rewrite Hd; reflexivity).
    rewrite map_app. cbn [map app].
    rewrite trim_snoc_space by reflexivity. rewrite Ht.
    rewrite map_trim_split_space by reflexivity.
    rewrite IH; [reflexivity|discriminate|exact Hrest].
Qed.

Lemma format_part_fixed (ps : list jsstring) :
  Forall settled ps -> map format_part ps = ps.
Proof.
  induction 1 as [|p ps (_ & _ & Hm) _ IH]; simpl; [reflexivity|].
  unfold format_part at 1. rewrite Hm, IH. reflexivity.
Qed.

(** A string made of two or more settled parts joined by the spaced
    en-dash is a fixed point. *)
Lemma formatDate_join (ps : list jsstring) :
  2 <= length ps -> Forall settled ps ->
  formatDate (join DASH_SEP ps) = join DASH_SEP ps.
Proof.
  intros Hlen Hall. unfold formatDate. rewrite includes_dash.
  assert (Hex : existsb isDash (join DASH_SEP ps) = true).
  { destruct ps as [|p [|p' r]]; simpl in Hlen; try lia.
    rewrite join_two_more, existsb_app. unfold DASH_SEP at 1. simpl.
    rewrite orb_true_r. reflexivity. }
  rewrite Hex.
  rewrite parts_of_join; [|destruct ps; [simpl in Hlen; lia|discriminate]|exact Hall].
  rewrite format_part_fixed by exact Hall. reflexivity.
Qed.

Lemma not_seven_not_mm_yyyy (q : jsstring) : length q <> 7 -> is_mm_yyyy q = false.
Proof.
  destruct q as [|? [|? [|? [|? [|? [|? [|? [|? ?]]]]]]]]; simpl; intros H;
    try reflexivity. lia.
Qed.

Lemma trimEnd_snoc_keep (c : char) (s : jsstring) :
  isSpaceChar c = false -> trimEnd (s ++ [c]) = s ++ [c].
Proof.
  intros Hc. unfold trimEnd. rewrite rev_app_distr. simpl. rewrite Hc.
  simpl. rewrite rev_involutive. reflexivity.
Qed.

Lemma trim_keep_app (m t : jsstring) (c : char) :
  hd_nonspace m = true -> isSpaceChar c = false ->
  trim (m ++ t ++ [c]) = m ++ t ++ [c].
Proof.
  intros Hm Hc. destruct m as [|a m]; [discriminate|].
  simpl in Hm. apply negb_true_iff in Hm.
  unfold trim, trimStart. simpl. rewrite Hm.
  replace (a :: m ++ t ++ [c]) with ((a :: m ++ t) ++ [c])
    by (simpl; rewrite <- app_assoc; reflexivity).
  apply trimEnd_snoc_keep. exact Hc.
Qed.

(** Month text followed by a four-digit year is settled. *)
Lemma month_year_text_settled (mt y : jsstring) :
  noDash mt = true -> hd_nonspace mt = true -> 3 <= length mt -> is_year y = true ->
  settled (mt ++ [SPACE] ++ y).
Proof.
  intros Hd Hh Hl Hy.
  destruct y as [|a [|b [|c [|d [|? ?]]]]]; simpl in Hy; try discriminate.
  apply andb_true_iff in Hy. destruct Hy as [Hy Hd4].
  apply andb_true_iff in Hy. destruct Hy as [Hy Hd3].
  apply andb_true_iff in Hy. destruct Hy as [Hd1 Hd2].
  destruct (digit_facts a Hd1) as (_ & Da & _).
  destruct (digit_facts b Hd2) as (_ & Db & _).
  destruct (digit_facts c Hd3) as (_ & Dc & _).
  destruct (digit_facts d Hd4) as (_ & Dd & Sd).
  repeat split.
  - unfold noDash. rewrite forallb_app. fold (noDash mt). rewrite Hd. simpl.
    rewrite Da, Db, Dc, Dd. reflexivity.
  - change ([SPACE] ++ [a; b; c; d]) with ([SPACE; a; b; c] ++ [d]).
    apply trim_keep_app; assumption.
  - apply not_seven_not_mm_yyyy. rewrite length_app. simpl. lia.
Qed.

Lemma month_text_good (i : option Z) :
  let mt := interpolate (index_Z monthNames i) in
  noDash mt = true /\ hd_nonspace mt = true /\ 3 <= length mt.
Proof.
  assert (Hall : Forall (fun mt => noDash mt = true /\ hd_nonspace mt = true /\ 3 <= length mt)
                   (js "undefined" :: monthNames)).
  { repeat constructor; simpl; lia. }
  rewrite Forall_forall in Hall. apply Hall.
  destruct i as [i|]; simpl; [|left; reflexivity].
  destruct (i <? 0)%Z; [left; reflexivity|].
  destruct (nth_error monthNames (Z.to_nat i)) as [m|] eqn:E; [|left; reflexivity].
  right. simpl. exact (nth_error_In _ _ E).
Qed.

(** The shape of a part that passes the [MM/YYYY] test. *)
Lemma is_mm_yyyy_shape (p : jsstring) :
  is_mm_yyyy p = true ->
  exists m1 m2 y, p = [m1; m2] ++ [SLASH] ++ y /\ isDigit m1 = true /\ isDigit m2 = true
                  /\ is_year y = true.
Proof.
  destruct p as [|m1 [|m2 [|sl [|y1 [|y2 [|y3 [|y4 [|? ?]]]]]]]]; simpl; try discriminate.
  rewrite !andb_true_iff. intros ((((((H1 & H2) & H3) & H4) & H5) & H6) & H7).
  apply char_eqb_eq in H3. subst sl.
  exists m1, m2, [y1; y2; y3; y4]. simpl. rewrite H1, H2, H4, H5, H6, H7. auto.
Qed.

Lemma year_no_slash (y : jsstring) :
  is_year y = true -> forallb (fun c => negb (char_eqb c SLASH)) y = true.
Proof.
  destruct y as [|a [|b [|c [|d [|? ?]]]]]; simpl; try discriminate.
  intros H. rewrite !andb_true_iff in H. destruct H as (((H1 & H2) & H3) & H4).
  destruct (digit_facts a H1) as (-> & _), (digit_facts b H2) as (-> & _),
           (digit_facts c H3) as (-> & _), (digit_facts d H4) as (-> & _).
  reflexivity.
Qed.

(** What [month_year] computes on two digits, a slash and a year. *)
Lemma month_year_digits (m1 m2 : char) (y : jsstring) :
  isDigit m1 = true -> isDigit m2 = true -> is_year y = true ->
  month_year ([m1; m2] ++ [SLASH] ++ y)
  = interpolate (index_Z monthNames
                   (Some (10 * (10 * 0 + (Z.of_N m1 - 48)) + (Z.of_N m2 - 48) - 1)%Z))
    ++ [SPACE] ++ y.
Proof.
  intros H1 H2 Hy. unfold month_year, split.
  change ([m1; m2] ++ [SLASH] ++ y) with ([m1; m2] ++ SLASH :: y).
  rewrite split_by_app_sep by reflexivity.
  destruct (digit_facts m1 H1) as (S1 & _), (digit_facts m2 H2) as (S2 & _).
  rewrite (split_by_no_sep _ [m1; m2]) by (simpl; rewrite S1, S2; reflexivity).
  rewrite (split_by_no_sep _ y) by (apply year_no_slash; exact Hy).
  simpl. rewrite H1, H2. reflexivity.
Qed.

Lemma month_year_settled (p : jsstring) : is_mm_yyyy p = true -> settled (month_year p).
Proof.
  intros H. destruct (is_mm_yyyy_shape p H) as (m1 & m2 & y & -> & H1 & H2 & Hy).
  rewrite month_year_digits by assumption.
  match goal with |- settled (interpolate (index_Z monthNames ?i) ++ _) =>
    destruct (month_text_good i) as (G1 & G2 & G3) end.
  apply month_year_text_settled; assumption.
Qed.

Lemma format_part_settled (x : jsstring) :
  noDash x = true -> settled (format_part (trim x)).
Proof.
  intros Hx. unfold format_part. destruct (is_mm_yyyy (trim x)) eqn:E.
  - apply month_year_settled. exact E.
  - repeat split; [|apply trim_idem|exact E].
    apply forallb_trim. exact Hx.
Qed.

Lemma split_by_two_parts (p : char -> bool) (s : jsstring) :
  existsb p s = true -> 2 <= length (split_by p s).
Proof.
  induction s as [|c s IH]; simpl; [discriminate|].
  destruct (p c) eqn:E; simpl.
  - intros _. pose proof (split_by_nonempty p s).
    destruct (split_by p s); [congruence|simpl; lia].
  - intros H. specialize (IH H). destruct (split_by p s); simpl in *; lia.
Qed.

(** Every output of [formatDate] is a fixed point of it. *)
Lemma formatDate_idempotent (dateStr : jsstring) :
  formatDate (formatDate dateStr) = formatDate dateStr.
Proof.
  unfold formatDate at 2 3. rewrite includes_dash.
  destruct (existsb isDash dateStr) eqn:Hdash.
  - apply formatDate_join.
    + rewrite !length_map. apply split_by_two_parts. exact Hdash.
    + rewrite Forall_forall. intros q Hq.
      rewrite map_map in Hq. apply in_map_iff in Hq. destruct Hq as (x & <- & Hx).
      apply format_part_settled. apply (split_by_pieces_clean isDash dateStr). exact Hx.
  - destruct (is_mm_yyyy dateStr) eqn:Hm.
    + apply formatDate_settled. apply month_year_settled. exact Hm.
    + unfold formatDate. rewrite includes_dash, Hdash, Hm. reflexivity.
Qed.

Lemma is_mm_yyyy_digits (m1 m2 : char) (y : jsstring) :
  isDigit m1 = true -> isDigit m2 = true -> is_year y = true ->
  is_mm_yyyy ([m1; m2] ++ [SLASH] ++ y) = true.
Proof.
  intros H1 H2 Hy.
  destruct y as [|a [|b [|c [|d [|? ?]]]]]; simpl in Hy; try discriminate.
  simpl. rewrite H1, H2. simpl. exact Hy.
Qed.

(** A month number from 1 to 12 selects its abbreviation. *)
Lemma format_part_month (n : nat) (y : jsstring) :
  1 <= n <= 12 -> is_year y = true ->
  format_part (mm n ++ [SLASH] ++ y) = nth (n - 1) monthNames [] ++ [SPACE] ++ y.
Proof.
  intros Hn Hy. unfold format_part.
  assert (Hcases : n = 1 \/ n = 2 \/ n = 3 \/ n = 4 \/ n = 5 \/ n = 6 \/ n = 7 \/ n = 8
                   \/ n = 9 \/ n = 10 \/ n = 11 \/ n = 12) by lia.
  repeat (destruct Hcases as [->|Hcases]); try subst n;
    (change (mm _) with [N.of_nat (48 + 0); N.of_nat (48 + 1)]
     || change (mm _) with [N.of_nat (48 + 0); N.of_nat (48 + 2)]
     || change (mm _) with [N.of_nat (48 + 0); N.of_nat (48 + 3)]
     || change (mm _) with [N.of_nat (48 + 0); N.of_nat (48 + 4)]
     || change (mm _) with [N.of_nat (48 + 0); N.of_nat (48 + 5)]
     || change (mm _) with [N.of_nat (48 + 0); N.of_nat (48 + 6)]
     || change (mm _) with [N.of_nat (48 + 0); N.of_nat (48 + 7)]
     || change (mm _) with [N.of_nat (48 + 0); N.of_nat (48 + 8)]
     || change (mm _) with [N.of_nat (48 + 0); N.of_nat (48 + 9)]
     || change (mm _) with [N.of_nat (48 + 1); N.of_nat (48 + 0)]
     || change (mm _) with [N.of_nat (48 + 1); N.of_nat (48 + 1)]
     || change (mm _) with [N.of_nat (48 + 1); N.of_nat (48 + 2)]);
    rewrite is_mm_yyyy_digits by (reflexivity || exact Hy);
    rewrite month_year_digits by (reflexivity || exact Hy);
    reflexivity.
Qed.

Lemma mm_digits (n : nat) :
  n <= 99 ->
  exists m1 m2 : char,
    mm n = [m1; m2] /\ isDigit m1 = true /\ isDigit m2 = true
    /\ (10 * (10 * 0 + (Z.of_N m1 - 48)) + (Z.of_N m2 - 48) - 1 = Z.of_nat n - 1)%Z.
Proof.
  intros Hn.
  pose proof (Nat.div_mod_eq n 10) as Hdm.
  pose proof (Nat.mod_upper_bound n 10 ltac:(lia)) as Hr.
  assert (Hq : n / 10 <= 9) by (apply Nat.lt_succ_r, Nat.Div0.div_lt_upper_bound; lia).
  exists (N.of_nat (48 + n / 10)), (N.of_nat (48 + n mod 10)).
  refine (conj eq_refl (conj _ (conj _ _))).
  - unfold isDigit. apply andb_true_iff. rewrite !N.leb_le. lia.
  - unfold isDigit. apply andb_true_iff. rewrite !N.leb_le. lia.
  - rewrite !nat_N_Z. lia.
Qed.

Lemma month_table (n : nat) :
  interpolate (index_Z monthNames (Some (Z.of_nat n - 1)%Z)) = month_text n.
Proof.
  unfold index_Z, month_text.
  destruct n as [|n]; [reflexivity|].
  replace (Z.of_nat (S n) - 1 <? 0)%Z with false by (symmetry; apply Z.ltb_ge; lia).
  replace (Z.to_nat (Z.of_nat (S n) - 1)) with n by lia.
  simpl Nat.leb at 1. cbn [andb]. replace (S n - 1) with n by lia.
  destruct (S n <=? 12) eqn:E.
  - apply Nat.leb_le in E.
    rewrite (nth_error_nth' monthNames []) by (simpl; lia). reflexivity.
  - apply Nat.leb_gt in E.
    replace (nth_error monthNames n) with (@None jsstring); [reflexivity|].
    symmetry. apply nth_error_None. simpl. lia.
Qed.

(** Two digits, a slash and a year: the month text and the year, whatever
    the two digits are. *)
Lemma format_part_any_month (n : nat) (y : jsstring) :
  n <= 99 -> is_year y = true ->
  is_mm_yyyy (mm n ++ [SLASH] ++ y) = true
  /\ format_part (mm n ++ [SLASH] ++ y) = month_text n ++ [SPACE] ++ y.
Proof.
  intros Hn Hy.
  destruct (mm_digits n Hn) as (m1 & m2 & -> & H1 & H2 & Hv).
  unfold format_part. rewrite is_mm_yyyy_digits, month_year_digits by assumption.
  rewrite Hv, month_table. split; reflexivity.
Qed.

(** The parts the pattern accepts are the two-digit renderings of the
    numbers 0 to 99, a slash and a year. *)
Lemma is_mm_yyyy_numbers (part : jsstring) :
  is_mm_yyyy part = true ->
  exists (n : nat) (y : jsstring), n <= 99 /\ is_year y = true /\ part = mm n ++ [SLASH] ++ y.
Proof.
  intros H. destruct (is_mm_yyyy_shape part H) as (m1 & m2 & y & -> & H1 & H2 & Hy).
  unfold isDigit in H1, H2. apply andb_true_iff in H1, H2.
  rewrite !N.leb_le in H1, H2.
  exists (10 * (N.to_nat m1 - 48) + (N.to_nat m2 - 48)), y.
  refine (conj _ (conj Hy _)); [lia|].
  unfold mm.
  replace ((10 * (N.to_nat m1 - 48) + (N.to_nat m2 - 48)) / 10) with (N.to_nat m1 - 48)
    by (apply Nat.div_unique with (r := N.to_nat m2 - 48); lia).
  replace ((10 * (N.to_nat m1 - 48) + (N.to_nat m2 - 48)) mod 10) with (N.to_nat m2 - 48)
    by (apply Nat.mod_unique with (q := N.to_nat m1 - 48); lia).
  replace (48 + (N.to_nat m1 - 48)) with (N.to_nat m1) by lia.
  replace (48 + (N.to_nat m2 - 48)) with (N.to_nat m2) by lia.
  rewrite !N2Nat.id. reflexivity.
Qed.

Lemma month_text_cases (n : nat) :
  (1 <= n <= 12 -> month_text n = nth (n - 1) monthNames [])
  /\ (n = 0 \/ 13 <= n -> month_text n = js "undefined").
Proof.
  unfold month_text. split.
  - intros [H1 H2]. apply Nat.leb_le in H1, H2. rewrite H1, H2. reflexivity.
  - intros [-> | H]; [reflexivity|].
    replace (n <=? 12) with false by (symmetry; apply Nat.leb_gt; lia).
    rewrite andb_false_r. reflexivity.
Qed.

(** C4, as the code has it.  [formatDate] leaves already formatted
    strings unchanged: the strings of the form "Jan 2020 – Mar 2022" (two
    month abbreviations, each with a four-digit year, joined by a spaced
    en-dash) and, more generally, every string it returns;
    [formatDate("06/2022 - Current")] is "Jun 2022 – Current"; on a string
    with a dash it splits at the dashes, trims the parts, formats each
    part and joins the parts with the spaced en-dash.  The parts of the
    form MM/YYYY are the two-digit numbers 00 to 99, a slash and four
    digits; such a part becomes the month text and the year, where the
    month text is the abbreviation for 01 to 12 and the text "undefined"
    for 00 and for 13 to 99 (the table has no entry there and the range is
    not tested); every other part passes through. *)
Theorem formatDate_idempotent_on_formatted :
  (forall m1 m2 y1 y2 : jsstring,
      In m1 monthNames -> In m2 monthNames -> is_year y1 = true -> is_year y2 = true ->
      formatDate ((m1 ++ [SPACE] ++ y1) ++ DASH_SEP ++ (m2 ++ [SPACE] ++ y2))
      = (m1 ++ [SPACE] ++ y1) ++ DASH_SEP ++ (m2 ++ [SPACE] ++ y2)) /\
  (forall dateStr : jsstring, formatDate (formatDate dateStr) = formatDate dateStr) /\
  formatDate (js "06/2022 - Current") = js "Jun 2022 " ++ [EN_DASH] ++ js " Current" /\
  (forall dateStr : jsstring,
      includes dateStr EN_DASH || includes dateStr HYPHEN = true ->
      formatDate dateStr
      = join DASH_SEP (map format_part (map trim (split_by isDash dateStr)))) /\
  (forall part : jsstring,
      is_mm_yyyy part = true <->
      exists (n : nat) (y : jsstring),
        n <= 99 /\ is_year y = true /\ part = mm n ++ [SLASH] ++ y) /\
  (forall (n : nat) (y : jsstring),
      n <= 99 -> is_year y = true ->
      format_part (mm n ++ [SLASH] ++ y) = month_text n ++ [SPACE] ++ y) /\
  (forall n : nat,
      (1 <= n <= 12 -> month_text n = nth (n - 1) monthNames []) /\
      (n = 0 \/ 13 <= n -> month_text n = js "undefined")) /\
  (forall part : jsstring, is_mm_yyyy part = false -> format_part part = part).
Proof.
  refine (conj _ (conj _ (conj _ (conj _ (conj _ (conj _ (conj _ _))))))).
  - intros m1 m2 y1 y2 Hm1 Hm2 Hy1 Hy2.
    assert (Hmonth : forall m, In m monthNames ->
                noDash m = true /\ hd_nonspace m = true /\ 3 <= length m).
    { intros m Hm. unfold monthNames in Hm. simpl in Hm.
      repeat (destruct Hm as [<-|Hm]; [repeat split; simpl; lia|]). contradiction. }
    destruct (Hmonth m1 Hm1) as (A1 & B1 & C1), (Hmonth m2 Hm2) as (A2 & B2 & C2).
    apply (formatDate_join [m1 ++ [SPACE] ++ y1; m2 ++ [SPACE] ++ y2]); [simpl; lia|].
    repeat constructor; apply month_year_text_settled; assumption.
  - apply formatDate_idempotent.
  - reflexivity.
  - intros dateStr H. unfold formatDate. rewrite H. reflexivity.
  - intros part. split.
    + apply is_mm_yyyy_numbers.
    + intros (n & y & Hn & Hy & ->). apply format_part_any_month; assumption.
  - intros n y Hn Hy. apply format_part_any_month; assumption.
  - apply month_text_cases.
  - intros part H. unfold format_part. rewrite H. reflexivity.
Qed.

Lemma formatDate_idempotent_on_formatted_witness :
  formatDate (js "Jan 2020 " ++ [EN_DASH] ++ js " Mar 2022")
  = js "Jan 2020 " ++ [EN_DASH] ++ js " Mar 2022"
  /\ formatDate (js "03/2020 - 09/2022")
     = join DASH_SEP (map format_part [js "03/2020"; js "09/2022"])
  /\ format_part (js "09/2022") = js "Sep 2022"
  /\ format_part (js "13/2022") = js "undefined 2022"
  /\ format_part (js "Current") = js "Current".
Proof.
  destruct formatDate_idempotent_on_formatted as (H1 & _ & _ & H4 & _ & H6 & _ & H8).
  refine (conj _ (conj _ (conj _ (conj _ _)))).
  - apply (H1 (js "Jan") (js "Mar") (js "2020") (js "2022")); simpl; auto 20.
  - apply (H4 (js "03/2020 - 09/2022")). reflexivity.
  - apply (H6 9 (js "2022")); [lia|reflexivity].
  - apply (H6 13 (js "2022")); [lia|reflexivity].
  - apply (H8 (js "Current")). reflexivity.
Defined.

(** C4, as stated, fails on a part whose two digits are no month: the part
    matches MM/YYYY and is reformatted, but not to an abbreviated month and
    a year; the text "undefined" stands where the month should. *)
Lemma formatDate_part_13_is_no_month :
  is_mm_yyyy (js "13/2022") = true
  /\ formatDate (js "13/2022 - Current")
     = js "undefined 2022 " ++ [EN_DASH] ++ js " Current"
  /\ format_part (js "13/2022") = js "undefined 2022"
  /\ ~ (exists m : jsstring,
          In m monthNames /\ format_part (js "13/2022") = m ++ [SPACE] ++ js "2022").
Proof.
  refine (conj eq_refl (conj eq_refl (conj eq_refl _))).
  intros (m & Hm & H). change (format_part (js "13/2022")) with (js "undefined 2022") in H.
  unfold monthNames in Hm. simpl in Hm.
  repeat (destruct Hm as [<-|Hm]; [discriminate H|]). contradiction.
Qed.

(** A month number outside 01..12 has no entry in the table: the month
    text is then the rendering of [undefined]. *)
Example formatDate_month_out_of_table :
  formatDate (js "13/2022") = js "undefined 2022"
  /\ formatDate (js "00/2022 - Current") = js "undefined 2022 " ++ [EN_DASH] ++ js " Current".
Proof. split; reflexivity. Qed.

(** ** Line Wrapper *)

Section LineWrapper.

Variable font : Font.
Variables size maxWidth : Q.

Variable text : jsstring.

Lemma wrap_loop_lines_fit (ws : list jsstring) :
  forall (lines : list jsstring) (currentLine : jsstring),
    incl ws (split SPACE text) ->
    Forall (fits_or_word font size maxWidth text) lines ->
    (truthy currentLine = true -> exceeds font size maxWidth currentLine = true ->
     In currentLine (split SPACE text)) ->
    Forall (fits_or_word font size maxWidth text) (wrap_loop font size maxWidth ws lines currentLine).
Proof.
  induction ws as [|w ws IH]; intros lines cur Hws Hlines Hcur; cbn [wrap_loop].
  - destruct (truthy cur) eqn:Ht; [|exact Hlines].
    apply Forall_app. split; [exact Hlines|].
    constructor; [split; auto|constructor].
  - assert (Hw : In w (split SPACE text)) by (apply Hws; left; reflexivity).
    assert (Hws' : incl ws (split SPACE text))
      by (intros x Hx; apply Hws; right; exact Hx).
    destruct (truthy cur) eqn:Ht.
    + destruct (Qgtb (widthOfTextAtSize font (cur ++ [SPACE] ++ w) size) maxWidth) eqn:Hg;
        cbn [andb].
      * apply IH; auto.
        apply Forall_app. split; [exact Hlines|].
        constructor; [split; auto|constructor].
      * apply IH; auto.
        unfold exceeds. rewrite Hg. discriminate.
    + rewrite andb_false_r. apply IH; auto.
Qed.

Lemma words_clean (w : jsstring) :
  In w (split SPACE text) -> words w = filter truthy [w].
Proof.
  intros Hw. unfold words, split. rewrite split_by_no_sep; [reflexivity|].
  apply (split_by_pieces_clean (fun c => char_eqb c SPACE) text). exact Hw.
Qed.

Lemma words_extend (cur w : jsstring) :
  words (cur ++ [SPACE] ++ w) = words cur ++ words w.
Proof.
  unfold words, split. change (cur ++ [SPACE] ++ w) with (cur ++ SPACE :: w).
  rewrite split_by_app_sep by reflexivity. apply filter_app.
Qed.

Lemma wrap_loop_words (ws : list jsstring) :
  forall (lines : list jsstring) (currentLine : jsstring),
    incl ws (split SPACE text) ->
    flat_map words (wrap_loop font size maxWidth ws lines currentLine)
    = flat_map words lines ++ words currentLine ++ filter truthy ws.
Proof.
  induction ws as [|w ws IH]; intros lines cur Hws.
  - simpl. rewrite app_nil_r. destruct cur as [|c cur]; simpl truthy; cbv iota.
    + rewrite app_nil_r. reflexivity.
    + rewrite flat_map_app. simpl. rewrite app_nil_r. reflexivity.
  - assert (Hw : In w (split SPACE text)) by (apply Hws; left; reflexivity).
    assert (Hws' : incl ws (split SPACE text))
      by (intros x Hx; apply Hws; right; exact Hx).
    assert (Hfw : filter truthy (w :: ws) = words w ++ filter truthy ws).
    { rewrite (words_clean w Hw). simpl. destruct (truthy w); reflexivity. }
    rewrite Hfw. cbn [wrap_loop].
    destruct (truthy cur) eqn:Ht.
    + destruct (Qgtb (widthOfTextAtSize font (cur ++ [SPACE] ++ w) size) maxWidth);
        cbn [andb]; rewrite (IH _ _ Hws').
      * rewrite flat_map_app. simpl. rewrite app_nil_r, <- app_assoc. reflexivity.
      * rewrite words_extend, <- app_assoc. reflexivity.
    + rewrite andb_false_r. rewrite (IH _ _ Hws').
      destruct cur; [reflexivity|discriminate].
Qed.

(** C2. No emitted line is wider than [maxWidth] unless it is a single
    word of the input (then it is that word, whole, on a line of its own),
    and the words of the emitted lines, in order, are the words of the
    input: joined by single spaces they give the input with its runs of
    spaces collapsed. *)
Theorem wrapText_fits_and_keeps_words :
  let lines := wrapText text font size maxWidth in
  (forall line, In line lines ->
     exceeds font size maxWidth line = true -> In line (words text)) /\
  flat_map words lines = words text /\
  join [SPACE] (flat_map words lines) = collapse_spaces text.
Proof.
  intros lines.
  assert (Hw : flat_map words lines = words text).
  { unfold lines, wrapText. rewrite wrap_loop_words by apply incl_refl. reflexivity. }
  refine (conj _ (conj Hw _)).
  - intros line Hin Hex.
    assert (Hall : Forall (fits_or_word font size maxWidth text) lines).
    { unfold lines, wrapText. apply wrap_loop_lines_fit.
      - apply incl_refl.
      - constructor.
      - discriminate. }
    rewrite Forall_forall in Hall. destruct (Hall line Hin) as (Ht & Hword).
    unfold words. apply filter_In. split; [exact (Hword Hex)|exact Ht].
  - rewrite Hw. reflexivity.
Qed.

End LineWrapper.

Lemma wrapText_fits_and_keeps_words_witness :
  In (js "overlongword") (words (js "a  overlongword b"))
  /\ flat_map words (wrapText (js "a  overlongword b") fixed_pitch 2 5)
     = words (js "a  overlongword b").
Proof.
  destruct (wrapText_fits_and_keeps_words fixed_pitch 2 5 (js "a  overlongword b"))
    as (Hfit & Hwords & _).
  split; [|exact Hwords].
  apply (Hfit (js "overlongword")); [|reflexivity].
  vm_compute. auto.
Defined.

Example wrapText_overlong_word :
  wrapText (js "a  overlongword b") fixed_pitch 2 5
  = [js "a "; js "overlongword"; js "b"].
Proof. reflexivity. Qed.

(** ** Inline Emphasis Renderer *)

Lemma takeWhile_dropWhile {A} (p : A -> bool) (l : list A) :
  takeWhile p l ++ dropWhile p l = l.
Proof.
  induction l as [|x l IH]; simpl; [reflexivity|].
  destruct (p x); simpl; [rewrite IH|]; reflexivity.
Qed.

Lemma forallb_takeWhile {A} (p : A -> bool) (l : list A) :
  forallb p (takeWhile p l) = true.
Proof.
  induction l as [|x l IH]; simpl; [reflexivity|].
  destruct (p x) eqn:E; simpl; [rewrite E, IH|]; reflexivity.
Qed.

Lemma takeWhile_stop {A} (p : A -> bool) (a : list A) (x : A) (b : list A) :
  forallb p a = true -> p x = false ->
  takeWhile p (a ++ x :: b) = a /\ dropWhile p (a ++ x :: b) = x :: b.
Proof.
  intros Ha Hx. induction a as [|c a IH]; simpl in *.
  - rewrite Hx. auto.
  - apply andb_true_iff in Ha. destruct Ha as [Hc Ha]. rewrite Hc.
    destruct (IH Ha) as [-> ->]. auto.
Qed.

(** A match is a prefix of the string, of the form [**inner**]. *)
Lemma match_bold_spec (s m rest : jsstring) :
  match_bold s = Some (m, rest) ->
  s = m ++ rest /\
  exists inner, m = STARS ++ inner ++ STARS /\ inner <> [] /\ noStar inner = true.
Proof.
  unfold match_bold.
  destruct s as [|a [|b s1]]; try discriminate.
  destruct (char_eqb a STAR) eqn:Ea; [|discriminate].
  destruct (char_eqb b STAR) eqn:Eb; [|discriminate].
  apply char_eqb_eq in Ea, Eb. subst a b. cbn [andb].
  pose proof (takeWhile_dropWhile notStar s1) as Hs1.
  pose proof (forallb_takeWhile notStar s1) as Hin.
  destruct (takeWhile notStar s1) as [|i inner] eqn:Et; [discriminate|].
  destruct (dropWhile notStar s1) as [|c [|d r]] eqn:Ed; try discriminate.
  destruct (char_eqb c STAR) eqn:Ec; [|discriminate].
  destruct (char_eqb d STAR) eqn:Edd; [|discriminate].
  apply char_eqb_eq in Ec, Edd. subst c d. cbn [andb].
  intros H. injection H as <- <-. split.
  - rewrite <- Hs1. unfold STARS. simpl. rewrite <- !app_assoc. reflexivity.
  - exists (i :: inner). repeat split; [discriminate|exact Hin].
Qed.

Lemma match_bold_span (b rest : jsstring) :
  b <> [] -> noStar b = true ->
  match_bold (STARS ++ b ++ STARS ++ rest) = Some (STARS ++ b ++ STARS, rest).
Proof.
  intros Hne Hb. unfold match_bold, STARS. simpl app. cbv iota beta.
  rewrite char_eqb_refl. cbn [andb].
  destruct (takeWhile_stop notStar b STAR (STAR :: rest) Hb eq_refl) as [-> ->].
  destruct b as [|c b]; [congruence|].
  rewrite char_eqb_refl. reflexivity.
Qed.

Lemma match_bold_not_star (c : char) (s : jsstring) :
  notStar c = true -> match_bold (c :: s) = None.
Proof.
  unfold notStar. intros H. apply negb_true_iff in H.
  unfold match_bold. destruct s; [reflexivity|]. rewrite H. reflexivity.
Qed.

(** Passing over the rest of a match. *)
Lemma split_bold_skip (pre : jsstring) :
  forall rest acc, split_bold_from (pre ++ rest) (length pre) acc = split_bold_from rest 0 acc.
Proof.
  induction pre as [|c pre IH]; intros rest acc; [reflexivity|]. simpl. apply IH.
Qed.

Lemma split_bold_at_match (s m rest acc : jsstring) :
  match_bold s = Some (m, rest) ->
  split_bold_from s 0 acc = rev acc :: m :: split_bold_from rest 0 [].
Proof.
  intros H. destruct (match_bold_spec _ _ _ H) as (Hs & inner & Hm & _ & _).
  destruct s as [|c s']; [discriminate|].
  cbn [split_bold_from]. rewrite H.
  do 2 f_equal.
  destruct m as [|c' m']; [subst; discriminate|].
  simpl in Hs. injection Hs as -> ->.
  replace (length (c' :: m') - 1) with (length m') by (simpl; lia).
  apply split_bold_skip.
Qed.

Lemma split_bold_plain (n : jsstring) :
  forall rest acc,
    noStar n = true ->
    split_bold_from (n ++ rest) 0 acc = split_bold_from rest 0 (rev n ++ acc).
Proof.
  induction n as [|c n IH]; intros rest acc Hn; [reflexivity|].
  simpl in Hn. apply andb_true_iff in Hn. destruct Hn as [Hc Hn].
  change ((c :: n) ++ rest) with (c :: (n ++ rest)).
  cbn [split_bold_from]. rewrite (match_bold_not_star _ _ Hc).
  rewrite IH by exact Hn. simpl. rewrite <- app_assoc. reflexivity.
Qed.

(** The pieces put together give the line back. *)
Lemma split_bold_concat (s : jsstring) :
  forall k acc, concat (split_bold_from s k acc) = rev acc ++ skipn k s.
Proof.
  induction s as [|c s IH]; intros k acc.
  - simpl. rewrite skipn_nil. reflexivity.
  - cbn [split_bold_from]. destruct k as [|k]; [|rewrite IH; reflexivity].
    destruct (match_bold (c :: s)) as [[m rest]|] eqn:E.
    + destruct (match_bold_spec _ _ _ E) as (Hs & inner & Hm & _).
      destruct m as [|c' m'].
      * discriminate Hm.
      * simpl in Hs. injection Hs as <- ->.
        cbn [concat]. rewrite IH.
        replace (length (c :: m') - 1) with (length m') by (simpl; lia).
        rewrite skipn_app, skipn_all, Nat.sub_diag. reflexivity.
    + rewrite IH. simpl. rewrite <- app_assoc. reflexivity.
Qed.

(** The pieces of a well-formed line are its texts and its spans. *)
Lemma split_bold_spans (spans : list (jsstring * jsstring)) :
  forall n0 acc,
    well_formed_spans n0 spans ->
    split_bold_from (spans_line n0 spans) 0 acc
    = (rev acc ++ n0)
      :: flat_map (fun bn => [STARS ++ fst bn ++ STARS; snd bn]) spans.
Proof.
  induction spans as [|[b n] spans IH]; intros n0 acc (Hn0 & Hall); unfold spans_line.
  - simpl. rewrite app_nil_r.
    rewrite <- (app_nil_r n0) at 1. rewrite split_bold_plain by exact Hn0.
    simpl. rewrite rev_app_distr, rev_involutive. reflexivity.
  - inversion Hall as [|? ? (Hb1 & Hb2 & Hn) Hrest]; subst. simpl in Hb1, Hb2, Hn.
    cbn [map concat fst snd].
    rewrite split_bold_plain by exact Hn0.
    replace ((STARS ++ b ++ STARS ++ n)
             ++ concat (map (fun bn => STARS ++ fst bn ++ STARS ++ snd bn) spans))
      with (STARS ++ b ++ STARS ++ spans_line n spans)
      by (unfold spans_line; rewrite <- !app_assoc; reflexivity).
    rewrite (split_bold_at_match _ _ _ _ (match_bold_span b _ Hb1 Hb2)).
    rewrite rev_app_distr, rev_involutive.
    rewrite IH by (split; assumption).
    reflexivity.
Qed.

Lemma strip_markers_keep (a : char) (s : jsstring) :
  char_eqb a STAR = false -> strip_markers (a :: s) = a :: strip_markers s.
Proof. intros H. destruct s; simpl; [|rewrite H]; reflexivity. Qed.

Lemma strip_markers_stars (s : jsstring) :
  strip_markers (STARS ++ s) = strip_markers s.
Proof. reflexivity. Qed.

Lemma strip_markers_plain (n : jsstring) :
  forall rest, noStar n = true -> strip_markers (n ++ rest) = n ++ strip_markers rest.
Proof.
  induction n as [|c n IH]; intros rest Hn; [reflexivity|].
  simpl in Hn. apply andb_true_iff in Hn. destruct Hn as [Hc Hn].
  unfold notStar in Hc. apply negb_true_iff in Hc.
  change ((c :: n) ++ rest) with (c :: (n ++ rest)).
  rewrite (strip_markers_keep _ _ Hc), (IH rest Hn). reflexivity.
Qed.

Lemma strip_markers_spans (spans : list (jsstring * jsstring)) :
  forall n0,
    well_formed_spans n0 spans ->
    strip_markers (spans_line n0 spans)
    = n0 ++ concat (map (fun bn => fst bn ++ snd bn) spans).
Proof.
  induction spans as [|[b n] spans IH]; intros n0 (Hn0 & Hall); unfold spans_line.
  - simpl. rewrite strip_markers_plain by exact Hn0. reflexivity.
  - inversion Hall as [|? ? (Hb1 & Hb2 & Hn) Hrest]; subst. simpl in Hb1, Hb2, Hn.
    cbn [map concat fst snd].
    rewrite strip_markers_plain by exact Hn0. f_equal.
    replace ((STARS ++ b ++ STARS ++ n)
             ++ concat (map (fun bn => STARS ++ fst bn ++ STARS ++ snd bn) spans))
      with (STARS ++ b ++ STARS ++ spans_line n spans)
      by (unfold spans_line; rewrite <- !app_assoc; reflexivity).
    rewrite strip_markers_stars.
    rewrite strip_markers_plain by exact Hb2.
    rewrite strip_markers_stars.
    rewrite IH by (split; assumption).
    rewrite <- app_assoc. simpl. reflexivity.
Qed.

Lemma noStar_not_bold (n : jsstring) : noStar n = true -> is_bold_part n = false.
Proof.
  destruct n as [|c n]; [reflexivity|]. simpl. intros H.
  apply andb_true_iff in H. destruct H as [Hc _].
  unfold notStar in Hc. apply negb_true_iff in Hc.
  unfold is_bold_part, STARS. simpl. rewrite Hc. reflexivity.
Qed.

Lemma span_is_bold (b : jsstring) :
  is_bold_part (STARS ++ b ++ STARS) = true
  /\ slice_between 2 2 (STARS ++ b ++ STARS) = b.
Proof.
  split.
  - unfold is_bold_part, endsWith. rewrite app_assoc, (rev_app_distr _ STARS).
    rewrite <- app_assoc. simpl. reflexivity.
  - unfold slice_between. rewrite !length_app. simpl length.
    replace (2 + (length b + 2) - 2) with (length (STARS ++ b)) by (rewrite length_app; simpl; lia).
    rewrite app_assoc. rewrite firstn_app, firstn_all, Nat.sub_diag. simpl firstn.
    rewrite app_nil_r. reflexivity.
Qed.

(** *** Where the line is cut *)

Lemma is_span_length (m : jsstring) : is_span m -> 5 <= length m.
Proof.
  intros (b & -> & Hb & _). rewrite !length_app. simpl.
  destruct b; [congruence|simpl; lia].
Qed.

Lemma span_at_bound (i : nat) (s : jsstring) : span_at i s -> i + 5 <= length s.
Proof.
  intros (pre & m & rest & -> & <- & Hm). apply is_span_length in Hm.
  rewrite !length_app. lia.
Qed.

Lemma span_at_cons (c : char) (i : nat) (s : jsstring) :
  span_at (S i) (c :: s) <-> span_at i s.
Proof.
  split.
  - intros (pre & m & rest & Hs & Hlen & Hm).
    destruct pre as [|c' pre]; [discriminate Hlen|].
    simpl in Hs, Hlen. injection Hs as _ ->. injection Hlen as <-.
    exists pre, m, rest. auto.
  - intros (pre & m & rest & -> & <- & Hm).
    exists (c :: pre), m, rest. auto.
Qed.

Lemma span_at_app (pre : jsstring) (i : nat) (s : jsstring) :
  span_at (length pre + i) (pre ++ s) <-> span_at i s.
Proof.
  induction pre as [|c pre IH]; simpl; [reflexivity|].
  rewrite span_at_cons. exact IH.
Qed.

(** The matcher finds the span that starts at the head, and only that. *)
Lemma match_bold_iff (s : jsstring) :
  (forall m rest, match_bold s = Some (m, rest) -> s = m ++ rest /\ is_span m)
  /\ (span_at 0 s -> match_bold s <> None)
  /\ (forall m rest, is_span m -> match_bold (m ++ rest) = Some (m, rest)).
Proof.
  refine (conj _ (conj _ _)).
  - intros m rest H. destruct (match_bold_spec _ _ _ H) as (Hs & inner & Hm & Hne & Hin).
    split; [exact Hs|]. exists inner. auto.
  - intros (pre & m & rest & -> & Hlen & b & -> & Hne & Hb).
    destruct pre; [|discriminate Hlen]. simpl app.
    change (STAR :: STAR :: (b ++ STARS) ++ rest) with (STARS ++ (b ++ STARS) ++ rest).
    rewrite <- (app_assoc b). rewrite (match_bold_span b rest Hne Hb). discriminate.
  - intros m rest (b & -> & Hne & Hb).
    replace ((STARS ++ b ++ STARS) ++ rest) with (STARS ++ b ++ STARS ++ rest)
      by (rewrite <- !app_assoc; reflexivity).
    apply match_bold_span; assumption.
Qed.

(** Passing over a piece in which no span starts. *)
Lemma split_bold_no_span (n : jsstring) :
  forall rest acc,
    (forall i, i < length n -> ~ span_at i (n ++ rest)) ->
    split_bold_from (n ++ rest) 0 acc = split_bold_from rest 0 (rev n ++ acc).
Proof.
  induction n as [|c n IH]; intros rest acc Hno; [reflexivity|].
  change ((c :: n) ++ rest) with (c :: (n ++ rest)).
  cbn [split_bold_from].
  destruct (match_bold (c :: n ++ rest)) as [[m r]|] eqn:E.
  - exfalso. destruct (match_bold_iff (c :: n ++ rest)) as (Hsound & _ & _).
    destruct (Hsound m r E) as (Hs & Hm).
    apply (Hno 0); [simpl; lia|].
    exists [], m, r. simpl. auto.
  - rewrite IH.
    + simpl. rewrite <- app_assoc. reflexivity.
    + intros i Hi Hspan. apply (Hno (S i)); [simpl; lia|].
      apply span_at_cons. exact Hspan.
Qed.

(** The cut determines the pieces: they are the ones [split] gives. *)
Lemma cut_at_spans_unique (text : jsstring) (parts : list jsstring) :
  cut_at_spans text parts -> parts = split_bold text.
Proof.
  unfold split_bold. induction 1 as [p Hno|p m rest parts Hno Hm _ IH].
  - rewrite <- (app_nil_r p) at 2. rewrite split_bold_no_span.
    + simpl. rewrite app_nil_r, rev_involutive. reflexivity.
    + intros i _. rewrite app_nil_r. apply Hno.
  - rewrite split_bold_no_span by exact Hno.
    destruct (match_bold_iff (m ++ rest)) as (_ & _ & Hfound).
    rewrite (split_bold_at_match _ _ _ _ (Hfound m rest Hm)).
    rewrite app_nil_r, rev_involutive, <- IH. reflexivity.
Qed.

(** Every line has its cut: the pieces [split] gives. *)
Lemma split_bold_from_cut (k : nat) :
  forall (s acc : jsstring),
    length s <= k ->
    (forall i, i < length acc -> ~ span_at i (rev acc ++ s)) ->
    cut_at_spans (rev acc ++ s) (split_bold_from s 0 acc).
Proof.
  induction k as [|k IH]; intros s acc Hk Hno;
    (destruct s as [|c s'];
     [ cbn [split_bold_from]; rewrite app_nil_r in *; apply cut_end;
       intros i Hspan; pose proof (span_at_bound _ _ Hspan) as Hb;
       rewrite length_rev in Hb; apply (Hno i); [lia|exact Hspan] | ]).
  - simpl in Hk. lia.
  - destruct (match_bold (c :: s')) as [[m rest]|] eqn:E.
      * rewrite (split_bold_at_match _ _ _ _ E).
        destruct (match_bold_iff (c :: s')) as (Hsound & _ & _).
        destruct (Hsound m rest E) as (Hs & Hm). rewrite Hs.
        apply cut_span.
        -- intros i Hi. rewrite <- Hs. apply Hno. rewrite length_rev in Hi. exact Hi.
        -- exact Hm.
        -- apply (IH rest []).
           ++ apply is_span_length in Hm.
              assert (length (c :: s') = length (m ++ rest)) by (rewrite Hs; reflexivity).
              rewrite length_app in *. simpl in *. lia.
           ++ intros i Hi. simpl in Hi. lia.
      * cbn [split_bold_from]. rewrite E.
        replace (rev acc ++ c :: s') with (rev (c :: acc) ++ s')
          by (simpl; rewrite <- app_assoc; reflexivity).
        apply IH; [simpl in Hk; lia|].
        intros i Hi. simpl rev. rewrite <- app_assoc. simpl app.
        simpl in Hi.
        destruct (Nat.eq_dec i (length acc)) as [->|Hne].
        -- intros Hspan.
           rewrite <- (length_rev acc), <- (Nat.add_0_r (length (rev acc))) in Hspan.
           apply span_at_app in Hspan.
           destruct (match_bold_iff (c :: s')) as (_ & Hcomplete & _).
           apply (Hcomplete Hspan). exact E.
        -- apply Hno. lia.
Qed.

Lemma split_bold_cut (text : jsstring) : cut_at_spans text (split_bold text).
Proof.
  apply (split_bold_from_cut (length text) text []); [lia|].
  intros i Hi. simpl in Hi. lia.
Qed.

Section Emphasis.

Variables font fontBold : Font.
Variable size : Q.
Variable color : Color.

Lemma bold_loop_step (part : jsstring) (parts : list jsstring) (offsetX y : Q) :
  bold_loop (part :: parts) offsetX y font fontBold size color
  = DrawText (run_content part) offsetX y size (run_font font fontBold part) color
    :: bold_loop parts (offsetX + run_width font fontBold size part)%Q y font fontBold size color.
Proof.
  unfold run_width, run_font, run_content, is_bold_part. cbn [bold_loop].
  destruct (startsWith part STARS && endsWith part STARS); reflexivity.
Qed.

Lemma bold_loop_nth (parts : list jsstring) :
  forall (offsetX y : Q) (i : nat) (part : jsstring),
    nth_error parts i = Some part ->
    nth_error (bold_loop parts offsetX y font fontBold size color) i
    = Some (DrawText (run_content part)
              (fold_left Qplus (map (run_width font fontBold size) (firstn i parts)) offsetX)
              y size (run_font font fontBold part) color).
Proof.
  induction parts as [|p parts IH]; intros offsetX y i part Hi.
  - destruct i; discriminate.
  - rewrite bold_loop_step. destruct i as [|i]; simpl in Hi.
    + injection Hi as ->. reflexivity.
    + simpl. apply IH. exact Hi.
Qed.

Lemma bold_loop_texts (parts : list jsstring) :
  forall offsetX y,
    map op_text (bold_loop parts offsetX y font fontBold size color)
    = map run_content parts
    /\ map op_font (bold_loop parts offsetX y font fontBold size color)
       = map (fun part => Some (run_font font fontBold part)) parts.
Proof.
  induction parts as [|p parts IH]; intros offsetX y; [split; reflexivity|].
  rewrite bold_loop_step. simpl.
  destruct (IH (offsetX + run_width font fontBold size p)%Q y) as [-> ->]. split; reflexivity.
Qed.

Lemma runs_of_spans (spans : list (jsstring * jsstring)) :
  Forall (fun bn => fst bn <> [] /\ noStar (fst bn) = true /\ noStar (snd bn) = true) spans ->
  map run_content (flat_map (fun bn => [STARS ++ fst bn ++ STARS; snd bn]) spans)
  = flat_map (fun bn => [fst bn; snd bn]) spans
  /\ map (fun part => Some (run_font font fontBold part))
       (flat_map (fun bn => [STARS ++ fst bn ++ STARS; snd bn]) spans)
     = flat_map (fun _ => [Some fontBold; Some font]) spans.
Proof.
  induction 1 as [|[b n] spans (_ & _ & Hn) _ [IH1 IH2]]; [split; reflexivity|].
  simpl in Hn. cbn [flat_map map app fst snd]. rewrite IH1, IH2.
  unfold run_font, run_content.
  destruct (span_is_bold b) as [-> ->]. rewrite (noStar_not_bold n Hn).
  split; reflexivity.
Qed.

Lemma concat_pairs (n0 : jsstring) (spans : list (jsstring * jsstring)) :
  concat (n0 :: flat_map (fun bn => [fst bn; snd bn]) spans)
  = n0 ++ concat (map (fun bn => fst bn ++ snd bn) spans).
Proof.
  simpl. f_equal. induction spans as [|[b n] spans IH]; [reflexivity|].
  simpl. rewrite IH, <- app_assoc. reflexivity.
Qed.

(** C6, as the code has it.  For every line, the line is cut at the spans
    [**b**] whose inside is non-empty and star-free, found from left to
    right: a piece in which no such span starts, the first span, and so on
    with what follows it; the pieces are determined by that.  The pieces,
    put together, are the
    line; they are drawn in order, each at the starting x plus the widths
    of the runs before it (each measured in the font it was drawn with); a
    piece that starts and ends with the marker is drawn bold without its
    first and last two characters, any other piece is drawn in the normal
    font as it is.  When the line is made of star-free texts alternating
    with such spans, the runs alternate normal and bold and their contents
    put together are the line with all markers removed. *)
Theorem drawTextWithBold_runs (text : jsstring) (x y : Q) :
  let parts := split_bold text in
  let ops := drawTextWithBold text x y font fontBold size color in
  cut_at_spans text parts /\
  (forall parts' : list jsstring, cut_at_spans text parts' -> parts' = parts) /\
  concat parts = text /\
  length ops = length parts /\
  (forall (i : nat) (part : jsstring),
      nth_error parts i = Some part ->
      nth_error ops i
      = Some (DrawText (run_content part)
                (fold_left Qplus (map (run_width font fontBold size) (firstn i parts)) x)
                y size (run_font font fontBold part) color)) /\
  (forall (n0 : jsstring) (spans : list (jsstring * jsstring)),
      well_formed_spans n0 spans -> text = spans_line n0 spans ->
      map op_text ops = n0 :: flat_map (fun bn => [fst bn; snd bn]) spans /\
      map op_font ops = Some font :: flat_map (fun _ => [Some fontBold; Some font]) spans /\
      concat (map op_text ops) = strip_markers text).
Proof.
  intros parts ops.
  destruct (bold_loop_texts parts x y) as [Htexts Hfonts].
  change (bold_loop parts x y font fontBold size color) with ops in Htexts, Hfonts.
  refine (conj _ (conj _ (conj _ (conj _ (conj _ _))))).
  - apply split_bold_cut.
  - apply cut_at_spans_unique.
  - unfold parts, split_bold. rewrite split_bold_concat. reflexivity.
  - rewrite <- (length_map op_text), Htexts, length_map. reflexivity.
  - intros i part Hi. apply bold_loop_nth. exact Hi.
  - intros n0 spans Hwf ->.
    assert (Hparts : parts = n0 :: flat_map (fun bn => [STARS ++ fst bn ++ STARS; snd bn]) spans).
    { unfold parts, split_bold. rewrite split_bold_spans by exact Hwf. reflexivity. }
    destruct Hwf as (Hn0 & Hall).
    destruct (runs_of_spans spans Hall) as [R1 R2].
    assert (T : map op_text ops = n0 :: flat_map (fun bn => [fst bn; snd bn]) spans).
    { rewrite Htexts, Hparts. cbn [map]. rewrite R1.
      unfold run_content. rewrite (noStar_not_bold n0 Hn0). reflexivity. }
    refine (conj T (conj _ _)).
    + rewrite Hfonts, Hparts. cbn [map]. rewrite R2.
      unfold run_font. rewrite (noStar_not_bold n0 Hn0). reflexivity.
    + rewrite T, concat_pairs, strip_markers_spans by (split; assumption). reflexivity.
Qed.

End Emphasis.

Lemma drawTextWithBold_runs_witness :
  let ops := drawTextWithBold (js "ab **cd** ef") 50 700 fixed_pitch fixed_pitch 11 BLACK in
  nth_error ops 1
  = Some (DrawText (js "cd")
            (fold_left Qplus (map (run_width fixed_pitch fixed_pitch 11) [js "ab "]) 50%Q)
            700 11 fixed_pitch BLACK)
  /\ map op_text ops = [js "ab "; js "cd"; js " ef"]
  /\ concat (map op_text ops) = strip_markers (js "ab **cd** ef").
Proof.
  destruct (drawTextWithBold_runs fixed_pitch fixed_pitch 11 BLACK (js "ab **cd** ef") 50 700)
    as (_ & _ & _ & _ & Hnth & Hspans).
  split.
  - apply (Hnth 1 (js "**cd**")). reflexivity.
  - destruct (Hspans (js "ab ") [(js "cd", js " ef")]) as (T & _ & S).
    + split; [reflexivity|]. repeat constructor. discriminate.
    + reflexivity.
    + split; [exact T|exact S].
Defined.

(** C6, as stated, fails on a marker that closes no span: the marker is
    drawn with the text around it. *)
Lemma drawTextWithBold_draws_unpaired_marker :
  let ops := drawTextWithBold (js "a ** b") 50 700 fixed_pitch fixed_pitch 11 BLACK in
  concat (map op_text ops) = js "a ** b"
  /\ strip_markers (js "a ** b") = js "a  b"
  /\ concat (map op_text ops) <> strip_markers (js "a ** b").
Proof. repeat split. discriminate. Qed.

(** Four stars in a row are no span (the inside would be empty), and a
    span with a star inside is none either: the line is one piece.  Two
    spans in a row have an empty piece between them. *)
Example split_bold_empty_inside :
  split_bold (js "a****b") = [js "a****b"]
  /\ split_bold (js "**a*b**") = [js "**a*b**"]
  /\ split_bold (js "**a****b**") = [js ""; js "**a**"; js ""; js "**b**"; js ""].
Proof. repeat split. Qed.

(** The same on a line that the wrapper has cut inside a span, and on a
    line of three stars. *)
Example drawTextWithBold_cut_span :
  map op_text (drawTextWithBold (js "**very") 50 700 fixed_pitch fixed_pitch 11 BLACK)
  = [js "**very"]
  /\ map op_text (drawTextWithBold (js "***") 50 700 fixed_pitch fixed_pitch 11 BLACK)
     = [js ""].
Proof. split; reflexivity. Qed.

(** ** Page Flow Engine *)

Lemma Qltb_true (a b : Q) : Qltb a b = true <-> (a < b)%Q.
Proof.
  unfold Qltb. rewrite negb_true_iff. split.
  - intros H. apply Qnot_le_lt. intros Hle. apply Qle_bool_iff in Hle. congruence.
  - intros H. destruct (Qle_bool b a) eqn:E; [|reflexivity].
    apply Qle_bool_iff in E. exfalso. exact (Qlt_not_le _ _ H E).
Qed.

Lemma Qltb_false (a b : Q) : Qltb a b = false <-> (b <= a)%Q.
Proof.
  unfold Qltb. rewrite negb_false_iff. apply Qle_bool_iff.
Qed.

Lemma line_advance_nonneg (k : LineKind) : (0 <= line_advance k)%Q.
Proof. destruct k; vm_compute; discriminate. Qed.

Lemma body_drawn_height_app (l l' : list Placed) :
  (body_drawn_height (l ++ l') == body_drawn_height l + body_drawn_height l')%Q.
Proof.
  induction l as [|p l IH]; simpl; [lra|]. lra.
Qed.

Lemma steps_trans (E : Env) (allowed : LineKind -> bool) (st1 st2 st3 : Flow) :
  steps E allowed st1 st2 -> steps E allowed st2 st3 -> steps E allowed st1 st3.
Proof.
  intros H12 H23. induction H23 as [|? ? ? _ IH Hs]; [exact H12|].
  exact (steps_more _ _ _ _ _ (IH H12) Hs).
Qed.

Lemma steps_one (E : Env) (allowed : LineKind -> bool) (st st' : Flow) :
  step E allowed st st' -> steps E allowed st st'.
Proof. intros H. exact (steps_more _ _ _ _ _ (steps_refl _ _ _) H). Qed.

Lemma steps_weaken (E : Env) (allowed allowed' : LineKind -> bool) (st st' : Flow) :
  (forall k, allowed k = true -> allowed' k = true) ->
  steps E allowed st st' -> steps E allowed' st st'.
Proof.
  intros Hsub H. induction H as [|? ? ? _ IH Hs]; [constructor|].
  apply steps_more with (st2 := st2); [exact IH|].
  destruct Hs; constructor; auto.
Qed.

Lemma flow_lines_steps (E : Env) (allowed : LineKind -> bool) (k : LineKind)
    (lines : list jsstring) :
  allowed k = true ->
  forall st, steps E allowed st (flow_lines E k lines st).
Proof.
  intros Hk. induction lines as [|l lines IH]; intros st; simpl; [constructor|].
  apply steps_trans with (st2 := flow_line E k l st); [|apply IH].
  apply steps_one. constructor. exact Hk.
Qed.

Ltac chain_steps :=
  repeat first
    [ apply steps_refl
    | eapply steps_trans; [|apply flow_lines_steps; reflexivity]
    | eapply steps_trans; [|apply steps_one; apply step_advance; vm_compute; discriminate]
    | eapply steps_trans; [|apply steps_one; apply step_check]
    | eapply steps_trans; [|apply steps_one; apply step_skills]
    | eapply steps_trans; [|apply steps_one; apply step_rule] ].

Lemma job_entry_steps (E : Env) (line : jsstring) (st : Flow) :
  steps E body_kind st (job_entry E line st).
Proof.
  unfold job_entry.
  destruct (regex_match JOB_MATCH line) as [[|t [|c [|p [|? ?]]]]|]; try constructor.
  chain_steps.
Qed.

Lemma classify_and_draw_steps (E : Env) (line : jsstring) (st : Flow) :
  steps E body_kind st (classify_and_draw E line st).
Proof.
  unfold classify_and_draw.
  destruct (endsWith line [COLON]).
  - destruct (str_eqb (toLowerCase E line) (js "skills:")); chain_steps.
  - destruct (regex_test JOB_TEST line); [apply job_entry_steps|].
    destruct (startsWith line [MIDDLE_DOT]); chain_steps.
Qed.

Lemma body_line_steps (E : Env) (st : Flow) (raw : jsstring) :
  steps E body_kind st (body_line E st raw).
Proof.
  unfold body_line. destruct (negb (truthy (trim raw))).
  - chain_steps.
  - eapply steps_trans; [apply classify_and_draw_steps|]. chain_steps.
Qed.

Lemma body_loop_steps (E : Env) (bodyLines : list jsstring) :
  forall st, steps E body_kind st (body_loop E bodyLines st).
Proof.
  unfold body_loop. induction bodyLines as [|l ls IH]; intros st; simpl; [constructor|].
  eapply steps_trans; [apply body_line_steps|apply IH].
Qed.

Lemma header_block_steps (E : Env) (p : Parsed) :
  steps E not_skills_kind initial_flow (header_block E p).
Proof.
  unfold header_block. fold initial_flow.
  destruct (name p) as [[|c n]|];
    destruct (0 <? length (filter_Boolean [location p; phone p; email p; linkedin p]));
    chain_steps.
Qed.

Lemma after_body_steps (E : Env) (resumeText : jsstring) :
  steps E not_skills_kind initial_flow (after_body E resumeText).
Proof.
  unfold after_body. eapply steps_trans; [apply header_block_steps|].
  apply steps_weaken with (allowed := body_kind); [intros k; destruct k; auto|].
  apply body_loop_steps.
Qed.

Lemma trailing_skills_steps (E : Env) (st : Flow) :
  steps E (fun _ => true) st (trailing_skills E st).
Proof.
  unfold trailing_skills.
  destruct (inSkillsSection st && (0 <? length (skills st))); chain_steps.
Qed.

Lemma generateResumePdf_steps (E : Env) (resumeText : jsstring) :
  steps E (fun _ => true) initial_flow (generateResumePdf E resumeText).
Proof.
  unfold generateResumePdf. eapply steps_trans; [|apply trailing_skills_steps].
  apply steps_weaken with (allowed := not_skills_kind); [auto|].
  apply after_body_steps.
Qed.

(** *** The skills buffer *)

Lemma step_keeps_skills (E : Env) (allowed : LineKind -> bool) (st st' : Flow) :
  step E allowed st st' -> skills st' = skills st.
Proof.
  intros H. destruct H; try reflexivity.
  - unfold flow_line. destruct (line_checked k); [|reflexivity].
    unfold page_check. match goal with |- context [Qltb ?a ?b] => destruct (Qltb a b) end;
      reflexivity.
  - unfold page_check. destruct (Qltb (y st) MARGIN_BOTTOM); reflexivity.
Qed.

Lemma steps_keep_skills (E : Env) (allowed : LineKind -> bool) (st st' : Flow) :
  steps E allowed st st' -> skills st' = skills st.
Proof.
  induction 1 as [|? ? ? _ IH Hs]; [reflexivity|].
  rewrite (step_keeps_skills _ _ _ _ Hs). exact IH.
Qed.

Lemma placed_page_check (st : Flow) : placed (page_check st) = placed st.
Proof. unfold page_check. destruct (Qltb (y st) MARGIN_BOTTOM); reflexivity. Qed.

Lemma placed_flow_line (E : Env) (k : LineKind) (text : jsstring) (st : Flow) :
  placed (flow_line E k text st)
  = placed st ++ [mkPlaced (current_page st) (Some k) (y st) (draw_calls E k text (y st))].
Proof.
  unfold flow_line. destruct (line_checked k); [rewrite placed_page_check|]; reflexivity.
Qed.

Lemma step_kinds_allowed (E : Env) (allowed : LineKind -> bool) (st st' : Flow) :
  step E allowed st st' ->
  kinds_allowed allowed (placed st) -> kinds_allowed allowed (placed st').
Proof.
  unfold kinds_allowed. intros H Hlog. destruct H; simpl; auto.
  - rewrite placed_flow_line. apply Forall_app. split; [exact Hlog|].
    constructor; [|constructor]. simpl. intros k' Hk'. injection Hk' as <-. assumption.
  - rewrite placed_page_check. exact Hlog.
  - apply Forall_app. split; [exact Hlog|].
    constructor; [|constructor]. simpl. discriminate.
Qed.

Lemma steps_kinds_allowed (E : Env) (allowed : LineKind -> bool) (st st' : Flow) :
  steps E allowed st st' ->
  kinds_allowed allowed (placed st) -> kinds_allowed allowed (placed st').
Proof.
  induction 1 as [|? ? ? _ IH Hs]; [auto|].
  intros H. exact (step_kinds_allowed _ _ _ _ Hs (IH H)).
Qed.

(** C9. The skills buffer is empty at every turn of the loop over the body
    and when the loop has ended, so the branch after the loop is not taken:
    the document is the one the loop left, and nothing in it was drawn by
    that branch. *)
Theorem skills_buffer_stays_empty (E : Env) (resumeText : jsstring) :
  let p := parseResume resumeText in
  (forall n : nat,
      skills (body_loop E (firstn n (split LF (body p))) (header_block E p)) = []) /\
  skills (after_body E resumeText) = [] /\
  inSkillsSection (after_body E resumeText)
    && Nat.ltb 0 (length (skills (after_body E resumeText))) = false /\
  generateResumePdf E resumeText = after_body E resumeText /\
  Forall (fun q => pl_kind q <> Some KSkills) (placed (generateResumePdf E resumeText)).
Proof.
  intros p.
  assert (Hhead : skills (header_block E p) = []).
  { exact (steps_keep_skills _ _ _ _ (header_block_steps E p)). }
  assert (Hafter : skills (after_body E resumeText) = []).
  { exact (steps_keep_skills _ _ _ _ (after_body_steps E resumeText)). }
  assert (Hsame : generateResumePdf E resumeText = after_body E resumeText).
  { unfold generateResumePdf, trailing_skills. rewrite Hafter.
    simpl. rewrite andb_false_r. reflexivity. }
  refine (conj _ (conj Hafter (conj _ (conj Hsame _)))).
  - intros n. rewrite (steps_keep_skills _ _ _ _ (body_loop_steps E _ _)). exact Hhead.
  - rewrite Hafter. apply andb_false_r.
  - rewrite Hsame.
    assert (Hk : kinds_allowed not_skills_kind (placed (after_body E resumeText))).
    { apply (steps_kinds_allowed _ _ _ _ (after_body_steps E resumeText)). constructor. }
    unfold kinds_allowed in Hk. rewrite Forall_forall in Hk |- *.
    intros q Hq Hkind. specialize (Hk q Hq KSkills Hkind). discriminate.
Qed.

(** *** Pagination *)

Lemma body_drawn_height_snoc (l : list Placed) (p : Placed) :
  (body_drawn_height (l ++ [p]) == body_drawn_height l + drawn_height p)%Q.
Proof. rewrite body_drawn_height_app. simpl. lra. Qed.

Lemma page_check_bound (st : Flow) :
  1 <= length (pages st) ->
  Forall (fun sz => sz = (PAGE_WIDTH, PAGE_HEIGHT)) (pages st) ->
  (length (pages st) = 1 ->
   (y st + body_drawn_height (placed st) <= PAGE_HEIGHT - MARGIN_TOP)%Q) ->
  one_page_bound (page_check st).
Proof.
  intros Hlen Hsz Hy. unfold page_check.
  destruct (Qltb (y st) MARGIN_BOTTOM) eqn:Hc; unfold one_page_bound; simpl.
  - rewrite length_app. simpl. repeat split; try lia.
    apply Forall_app. split; [exact Hsz|repeat constructor].
  - apply Qltb_false in Hc. repeat split; auto; specialize (Hy H); lra.
Qed.

Lemma step_one_page_bound (E : Env) (allowed : LineKind -> bool) (st st' : Flow) :
  step E allowed st st' -> one_page_bound st -> one_page_bound st'.
Proof.
  intros H (Hlen & Hsz & Hb). destruct H.
  - unfold one_page_bound. simpl. repeat split; auto;
      destruct (Hb H0) as [B1 B2]; lra.
  - unfold flow_line. pose proof (line_advance_nonneg k) as Hadv.
    destruct (line_checked k) eqn:Hck.
    + apply page_check_bound; simpl; auto.
      intros H1. destruct (Hb H1) as [B1 _].
      rewrite body_drawn_height_snoc. unfold drawn_height. simpl. rewrite Hck. lra.
    + unfold one_page_bound. simpl. repeat split; auto;
        destruct (Hb H0) as [B1 B2];
        rewrite body_drawn_height_snoc; unfold drawn_height; simpl; rewrite Hck; lra.
  - apply page_check_bound; auto. intros H1. apply (Hb H1).
  - unfold one_page_bound. simpl. repeat split; auto;
      destruct (Hb H) as [B1 B2];
      rewrite body_drawn_height_snoc; unfold drawn_height; simpl; lra.
  - unfold one_page_bound. simpl. auto.
Qed.

Lemma steps_one_page_bound (E : Env) (allowed : LineKind -> bool) (st st' : Flow) :
  steps E allowed st st' -> one_page_bound st -> one_page_bound st'.
Proof.
  induction 1 as [|? ? ? _ IH Hs]; [auto|].
  intros H. exact (step_one_page_bound _ _ _ _ Hs (IH H)).
Qed.

Lemma initial_one_page_bound : one_page_bound initial_flow.
Proof.
  unfold one_page_bound, initial_flow. simpl.
  refine (conj (le_n 1) (conj _ (fun _ => conj _ _))).
  - repeat constructor.
  - unfold PAGE_HEIGHT, MARGIN_TOP. lra.
  - unfold PAGE_HEIGHT, MARGIN_TOP, MARGIN_BOTTOM. lra.
Qed.

Lemma y_page_check (st : Flow) : (MARGIN_BOTTOM <= y (page_check st))%Q.
Proof.
  unfold page_check. destruct (Qltb (y st) MARGIN_BOTTOM) eqn:Hc; simpl.
  - unfold MARGIN_BOTTOM, PAGE_HEIGHT, MARGIN_TOP. lra.
  - apply Qltb_false. exact Hc.
Qed.

Lemma drawn_since_gap (h : Q) (st0 : Flow) : drawn_since (y st0 - h) st0 (advance h st0).
Proof.
  exists []. simpl. rewrite app_nil_r. repeat split; auto; try lra. congruence.
Qed.

Lemma drawn_since_flow_line (E : Env) (k : LineKind) (text : jsstring) (b : Q)
    (st0 st : Flow) :
  line_checked k = true ->
  drawn_since b st0 st -> drawn_since b st0 (flow_line E k text st).
Proof.
  intros Hk (new & Hp & Hb & He & Hn).
  exists (new ++ [mkPlaced (current_page st) (Some k) (y st) (draw_calls E k text (y st))]).
  rewrite placed_flow_line, Hp, app_assoc.
  split; [reflexivity|]. split; [|split].
  - destruct new as [|q rest]; simpl.
    + split; [apply He; reflexivity|constructor].
    + destruct Hb as [Hq Hrest]. split; [exact Hq|].
      apply Forall_app. split; [exact Hrest|].
      constructor; [|constructor]. simpl. apply Hn. discriminate.
  - intros Habs. destruct new; discriminate.
  - intros _. unfold flow_line. rewrite Hk. apply y_page_check.
Qed.

Lemma drawn_since_flow_lines (E : Env) (k : LineKind) (lines : list jsstring) (b : Q)
    (st0 : Flow) :
  line_checked k = true ->
  forall st, drawn_since b st0 st -> drawn_since b st0 (flow_lines E k lines st).
Proof.
  intros Hk. induction lines as [|l lines IH]; intros st H; simpl; [exact H|].
  apply IH. apply drawn_since_flow_line; assumption.
Qed.

Lemma drawn_since_bounded (b b' : Q) (st0 st : Flow) :
  (b' <= b)%Q -> drawn_since b st0 st -> drawn_bounded b' st0 st.
Proof.
  intros Hle (new & Hp & Hb & _). exists new. split; [exact Hp|].
  destruct new as [|q rest]; simpl in *; [exact I|].
  destruct Hb as [Hq Hrest]. split; [lra|exact Hrest].
Qed.

Lemma classify_and_draw_bounded (E : Env) (line : jsstring) (st : Flow) :
  drawn_bounded (y st - 12) st (classify_and_draw E line st).
Proof.
  unfold classify_and_draw.
  destruct (endsWith line [COLON]).
  - assert (H : drawn_bounded (y st - 12) st
                  (flow_lines E KSection
                     (wrapText line (helveticaBold E) SECTION_HEADER_SIZE CONTENT_WIDTH)
                     (advance 12 st))).
    { apply drawn_since_bounded with (b := (y st - 12)%Q); [lra|].
      apply drawn_since_flow_lines; [reflexivity|apply drawn_since_gap]. }
    destruct (str_eqb (toLowerCase E line) (js "skills:")); exact H.
  - destruct (regex_test JOB_TEST line).
    + unfold job_entry.
      destruct (regex_match JOB_MATCH line) as [[|t [|c [|p [|? ?]]]]|];
        try (exists []; rewrite app_nil_r; split; [reflexivity|exact I]).
      match goal with |- drawn_bounded _ _ (advance 4 ?s) =>
        assert (H : drawn_since (y st - 8) st s) end.
      { repeat (apply drawn_since_flow_lines; [reflexivity|]). apply drawn_since_gap. }
      apply drawn_since_bounded with (b' := (y st - 12)%Q) in H; [|lra].
      exact H.
    + assert (H0 : drawn_since (y st) st st).
      { exists []. rewrite app_nil_r. repeat split; auto; try lra. congruence. }
      destruct (startsWith line [MIDDLE_DOT]);
        (apply drawn_since_bounded with (b := y st); [lra|]);
        apply drawn_since_flow_lines; auto.
Qed.

Lemma body_line_bounded (E : Env) (st : Flow) (raw : jsstring) :
  truthy (trim raw) = true ->
  (MARGIN_BOTTOM <= y (body_line E st raw))%Q /\
  exists new, placed (body_line E st raw) = placed st ++ new /\ bounded_from (y st - 12) new.
Proof.
  intros Hraw. unfold body_line. rewrite Hraw. simpl negb. cbv iota.
  split; [apply y_page_check|].
  rewrite placed_page_check. apply classify_and_draw_bounded.
Qed.

Lemma flow_line_checked (E : Env) (k : LineKind) (text : jsstring) (st : Flow) :
  line_checked k = true ->
  (MARGIN_BOTTOM <= y (flow_line E k text st))%Q /\
  ((y st - line_advance k < MARGIN_BOTTOM)%Q ->
   pages (flow_line E k text st) = pages st ++ [(PAGE_WIDTH, PAGE_HEIGHT)]
   /\ y (flow_line E k text st) = (PAGE_HEIGHT - MARGIN_TOP)%Q).
Proof.
  intros Hk. unfold flow_line. rewrite Hk. split; [apply y_page_check|].
  intros Hlow. unfold page_check. cbn [y advance place].
  apply Qltb_true in Hlow. rewrite Hlow. split; reflexivity.
Qed.

(** C3, as the code has it.  Every page has the size of the first one, and
    when the lines drawn in the body are together higher than the space
    between the margins of one page, the document has more than one page.
    After each line drawn in the body the cursor goes down by the height
    of the line and is then tested: below the bottom margin, a page of the
    same size is added and the cursor goes back to the top margin; so the
    cursor is at the bottom margin or above after each such line.  A turn
    of the loop on a non-blank line ends with the cursor at the bottom
    margin or above, and of the lines it draws all but the first are at the
    bottom margin or above; the first is at most 12 below the cursor the
    turn started with (the gap before a section header; 8 before a job
    title). *)
Theorem page_flow_paginates (E : Env) :
  (forall resumeText : jsstring,
      let doc := generateResumePdf E resumeText in
      Forall (fun sz => sz = (PAGE_WIDTH, PAGE_HEIGHT)) (pages doc) /\
      ((PAGE_HEIGHT - MARGIN_TOP - MARGIN_BOTTOM < body_drawn_height (placed doc))%Q ->
       1 < length (pages doc))) /\
  (forall (k : LineKind) (text : jsstring) (st : Flow),
      line_checked k = true ->
      let st' := flow_line E k text st in
      (MARGIN_BOTTOM <= y st')%Q /\
      ((y st - line_advance k < MARGIN_BOTTOM)%Q ->
       pages st' = pages st ++ [(PAGE_WIDTH, PAGE_HEIGHT)]
       /\ y st' = (PAGE_HEIGHT - MARGIN_TOP)%Q)) /\
  (forall (st : Flow) (raw : jsstring),
      truthy (trim raw) = true ->
      let st' := body_line E st raw in
      (MARGIN_BOTTOM <= y st')%Q /\
      exists new, placed st' = placed st ++ new /\ bounded_from (y st - 12) new).
Proof.
  refine (conj _ (conj _ _)).
  - intros resumeText doc.
    destruct (steps_one_page_bound _ _ _ _ (generateResumePdf_steps E resumeText)
                initial_one_page_bound) as (Hlen & Hsz & Hb).
    fold doc in Hlen, Hsz, Hb. split; [exact Hsz|].
    intros Hhigh.
    destruct (Nat.eq_dec (length (pages doc)) 1) as [H1|H1]; [|lia].
    destruct (Hb H1) as [_ B2]. exfalso. exact (Qlt_not_le _ _ Hhigh B2).
  - intros k text st Hk. apply flow_line_checked. exact Hk.
  - intros st raw Hraw. apply body_line_bounded. exact Hraw.
Qed.

Lemma page_flow_paginates_witness :
  1 < length (pages (generateResumePdf example_env (resume_with_lines 50)))
  /\ (MARGIN_BOTTOM <= y (flow_line example_env KBody (js "x") initial_flow))%Q
  /\ (MARGIN_BOTTOM <= y (body_line example_env initial_flow (js "Summary:")))%Q.
Proof.
  destruct (page_flow_paginates example_env) as (H1 & H2 & H3).
  refine (conj _ (conj _ _)).
  - apply (H1 (resume_with_lines 50)). vm_compute. reflexivity.
  - apply (H2 KBody (js "x") initial_flow). reflexivity.
  - apply (H3 initial_flow (js "Summary:")). reflexivity.
Defined.

Lemma low_section_header_found (h : Q) (log : list Placed) :
  existsb (low_section_header h) log = true ->
  exists p : Placed,
    In p log /\ pl_kind p = Some KSection /\ pl_page p = 0
    /\ (pl_y p == h)%Q /\ (pl_y p < MARGIN_BOTTOM)%Q.
Proof.
  intros H. apply existsb_exists in H. destruct H as (p & Hin & Hp).
  exists p. split; [exact Hin|]. clear Hin. unfold low_section_header in Hp.
  destruct (pl_kind p) as [[]|]; try discriminate.
  apply andb_true_iff in Hp. destruct Hp as [Hp Hlow].
  apply andb_true_iff in Hp. destruct Hp as [Hpage Hy].
  refine (conj eq_refl (conj _ (conj _ _))).
  - apply Nat.eqb_eq. exact Hpage.
  - apply Qeq_bool_iff. exact Hy.
  - apply Qltb_true. exact Hlow.
Qed.

(** C3, as stated, fails: the gap before a section header is taken from a
    cursor that is only known to be at the margin or above, and the header
    is drawn without a further test.  Here the cursor is at 53.1 after 43
    body lines, and the header is drawn at 41.1, below the margin of 50, on
    the first page. *)
Lemma section_header_drawn_below_margin :
  exists p : Placed,
    In p (placed (generateResumePdf example_env (resume_with_lines 43)))
    /\ pl_kind p = Some KSection
    /\ pl_page p = 0
    /\ (pl_y p == 41.1)%Q
    /\ (pl_y p < MARGIN_BOTTOM)%Q.
Proof.
  apply low_section_header_found. vm_compute. reflexivity.
Qed.

(** A blank line leaves its turn of the loop before the test: after a run
    of blank lines the next line is drawn wherever the cursor is, here
    below the page. *)
Example blank_lines_are_not_tested :
  let text := resume_with_lines 1 ++ concat (repeat [LF] 130) ++ js "last" in
  let doc := generateResumePdf example_env text in
  existsb (fun p => Nat.eqb (pl_page p) 0 && Qltb (pl_y p) 0) (placed doc) = true.
Proof. vm_compute. reflexivity. Qed.

(** *** Skills category lines *)

Lemma flow_lines_texts (E : Env) (k : LineKind) (lines : list jsstring) :
  k <> KBody ->
  forall st, exists new,
    placed (flow_lines E k lines st) = placed st ++ new
    /\ Forall (fun p => pl_kind p = Some k) new
    /\ drawn_texts new = lines.
Proof.
  intros Hk. induction lines as [|l lines IH]; intros st; simpl.
  - exists []. rewrite app_nil_r. repeat split. constructor.
  - destruct (IH (flow_line E k l st)) as (new & Hp & Hkinds & Ht).
    rewrite placed_flow_line in Hp.
    exists (mkPlaced (current_page st) (Some k) (y st) (draw_calls E k l (y st)) :: new).
    rewrite Hp, <- app_assoc. split; [reflexivity|]. split.
    + constructor; [reflexivity|exact Hkinds].
    + unfold drawn_texts in *. simpl. rewrite Ht.
      destruct k; try reflexivity. congruence.
Qed.

(** C5 on the code.  The line "· Frontend" is drawn by the skills-category
    branch, as one line or, with a narrow face, as two; the glyph is drawn
    with it in both cases: the name drawn is not "Frontend". *)
Theorem category_line_drawn_with_glyph (E : Env) (st : Flow) :
  let line := [MIDDLE_DOT] ++ js " Frontend" in
  exists new : list Placed,
    placed (body_line E st line) = placed st ++ new
    /\ Forall (fun p => pl_kind p = Some KCategory) new
    /\ (drawn_texts new = [[MIDDLE_DOT] ++ js " Frontend"]
        \/ drawn_texts new = [[MIDDLE_DOT]; js "Frontend"])
    /\ drawn_texts new <> [js "Frontend"].
Proof.
  intros line.
  assert (Hrun : exists lines,
             body_line E st line = page_check (flow_lines E KCategory lines st)
             /\ (lines = [[MIDDLE_DOT] ++ js " Frontend"]
                 \/ lines = [[MIDDLE_DOT]; js "Frontend"])).
  { unfold body_line. change (trim line) with line. cbn [truthy line app negb].
    unfold classify_and_draw.
    change (endsWith (MIDDLE_DOT :: js " Frontend") [COLON]) with false.
    replace (regex_test JOB_TEST (MIDDLE_DOT :: js " Frontend")) with false
      by (vm_compute; reflexivity).
    change (startsWith (MIDDLE_DOT :: js " Frontend") [MIDDLE_DOT]) with true.
    cbv iota. change (trim (MIDDLE_DOT :: js " Frontend")) with line.
    unfold wrapText. change (split SPACE line) with [[MIDDLE_DOT]; js "Frontend"].
    cbn [wrap_loop truthy andb app].
    rewrite andb_false_r.
    match goal with |- context [Qgtb ?a ?b && true] => destruct (Qgtb a b) end;
      cbn [andb app]; eexists; split; try reflexivity; auto. }
  destruct Hrun as (lines & -> & Hlines).
  rewrite placed_page_check.
  destruct (flow_lines_texts E KCategory lines ltac:(discriminate) st) as (new & Hp & Hk & Ht).
  exists new. rewrite Ht.
  refine (conj Hp (conj Hk (conj Hlines _))).
  destruct Hlines as [-> | ->]; discriminate.
Qed.

Example category_line_example :
  drawn_texts (placed (body_line example_env initial_flow ([MIDDLE_DOT] ++ js " Frontend")))
  = [[MIDDLE_DOT] ++ js " Frontend"].
Proof. reflexivity. Qed.

(** The other kinds of line, on the examples of the specification. *)
Example job_entry_example :
  drawn_texts (placed (body_line example_env initial_flow
                         (js "Senior Engineer at Acme Corp: 01/2020 - 02/2022")))
  = [js "Senior Engineer"; js "Acme Corp"; js "Jan 2020 " ++ [EN_DASH] ++ js " Feb 2022"].
Proof. reflexivity. Qed.

Example skills_header_example :
  let st := body_line example_env initial_flow (js "Skills:") in
  inSkillsSection st = true /\ skills st = [] /\ drawn_texts (placed st) = [js "Skills:"].
Proof. repeat split. Qed.

Example blank_line_example :
  let st := body_line example_env initial_flow (js "  ") in
  placed st = [] /\ (y st == 770 - 6)%Q.
Proof. split; reflexivity. Qed.

Example plain_line_example :
  drawn_texts (placed (body_line example_env initial_flow (js "Led **two** teams")))
  = [js "Led "; js "two"; js " teams"].
Proof. reflexivity. Qed.

(** ** HTTP endpoint *)

(** What a status 200 tells: the only branch that answers 200. *)
Lemma POST_status_200 (D : Deps) (formData : FormData) :
  status (fst (POST D (Returned formData))) = 200 ->
  exists (co ro content : jsstring),
    company formData = Some (FormString co) /\ role formData = Some (FormString ro)
    /\ field_truthy (job_description formData) = true
    /\ truthy co = true /\ truthy ro = true
    /\ opt_truthy (OPENAI_API_KEY D) = true
    /\ chat_create D (or_else (OPENAI_VERSION D) (js "gpt-3.5-turbo"))
         (buildPrompt D (baseResume D) (field_text (job_description formData)))
       = Returned (Some content)
    /\ truthy content = true /\ pdf_throws D content = None
    /\ fst (POST D (Returned formData))
       = mkResponse 200
           [(js "Content-Type", js "application/pdf");
            (js "Content-Disposition",
             js "attachment; filename=" ++ [QUOTE]
             ++ (js "Louis_Bailey_" ++ sanitize co ++ js "_" ++ sanitize ro)
             ++ js ".pdf" ++ [QUOTE])]
           (PdfBody (generateResumePdf (render_env D) content)).
Proof.
  unfold POST.
  destruct (field_truthy (job_description formData)) eqn:Hjd; [|discriminate].
  destruct (field_truthy (company formData)) eqn:Hc; [|discriminate].
  destruct (field_truthy (role formData)) eqn:Hr; [|discriminate].
  cbn [negb orb].
  destruct (opt_truthy (OPENAI_API_KEY D)) eqn:Hkey; [|discriminate].
  cbn [negb].
  destruct (chat_create D _ _) as [content|e] eqn:Hchat; [|discriminate].
  destruct (truthy (or_else content [])) eqn:Ht; [|discriminate].
  cbn [negb].
  destruct (pdf_throws D (or_else content [])) eqn:Hpdf; [discriminate|].
  destruct (company formData) as [[co|]|] eqn:Eco; try discriminate.
  destruct (role formData) as [[ro|]|] eqn:Ero; try discriminate.
  cbn [replace_non_word fst]. intros _.
  assert (Hcontent : content = Some (or_else content [])).
  { destruct content as [[|c t]|]; try discriminate Ht; reflexivity. }
  exists co, ro, (or_else content []).
  rewrite <- Hcontent.
  refine (conj eq_refl (conj eq_refl (conj eq_refl (conj Hc (conj Hr (conj eq_refl
            (conj eq_refl (conj Ht (conj Hpdf eq_refl))))))))).
Qed.

(** C7. A request in which any of [job_description], [company], [role] is
    missing is answered with status 400 and the JSON body
    [{error: Missing required fields: job_description, company, role}];
    no call to the model and no PDF generation is made. *)
Theorem POST_missing_field_is_400 (D : Deps) (formData : FormData) :
  missing (job_description formData) \/ missing (company formData) \/ missing (role formData) ->
  POST D (Returned formData)
  = (mkResponse 400 [(js "Content-Type", js "application/json")] (TextBody MISSING_FIELDS_JSON),
     []).
Proof.
  unfold missing, POST. intros H.
  assert (Hcond : negb (field_truthy (job_description formData))
                  || negb (field_truthy (company formData))
                  || negb (field_truthy (role formData)) = true).
  { destruct H as [-> | [-> | ->]]; simpl; rewrite ?orb_true_r; reflexivity. }
  rewrite Hcond. reflexivity.
Qed.

Lemma POST_missing_field_is_400_witness :
  POST example_deps
    (Returned (mkFormData (Some (FormString (js "Build APIs")))
                 (Some (FormString (js "Acme Inc."))) None))
  = (mkResponse 400 [(js "Content-Type", js "application/json")] (TextBody MISSING_FIELDS_JSON),
     []).
Proof.
  apply (POST_missing_field_is_400 example_deps
           (mkFormData (Some (FormString (js "Build APIs")))
              (Some (FormString (js "Acme Inc."))) None)).
  right. right. reflexivity.
Defined.

Lemma sanitize_word_chars (s : jsstring) : forallb isWordChar (sanitize s) = true.
Proof.
  induction s as [|c s IH]; simpl; [reflexivity|].
  rewrite IH. destruct (isWordChar c) eqn:E; [rewrite E|]; reflexivity.
Qed.

Lemma sanitize_nth (s : jsstring) (i : nat) (c : char) :
  nth_error s i = Some c ->
  nth_error (sanitize s) i = Some (if isWordChar c then c else UNDERSCORE).
Proof. intros H. unfold sanitize. rewrite nth_error_map, H. reflexivity. Qed.

(** C8, as the code has it.  A request with a company and a role is
    successful (status 200) exactly when the three fields are not empty,
    the key is configured, the completion is not empty and the PDF library
    throws nothing on it.  A successful request is answered with content type
    [application/pdf] and the file name [Louis_Bailey_<company>_<role>.pdf],
    where in company and role every character outside [a-zA-Z0-9_] is
    replaced by [_] and the three parts are joined by single underscores.
    For "Acme Inc." and "Backend Eng." the file name is
    [Louis_Bailey_Acme_Inc__Backend_Eng_.pdf]: the underscore that replaces
    the final dot of the company is followed by the joining one. *)
Theorem POST_success_file_name (D : Deps) (jobDescription : option FormValue)
    (co ro : jsstring) :
  let resp := fst (POST D (Returned (mkFormData jobDescription (Some (FormString co))
                                       (Some (FormString ro))))) in
  (status resp = 200 <->
   field_truthy jobDescription = true /\ truthy co = true /\ truthy ro = true
   /\ opt_truthy (OPENAI_API_KEY D) = true
   /\ exists content,
        chat_create D (or_else (OPENAI_VERSION D) (js "gpt-3.5-turbo"))
          (buildPrompt D (baseResume D) (field_text jobDescription)) = Returned (Some content)
        /\ truthy content = true /\ pdf_throws D content = None) /\
  (status resp = 200 ->
   header_value (js "Content-Type") (headers resp) = Some (js "application/pdf") /\
   header_value (js "Content-Disposition") (headers resp)
   = Some (CONTENT_DISPOSITION
             (js "Louis_Bailey_" ++ sanitize co ++ js "_" ++ sanitize ro ++ js ".pdf")) /\
   forallb isWordChar (sanitize co) = true /\
   forallb isWordChar (sanitize ro) = true /\
   (forall (s : jsstring) (i : nat) (c : char),
       nth_error s i = Some c ->
       nth_error (sanitize s) i = Some (if isWordChar c then c else UNDERSCORE)) /\
   (co = js "Acme Inc." -> ro = js "Backend Eng." ->
    header_value (js "Content-Disposition") (headers resp)
    = Some (CONTENT_DISPOSITION (js "Louis_Bailey_Acme_Inc__Backend_Eng_.pdf")))).
Proof.
  intros resp.
  assert (Hfrom : status resp = 200 ->
            (field_truthy jobDescription = true /\ truthy co = true /\ truthy ro = true
             /\ opt_truthy (OPENAI_API_KEY D) = true
             /\ exists content,
                  chat_create D (or_else (OPENAI_VERSION D) (js "gpt-3.5-turbo"))
                    (buildPrompt D (baseResume D) (field_text jobDescription))
                  = Returned (Some content)
                  /\ truthy content = true /\ pdf_throws D content = None)
            /\ header_value (js "Content-Type") (headers resp) = Some (js "application/pdf")
            /\ header_value (js "Content-Disposition") (headers resp)
               = Some (CONTENT_DISPOSITION
                         (js "Louis_Bailey_" ++ sanitize co ++ js "_"
                          ++ sanitize ro ++ js ".pdf"))).
  { intros H200.
    destruct (POST_status_200 D _ H200)
      as (co' & ro' & content & Hco & Hro & Hjd & Hc & Hr & Hkey & Hchat & Hcontent & Hpdf
          & Hresp).
    cbn [company role job_description] in *.
    injection Hco as <-. injection Hro as <-.
    fold resp in Hresp.
    refine (conj (conj Hjd (conj Hc (conj Hr (conj Hkey _)))) (conj _ _)).
    - exists content. auto.
    - rewrite Hresp. reflexivity.
    - rewrite Hresp. unfold CONTENT_DISPOSITION. simpl header_value.
      rewrite <- !app_assoc. reflexivity. }
  split.
  - split; [intros H; exact (proj1 (Hfrom H))|].
    intros (Hjd & Hc & Hr & Hkey & content & Hchat & Hcontent & Hpdf).
    unfold resp, POST. cbn [job_description company role field_truthy].
    rewrite Hjd, Hc, Hr, Hkey. cbn [negb orb].
    assert (Ect : or_else (Some content) [] = content)
      by (destruct content; [discriminate|reflexivity]).
    rewrite Hchat, Ect, Hcontent. cbn [negb]. rewrite Hpdf. reflexivity.
  - intros H200. destruct (Hfrom H200) as (_ & Hct & Hcd).
    refine (conj Hct (conj Hcd (conj _ (conj _ (conj _ _))))).
    + apply sanitize_word_chars.
    + apply sanitize_word_chars.
    + apply sanitize_nth.
    + intros -> ->. rewrite Hcd. reflexivity.
Qed.

Lemma POST_success_file_name_witness :
  let resp := fst (POST example_deps
                     (Returned (mkFormData (Some (FormString (js "Build APIs")))
                                  (Some (FormString (js "Acme Inc.")))
                                  (Some (FormString (js "Backend Eng.")))))) in
  status resp = 200
  /\ header_value (js "Content-Disposition") (headers resp)
     = Some (CONTENT_DISPOSITION (js "Louis_Bailey_Acme_Inc__Backend_Eng_.pdf")).
Proof.
  destruct (POST_success_file_name example_deps (Some (FormString (js "Build APIs")))
              (js "Acme Inc.") (js "Backend Eng.")) as (H200 & Hname).
  assert (H : status (fst (POST example_deps
                             (Returned (mkFormData (Some (FormString (js "Build APIs")))
                                          (Some (FormString (js "Acme Inc.")))
                                          (Some (FormString (js "Backend Eng."))))))) = 200).
  { apply H200. refine (conj eq_refl (conj eq_refl (conj eq_refl (conj eq_refl _)))).
    exists example_completion. refine (conj eq_refl (conj eq_refl eq_refl)). }
  split; [exact H|].
  destruct (Hname H) as (_ & _ & _ & _ & _ & H7). apply H7; reflexivity.
Defined.

(** C8, as stated, fails: for the request of the scenario the file name is
    not [Louis_Bailey_Acme_Inc_Backend_Eng_.pdf]. *)
Lemma acme_file_name_differs :
  let resp := fst (POST example_deps
                     (Returned (mkFormData (Some (FormString (js "Build APIs")))
                                  (Some (FormString (js "Acme Inc.")))
                                  (Some (FormString (js "Backend Eng.")))))) in
  status resp = 200
  /\ header_value (js "Content-Type") (headers resp) = Some (js "application/pdf")
  /\ header_value (js "Content-Disposition") (headers resp)
     = Some (CONTENT_DISPOSITION (js "Louis_Bailey_Acme_Inc__Backend_Eng_.pdf"))
  /\ header_value (js "Content-Disposition") (headers resp)
     <> Some (CONTENT_DISPOSITION (js "Louis_Bailey_Acme_Inc_Backend_Eng_.pdf")).
Proof.
  refine (conj _ (conj _ (conj _ _))); try (vm_compute; reflexivity).
  vm_compute. discriminate.
Qed.

(** A run that is not successful although the completion is there: the
    PDF library throws on the text, and the answer is the internal error,
    after the call to the model and the start of the generation. *)
Example POST_render_failure :
  POST (mkDeps (Some (js "k")) None (fun _ _ => Returned (Some (js "x")))
          example_env (fun a b => a ++ b) (js "R")
          (fun _ => Some (ErrorObject (js "WinAnsi cannot encode"))))
       (Returned (mkFormData (Some (FormString (js "JD"))) (Some (FormString (js "Acme")))
                    (Some (FormString (js "Dev")))))
  = (json_error 500 [(js "error", js "Internal server error");
                     (js "details", js "WinAnsi cannot encode")],
     [ModelCall (js "gpt-3.5-turbo") (js "RJD"); PdfGeneration (js "x")]).
Proof. reflexivity. Qed.

(* ===================================================================== *)
(** * Part III: further properties of the code *)
(* ===================================================================== *)

(** ** HTTP endpoint: the other answers *)

(** With the three fields present and no API key configured (unset or
    empty), the answer is status 500 with the configuration error, and
    nothing outside is called. *)
Theorem POST_key_not_configured (D : Deps) (formData : FormData) :
  field_truthy (job_description formData) = true ->
  field_truthy (company formData) = true ->
  field_truthy (role formData) = true ->
  opt_truthy (OPENAI_API_KEY D) = false ->
  POST D (Returned formData)
  = (json_error 500 [(js "error", js "OpenAI API key not configured")], []).
Proof.
  intros Hj Hc Hr Hk. unfold POST. rewrite Hj, Hc, Hr, Hk. reflexivity.
Qed.

Lemma POST_key_not_configured_witness :
  POST (mkDeps None None (fun _ _ => Returned None) example_env (fun a b => a ++ b) []
          (fun _ => None))
       (Returned (mkFormData (Some (FormString (js "Build APIs"))) (Some (FormString (js "Acme")))
                    (Some FormFile)))
  = (json_error 500 [(js "error", js "OpenAI API key not configured")], []).
Proof.
  apply (POST_key_not_configured
           (mkDeps None None (fun _ _ => Returned None) example_env (fun a b => a ++ b) []
              (fun _ => None))
           (mkFormData (Some (FormString (js "Build APIs"))) (Some (FormString (js "Acme")))
              (Some FormFile)));
    reflexivity.
Defined.

(** When the completion call throws, or returns no content or empty
    content, the answer is status 500 (the internal error with the message
    of the error, or the generation failure), after exactly one call to the
    model and without any PDF generation. *)
Theorem POST_completion_failure (D : Deps) (formData : FormData) :
  field_truthy (job_description formData) = true ->
  field_truthy (company formData) = true ->
  field_truthy (role formData) = true ->
  opt_truthy (OPENAI_API_KEY D) = true ->
  let model := or_else (OPENAI_VERSION D) (js "gpt-3.5-turbo") in
  let prompt := buildPrompt D (baseResume D) (field_text (job_description formData)) in
  let answer := POST D (Returned formData) in
  (forall message, chat_create D model prompt = Threw (ErrorObject message) ->
     answer = (json_error 500 [(js "error", js "Internal server error"); (js "details", message)],
               [ModelCall model prompt])) /\
  (chat_create D model prompt = Threw OtherThrown ->
     answer = (json_error 500 [(js "error", js "Internal server error");
                               (js "details", js "Unknown error")],
               [ModelCall model prompt])) /\
  (chat_create D model prompt = Returned None \/ chat_create D model prompt = Returned (Some []) ->
     answer = (json_error 500 [(js "error", js "Failed to generate tailored resume content")],
               [ModelCall model prompt])).
Proof.
  intros Hj Hc Hr Hk model prompt answer.
  unfold answer, POST. rewrite Hj, Hc, Hr, Hk. cbn [negb orb].
  fold model. fold prompt.
  refine (conj _ (conj _ _)).
  - intros message ->. reflexivity.
  - intros ->. reflexivity.
  - intros [-> | ->]; reflexivity.
Qed.

Lemma POST_completion_failure_witness :
  POST (mkDeps (Some (js "k")) (Some (js "gpt-4o")) (fun _ _ => Returned (Some []))
          example_env (fun a b => a ++ b) (js "R") (fun _ => None))
       (Returned (mkFormData (Some (FormString (js "JD"))) (Some (FormString (js "Acme")))
                    (Some (FormString (js "Dev")))))
  = (json_error 500 [(js "error", js "Failed to generate tailored resume content")],
     [ModelCall (js "gpt-4o") (js "RJD")]).
Proof.
  destruct (POST_completion_failure
              (mkDeps (Some (js "k")) (Some (js "gpt-4o")) (fun _ _ => Returned (Some []))
                 example_env (fun a b => a ++ b) (js "R") (fun _ => None))
              (mkFormData (Some (FormString (js "JD"))) (Some (FormString (js "Acme")))
                 (Some (FormString (js "Dev"))))
              eq_refl eq_refl eq_refl eq_refl)
    as (_ & _ & H).
  apply H. right. reflexivity.
Defined.

(** Whatever the form holds (strings, files, absent fields) or throws, and
    whatever the completion service and the PDF library do: the status is
    200, 400 or 500; an answer other than 200 is JSON; an answer 200 comes
    from a form whose company and role are strings, after one call to the
    model and one PDF generation on which the library threw nothing, in
    that order, and carries the document of the completion; a PDF is only
    ever generated from a non-empty completion, right after the call to the
    model that returned it, and when the library throws on it the answer is
    500; the model is called at most once, and not at all for a request
    that fails validation. *)
Theorem POST_outcomes (D : Deps) (form : Outcome FormData) :
  let resp := fst (POST D form) in
  let trace := snd (POST D form) in
  (status resp = 200 \/ status resp = 400 \/ status resp = 500) /\
  (status resp <> 200 -> is_json_response resp) /\
  (status resp = 200 ->
   exists (formData : FormData) (co ro model prompt text : jsstring),
     form = Returned formData
     /\ company formData = Some (FormString co) /\ role formData = Some (FormString ro)
     /\ trace = [ModelCall model prompt; PdfGeneration text]
     /\ pdf_throws D text = None
     /\ response_body resp = PdfBody (generateResumePdf (render_env D) text)) /\
  (forall text, In (PdfGeneration text) trace ->
     truthy text = true
     /\ exists model prompt, trace = [ModelCall model prompt; PdfGeneration text]) /\
  (forall text, In (PdfGeneration text) trace -> pdf_throws D text <> None ->
     status resp = 500) /\
  length (filter is_model_call trace) <= 1 /\
  (status resp = 400 -> trace = []).
Proof.
  intros resp trace. unfold resp, trace. clear resp trace.
  assert (Herr : forall (code : nat) (props : list (jsstring * jsstring)) (tr : list Event),
             code = 400 \/ code = 500 -> (code = 400 -> tr = []) ->
             tr = [] \/ (exists m p, tr = [ModelCall m p])
             \/ (exists m p text, tr = [ModelCall m p; PdfGeneration text]
                                  /\ truthy text = true) ->
             forall answer, answer = (json_error code props, tr) ->
             let resp := fst answer in
             let trace := snd answer in
             (status resp = 200 \/ status resp = 400 \/ status resp = 500) /\
             (status resp <> 200 -> is_json_response resp) /\
             (status resp = 200 ->
              exists (formData : FormData) (co ro model prompt text : jsstring),
                form = Returned formData
                /\ company formData = Some (FormString co)
                /\ role formData = Some (FormString ro)
                /\ trace = [ModelCall model prompt; PdfGeneration text]
                /\ pdf_throws D text = None
                /\ response_body resp = PdfBody (generateResumePdf (render_env D) text)) /\
             (forall text, In (PdfGeneration text) trace ->
                truthy text = true
                /\ exists model prompt, trace = [ModelCall model prompt; PdfGeneration text]) /\
             (forall text, In (PdfGeneration text) trace -> pdf_throws D text <> None ->
                status resp = 500) /\
             length (filter is_model_call trace) <= 1 /\
             (status resp = 400 -> trace = [])).
  { intros code props tr Hcode H400 Htr answer ->. cbn.
    refine (conj _ (conj _ (conj _ (conj _ (conj _ (conj _ H400)))))).
    - destruct Hcode; auto.
    - intros _. split; [reflexivity|]. eexists. reflexivity.
    - intros H. destruct Hcode; congruence.
    - intros text Hin.
      destruct Htr as [->|[(m & p & ->)|(m & p & t & -> & Ht)]]; simpl in Hin.
      + contradiction.
      + destruct Hin as [H|[]]. discriminate.
      + destruct Hin as [H|[H|[]]]; [discriminate|]. injection H as <-. eauto.
    - intros text Hin _. destruct Hcode as [-> | ->]; [|reflexivity].
      rewrite (H400 eq_refl) in Hin. contradiction.
    - destruct Htr as [->|[(m & p & ->)|(m & p & t & -> & Ht)]]; simpl; lia. }
  destruct form as [formData|e].
  2: { eapply Herr; [| | |reflexivity]; auto; discriminate. }
  unfold POST.
  destruct (negb (field_truthy (job_description formData))
            || negb (field_truthy (company formData))
            || negb (field_truthy (role formData))).
  { eapply Herr; [| | |reflexivity]; auto. }
  destruct (negb (opt_truthy (OPENAI_API_KEY D))).
  { eapply Herr; [| | |reflexivity]; auto; discriminate. }
  destruct (chat_create D _ _) as [content|e].
  2: { eapply Herr; [| | |reflexivity]; eauto; discriminate. }
  destruct (truthy (or_else content [])) eqn:Et; cbn [negb].
  2: { eapply Herr; [| | |reflexivity]; eauto; discriminate. }
  destruct (pdf_throws D (or_else content [])) as [e|] eqn:Hpdf.
  { eapply Herr; [| | |reflexivity]; eauto 10; discriminate. }
  destruct (company formData) as [[co|]|] eqn:Eco;
    try (eapply Herr; [| | |reflexivity]; eauto 10; discriminate).
  destruct (role formData) as [[ro|]|] eqn:Ero;
    try (eapply Herr; [| | |reflexivity]; eauto 10; discriminate).
  cbn. refine (conj _ (conj _ (conj _ (conj _ (conj _ (conj _ _)))))).
  - auto.
  - congruence.
  - intros _. exists formData, co, ro. do 3 eexists.
    refine (conj eq_refl (conj Eco (conj Ero (conj eq_refl (conj Hpdf eq_refl))))).
  - intros text [H|[H|[]]]; [discriminate|]. injection H as <-. eauto.
  - intros text [H|[H|[]]]; [discriminate|]. injection H as <-. congruence.
  - lia.
  - discriminate.
Qed.

(** A form whose role is an uploaded file passes the validation, costs a
    call to the model and a PDF generation, and is then answered 500: the
    file has no [replace]. *)
Example POST_file_for_role :
  POST example_deps
    (Returned (mkFormData (Some (FormString (js "Build APIs"))) (Some (FormString (js "Acme")))
                 (Some FormFile)))
  = (json_error 500 [(js "error", js "Internal server error");
                     (js "details", js "role.replace is not a function")],
     [ModelCall (js "gpt-3.5-turbo") (js "Base resume" ++ [LF] ++ js "Build APIs");
      PdfGeneration example_completion]).
Proof. reflexivity. Qed.

(** ** The file name *)

Lemma sanitize_fixes_word_chars (s : jsstring) :
  forallb isWordChar s = true -> sanitize s = s.
Proof.
  induction s as [|c s IH]; simpl; [reflexivity|].
  intros H. apply andb_true_iff in H. destruct H as [Hc Hs].
  rewrite Hc, (IH Hs). reflexivity.
Qed.

(** Sanitizing keeps the length, changes nothing in a string of word
    characters, and so is idempotent. *)
Theorem sanitize_idempotent (s : jsstring) :
  length (sanitize s) = length s /\
  (forallb isWordChar s = true -> sanitize s = s) /\
  sanitize (sanitize s) = sanitize s.
Proof.
  refine (conj _ (conj (sanitize_fixes_word_chars s) _)).
  - unfold sanitize. apply length_map.
  - apply sanitize_fixes_word_chars. apply sanitize_word_chars.
Qed.

Lemma sanitize_idempotent_witness : sanitize (js "Acme_Inc") = js "Acme_Inc".
Proof.
  destruct (sanitize_idempotent (js "Acme_Inc")) as (_ & H & _). apply H. reflexivity.
Defined.

Lemma forallb_weaken {A} (p q : A -> bool) (l : list A) :
  (forall x, p x = true -> q x = true) -> forallb p l = true -> forallb q l = true.
Proof.
  intros Hpq. induction l as [|x l IH]; simpl; [reflexivity|].
  intros H. apply andb_true_iff in H. destruct H as [Hx Hl].
  rewrite (Hpq x Hx), (IH Hl). reflexivity.
Qed.

(** Whatever characters the company and the role contain (quotes, slashes,
    line breaks, characters outside ASCII), the file name of a successful
    answer (status 200) is made of letters, digits, underscores and dots
    only, between the two quotes of the header. *)
Theorem POST_file_name_is_plain (D : Deps) (formData : FormData) :
  status (fst (POST D (Returned formData))) = 200 ->
  exists co ro fileName : jsstring,
    company formData = Some (FormString co) /\ role formData = Some (FormString ro)
    /\ header_value (js "Content-Disposition") (headers (fst (POST D (Returned formData))))
       = Some (js "attachment; filename=" ++ [QUOTE] ++ fileName ++ [QUOTE])
    /\ forallb isFileNameChar fileName = true
    /\ length fileName = 13 + length co + 1 + length ro + 4.
Proof.
  intros H200.
  destruct (POST_status_200 D formData H200)
    as (co & ro & content & Hco & Hro & _ & _ & _ & _ & _ & _ & _ & Hresp).
  exists co, ro, (js "Louis_Bailey_" ++ sanitize co ++ js "_" ++ sanitize ro ++ js ".pdf").
  refine (conj Hco (conj Hro (conj _ (conj _ _)))).
  - rewrite Hresp. simpl header_value. rewrite <- !app_assoc. reflexivity.
  - assert (Hw : forall s, forallb isWordChar s = true -> forallb isFileNameChar s = true).
    { intros s. apply forallb_weaken. intros x Hx. unfold isFileNameChar. rewrite Hx. reflexivity. }
    rewrite !forallb_app. rewrite (Hw _ (sanitize_word_chars co)), (Hw _ (sanitize_word_chars ro)).
    reflexivity.
  - rewrite !length_app. unfold sanitize. rewrite !length_map. simpl. lia.
Qed.

Lemma POST_file_name_is_plain_witness :
  exists co ro fileName : jsstring,
    Some (FormString ([QUOTE] ++ js "a/b")) = Some (FormString co)
    /\ Some (FormString (js "x y")) = Some (FormString ro)
    /\ header_value (js "Content-Disposition")
         (headers (fst (POST example_deps
                          (Returned (mkFormData (Some (FormString (js "JD")))
                                       (Some (FormString ([QUOTE] ++ js "a/b")))
                                       (Some (FormString (js "x y"))))))))
       = Some (js "attachment; filename=" ++ [QUOTE] ++ fileName ++ [QUOTE])
    /\ forallb isFileNameChar fileName = true
    /\ length fileName = 13 + length co + 1 + length ro + 4.
Proof.
  apply (POST_file_name_is_plain example_deps
           (mkFormData (Some (FormString (js "JD"))) (Some (FormString ([QUOTE] ++ js "a/b")))
              (Some (FormString (js "x y"))))).
  reflexivity.
Defined.

(** ** Resume Parser: all inputs *)

Lemma join_split (c : char) (s : jsstring) : join [c] (split c s) = s.
Proof.
  unfold split. induction s as [|x s IH]; [reflexivity|].
  simpl split_by. pose proof (split_by_nonempty (fun a => char_eqb a c) s) as Hne.
  destruct (char_eqb x c) eqn:E.
  - apply char_eqb_eq in E. subst x.
    destruct (split_by (fun a => char_eqb a c) s) as [|w ws]; [congruence|].
    rewrite join_two_more, IH. reflexivity.
  - destruct (split_by (fun a => char_eqb a c) s) as [|w ws]; [congruence|].
    destruct ws as [|w' ws].
    + simpl in *. rewrite IH. reflexivity.
    + rewrite join_two_more in IH. rewrite join_two_more.
      rewrite <- IH. reflexivity.
Qed.

Lemma dropWhile_head {A} (p : A -> bool) (l : list A) :
  dropWhile p l = [] \/ exists x t, dropWhile p l = x :: t /\ p x = false.
Proof.
  induction l as [|a l IH]; simpl; [left; reflexivity|].
  destruct (p a) eqn:E; [exact IH|]. right. exists a, l. auto.
Qed.

Lemma dropWhile_suffix {A} (p : A -> bool) (l : list A) :
  exists pre, l = pre ++ dropWhile p l.
Proof.
  induction l as [|a l [pre IH]]; simpl; [exists []; reflexivity|].
  destruct (p a); [|exists []; reflexivity].
  exists (a :: pre). simpl. rewrite <- IH. reflexivity.
Qed.

(** The collected lines, whatever the number of non-blank lines. *)
Lemma header_loop_info (lines : list jsstring) :
  forall (idx : nat) (info : list jsstring),
    length info < 6 ->
    fst (header_loop lines idx info) = firstn 6 (info ++ map trim (filter nonblank lines)).
Proof.
  induction lines as [|x lines IH]; intros idx info Hlen.
  - cbn [header_loop fst filter map]. rewrite app_nil_r, firstn_all2 by lia. reflexivity.
  - cbn [header_loop filter]. unfold nonblank at 1. destruct (truthy (trim x)) eqn:Hx.
    + cbn [map]. destruct (length (info ++ [trim x]) =? 6) eqn:E.
      * apply Nat.eqb_eq in E. cbn [fst].
        change (info ++ trim x :: map trim (filter nonblank lines))
          with (info ++ [trim x] ++ map trim (filter nonblank lines)).
        rewrite app_assoc, firstn_app, E, Nat.sub_diag, firstn_0, app_nil_r.
        rewrite <- E, firstn_all. reflexivity.
      * apply Nat.eqb_neq in E. rewrite length_app in E. simpl in E.
        rewrite IH by (rewrite length_app; simpl; lia).
        rewrite <- app_assoc. reflexivity.
    + replace (length info =? 6) with false by (symmetry; apply Nat.eqb_neq; lia).
      apply IH. exact Hlen.
Qed.

Lemma nth_error_firstn_lt {A} (l : list A) (n i : nat) :
  i < n -> nth_error (firstn n l) i = nth_error l i.
Proof.
  revert n i. induction l as [|a l IH]; intros n i H.
  - rewrite firstn_nil. reflexivity.
  - destruct n; [lia|]. destruct i; simpl; [reflexivity|]. apply IH. lia.
Qed.

(** The body is the join of the lines from some point of the text on, and
    that point is not a blank line. *)
Lemma parseResume_body_suffix (resumeText : jsstring) :
  exists pre suffix : list jsstring,
    split LF resumeText = pre ++ suffix
    /\ body (parseResume resumeText) = join [LF] suffix
    /\ (suffix = [] \/ exists l t, suffix = l :: t /\ nonblank l = true).
Proof.
  unfold parseResume.
  destruct (header_loop (split LF resumeText) 0 []) as [info bodyStart].
  cbn [body].
  rewrite skip_blank_drops with (suffix := skipn bodyStart (split LF resumeText)) by reflexivity.
  destruct (dropWhile_suffix blank (skipn bodyStart (split LF resumeText))) as [mid Hmid].
  exists (firstn bodyStart (split LF resumeText) ++ mid),
         (dropWhile blank (skipn bodyStart (split LF resumeText))).
  refine (conj _ (conj eq_refl _)).
  - rewrite <- app_assoc, <- Hmid, firstn_skipn. reflexivity.
  - destruct (dropWhile_head blank (skipn bodyStart (split LF resumeText)))
      as [E|(l & t & E & Hl)]; [left; exact E|].
    right. exists l, t. split; [exact E|].
    rewrite blank_nonblank in Hl. apply negb_false_iff. exact Hl.
Qed.

(** For every text: the i-th header field is the i-th non-blank line,
    trimmed, if there is one (so the fields that are there are not empty,
    have nothing left to trim, and come before the ones that are not);
    the body is empty or starts with a non-blank line, and its lines are
    the last lines of the text. *)
Theorem parseResume_fields_and_body (resumeText : jsstring) :
  let lines := split LF resumeText in
  let found := map trim (filter nonblank lines) in
  let p := parseResume resumeText in
  [headline p; name p; email p; phone p; location p; linkedin p]
  = map (nth_error found) [0; 1; 2; 3; 4; 5] /\
  Forall (fun s => truthy s = true /\ trim s = s) found /\
  (body p = [] \/
   (nonblank (hd [] (split LF (body p))) = true
    /\ exists pre, lines = pre ++ split LF (body p))).
Proof.
  intros lines found p.
  refine (conj _ (conj _ _)).
  - pose proof (header_loop_info lines 0 [] ltac:(simpl; lia)) as Hinfo.
    unfold p, parseResume. fold lines.
    destruct (header_loop lines 0 []) as [info bodyStart]. cbn [fst app] in Hinfo. subst info.
    fold found. cbn [headline name email phone location linkedin map].
    rewrite !nth_error_firstn_lt by lia. reflexivity.
  - unfold found. rewrite Forall_forall. intros s Hs.
    apply in_map_iff in Hs. destruct Hs as (l & <- & Hl).
    apply filter_In in Hl. destruct Hl as [_ Hl]. split; [exact Hl|apply trim_idem].
  - destruct (parseResume_body_suffix resumeText) as (pre & suffix & Hsplit & Hbody & Hhead).
    fold p in Hbody. fold lines in Hsplit.
    destruct Hhead as [->|(l & t & -> & Hl)]; [left; exact Hbody|].
    right.
    assert (Hs : split LF (body p) = l :: t).
    { rewrite Hbody. unfold split. apply split_join; [apply char_eqb_refl|discriminate|].
      intros w Hw. apply (split_by_pieces_clean (fun c => char_eqb c LF) resumeText).
      fold (split LF resumeText). fold lines. rewrite Hsplit. apply in_or_app. right. exact Hw. }
    rewrite Hs. split; [exact Hl|]. exists pre. exact Hsplit.
Qed.

Lemma split_header_line (h rest : jsstring) :
  header_line h -> split LF (h ++ [LF] ++ rest) = h :: split LF rest.
Proof.
  intros (_ & _ & Hclean). unfold split.
  change (h ++ [LF] ++ rest) with (h ++ LF :: rest).
  rewrite split_by_app_sep by apply char_eqb_refl.
  rewrite split_by_no_sep by exact Hclean. reflexivity.
Qed.

Lemma header_line_nonblank (h : jsstring) : header_line h -> nonblank h = true.
Proof. intros (Ht & Htrim & _). unfold nonblank. rewrite Htrim. exact Ht. Qed.

(** Writing six header lines, an empty line and a body, and parsing the
    text back, gives the six lines and the body: for header lines that are
    non-empty, trimmed and on one line, and a body that is empty or starts
    with a non-blank line. *)
Theorem parseResume_round_trip (h1 h2 h3 h4 h5 h6 bodyText : jsstring) :
  Forall header_line [h1; h2; h3; h4; h5; h6] ->
  bodyText = [] \/ nonblank (hd [] (split LF bodyText)) = true ->
  parseResume (h1 ++ [LF] ++ h2 ++ [LF] ++ h3 ++ [LF] ++ h4 ++ [LF] ++ h5 ++ [LF]
               ++ h6 ++ [LF] ++ [LF] ++ bodyText)
  = mkParsed (Some h1) (Some h2) (Some h3) (Some h4) (Some h5) (Some h6) bodyText.
Proof.
  intros Hh Hbody.
  inversion Hh as [|? ? H1 Hh1]; subst. inversion Hh1 as [|? ? H2 Hh2]; subst.
  inversion Hh2 as [|? ? H3 Hh3]; subst. inversion Hh3 as [|? ? H4 Hh4]; subst.
  inversion Hh4 as [|? ? H5 Hh5]; subst. inversion Hh5 as [|? ? H6 _]; subst.
  unfold parseResume.
  rewrite !split_header_line by assumption.
  change (split LF ([LF] ++ bodyText)) with ([] :: split LF bodyText).
  pose proof (header_line_nonblank _ H1) as N1. pose proof (header_line_nonblank _ H2) as N2.
  pose proof (header_line_nonblank _ H3) as N3. pose proof (header_line_nonblank _ H4) as N4.
  pose proof (header_line_nonblank _ H5) as N5. pose proof (header_line_nonblank _ H6) as N6.
  assert (Hloop : header_loop (h1 :: h2 :: h3 :: h4 :: h5 :: h6 :: [] :: split LF bodyText) 0 []
                  = ([h1; h2; h3; h4; h5; h6], 6)).
  { change (h1 :: h2 :: h3 :: h4 :: h5 :: h6 :: [] :: split LF bodyText)
      with ([h1; h2; h3; h4; h5] ++ h6 :: [] :: split LF bodyText).
    rewrite header_loop_reaches_six; [|simpl; rewrite N1, N2, N3, N4, N5; reflexivity|exact N6].
    simpl filter. rewrite N1, N2, N3, N4, N5. cbn [map app].
    destruct H1 as (_ & -> & _), H2 as (_ & -> & _), H3 as (_ & -> & _),
             H4 as (_ & -> & _), H5 as (_ & -> & _), H6 as (_ & -> & _).
    reflexivity. }
  rewrite Hloop. cbv beta iota zeta. cbn [nth_error skipn].
  change (skip_blank ([] :: split LF bodyText) 6) with (skip_blank (split LF bodyText) 7).
  rewrite skip_blank_drops with (suffix := split LF bodyText) by reflexivity.
  f_equal.
  destruct Hbody as [->|Hb]; [reflexivity|].
  pose proof (split_by_nonempty (fun c => char_eqb c LF) bodyText) as Hne.
  fold (split LF bodyText) in Hne.
  destruct (split LF bodyText) as [|l t] eqn:E; [congruence|].
  simpl in Hb. cbn [dropWhile]. rewrite blank_nonblank, Hb. cbn [negb].
  rewrite <- E. apply join_split.
Qed.

Lemma parseResume_round_trip_witness :
  parseResume (js "Engineer" ++ [LF] ++ js "Ann Lee" ++ [LF] ++ js "ann@x.io" ++ [LF]
               ++ js "555" ++ [LF] ++ js "Austin" ++ [LF] ++ js "x.io/ann" ++ [LF] ++ [LF]
               ++ js "Summary:" ++ [LF] ++ [LF] ++ js "text")
  = mkParsed (Some (js "Engineer")) (Some (js "Ann Lee")) (Some (js "ann@x.io"))
             (Some (js "555")) (Some (js "Austin")) (Some (js "x.io/ann"))
             (js "Summary:" ++ [LF] ++ [LF] ++ js "text").
Proof.
  apply (parseResume_round_trip (js "Engineer") (js "Ann Lee") (js "ann@x.io") (js "555")
           (js "Austin") (js "x.io/ann") (js "Summary:" ++ [LF] ++ [LF] ++ js "text")).
  - repeat constructor.
  - right. reflexivity.
Defined.

(** ** Date Formatter: dashes and single dates *)

Lemma split_by_length (p : char -> bool) (s : jsstring) :
  length (split_by p s) = S (length (filter p s)).
Proof.
  induction s as [|c s IH]; simpl; [reflexivity|].
  destruct (p c); simpl; [rewrite IH; reflexivity|].
  destruct (split_by p s) as [|w ws] eqn:E;
    [exfalso; exact (split_by_nonempty p s E)|exact IH].
Qed.

Lemma noDash_filter (s : jsstring) :
  noDash s = true -> filter isEnDash s = [] /\ filter isDash s = [] /\ includes s HYPHEN = false.
Proof.
  unfold noDash, includes. induction s as [|c s IH]; simpl; [auto|].
  intros H. apply andb_true_iff in H. destruct H as [Hc Hs].
  destruct (IH Hs) as (-> & -> & ->).
  apply negb_true_iff in Hc. rewrite Hc.
  unfold isDash in Hc. apply orb_false_iff in Hc. destruct Hc as [Hen Hhy].
  unfold isEnDash. rewrite Hen, Hhy. auto.
Qed.

Lemma join_dashes (ps : list jsstring) :
  Forall (fun q => noDash q = true) ps ->
  length (filter isEnDash (join DASH_SEP ps)) = length ps - 1
  /\ includes (join DASH_SEP ps) HYPHEN = false.
Proof.
  induction 1 as [|p ps Hp _ [IH1 IH2]]; [split; reflexivity|].
  destruct (noDash_filter p Hp) as (Fen & _ & Fhy).
  destruct ps as [|p' r].
  - simpl. rewrite Fen, Fhy. split; reflexivity.
  - rewrite join_two_more. unfold includes in *.
    rewrite !filter_app, !existsb_app, Fen, Fhy, IH2.
    rewrite !length_app, IH1. simpl. split; [lia|reflexivity].
Qed.

(** The result never has a hyphen, and has as many en-dashes as the input
    has dashes of either kind: every dash is turned into an en-dash, none is
    added or lost. *)
Theorem formatDate_dashes (dateStr : jsstring) :
  includes (formatDate dateStr) HYPHEN = false /\
  length (filter isEnDash (formatDate dateStr)) = length (filter isDash dateStr).
Proof.
  unfold formatDate. rewrite includes_dash.
  destruct (existsb isDash dateStr) eqn:Hdash.
  - assert (Hall : Forall (fun q => noDash q = true)
                     (map format_part (map trim (split_by isDash dateStr)))).
    { rewrite Forall_forall. intros q Hq. rewrite map_map in Hq.
      apply in_map_iff in Hq. destruct Hq as (x & <- & Hx).
      apply format_part_settled. apply (split_by_pieces_clean isDash dateStr). exact Hx. }
    destruct (join_dashes _ Hall) as [Hcount Hhy]. split; [exact Hhy|].
    rewrite Hcount, !length_map, split_by_length. simpl. lia.
  - assert (Hnd : noDash dateStr = true) by (rewrite noDash_existsb, Hdash; reflexivity).
    destruct (noDash_filter _ Hnd) as (Fen & Fd & Fhy). rewrite Fd.
    destruct (is_mm_yyyy dateStr) eqn:Hm.
    + destruct (month_year_settled _ Hm) as (Hs & _).
      destruct (noDash_filter _ Hs) as (-> & _ & ->). split; reflexivity.
    + rewrite Fen, Fhy. split; reflexivity.
Qed.

Lemma year_noDash (y : jsstring) : is_year y = true -> noDash y = true.
Proof.
  destruct y as [|a [|b [|c [|d [|? ?]]]]]; simpl; try discriminate.
  intros H. rewrite !andb_true_iff in H. destruct H as (((H1 & H2) & H3) & H4).
  destruct (digit_facts a H1) as (_ & -> & _), (digit_facts b H2) as (_ & -> & _),
           (digit_facts c H3) as (_ & -> & _), (digit_facts d H4) as (_ & -> & _).
  reflexivity.
Qed.

(** A date of two digits, a slash and four digits, alone or as a part
    between dashes, becomes the month text and the year: the abbreviation
    for the months 01 to 12, and the word "undefined" for 00 and for 13 to
    99, where the table has no entry. *)
Theorem formatDate_single_date (n : nat) (y : jsstring) :
  n <= 99 -> is_year y = true ->
  formatDate (mm n ++ [SLASH] ++ y) = month_text n ++ [SPACE] ++ y /\
  format_part (mm n ++ [SLASH] ++ y) = month_text n ++ [SPACE] ++ y /\
  (n = 0 \/ 13 <= n -> month_text n = js "undefined").
Proof.
  intros Hn Hy.
  destruct (mm_digits n Hn) as (m1 & m2 & -> & H1 & H2 & Hv).
  assert (Hpart : format_part ([m1; m2] ++ [SLASH] ++ y) = month_text n ++ [SPACE] ++ y).
  { unfold format_part. rewrite is_mm_yyyy_digits, month_year_digits by assumption.
    rewrite Hv, month_table. reflexivity. }
  refine (conj _ (conj Hpart _)).
  - unfold formatDate. rewrite includes_dash.
    assert (Hnd : noDash ([m1; m2] ++ [SLASH] ++ y) = true).
    { unfold noDash. simpl. fold (noDash y). rewrite (year_noDash y Hy).
      destruct (digit_facts m1 H1) as (_ & -> & _), (digit_facts m2 H2) as (_ & -> & _).
      reflexivity. }
    rewrite noDash_existsb in Hnd. apply negb_true_iff in Hnd. rewrite Hnd.
    unfold format_part in Hpart. rewrite is_mm_yyyy_digits in * by assumption. exact Hpart.
  - unfold month_text. intros [-> | H]; [reflexivity|].
    replace (n <=? 12) with false by (symmetry; apply Nat.leb_gt; lia).
    rewrite andb_false_r. reflexivity.
Qed.

Lemma formatDate_single_date_witness :
  formatDate (js "13/2022") = js "undefined 2022"
  /\ format_part (js "07/1999") = js "Jul 1999".
Proof.
  destruct (formatDate_single_date 13 (js "2022") ltac:(lia) eq_refl) as (H1 & _ & _).
  destruct (formatDate_single_date 7 (js "1999") ltac:(lia) eq_refl) as (_ & H2 & _).
  split; [exact H1|exact H2].
Defined.

(** ** Line Wrapper: shape and number of the lines *)

Lemma clean_word_shape (w : jsstring) :
  forallb (fun c => negb (char_eqb c SPACE)) w = true -> w = [] \/ starts_nonspace w = true.
Proof.
  destruct w as [|c w]; [left; reflexivity|]. simpl. intros H.
  apply andb_true_iff in H. right. apply H.
Qed.

Lemma wrap_loop_shape (font : Font) (size maxWidth : Q) (ws : list jsstring) :
  forall (lines : list jsstring) (currentLine : jsstring),
    Forall (fun w => forallb (fun c => negb (char_eqb c SPACE)) w = true) ws ->
    Forall (fun l => starts_nonspace l = true) lines ->
    (currentLine = [] \/ starts_nonspace currentLine = true) ->
    Forall (fun l => starts_nonspace l = true) (wrap_loop font size maxWidth ws lines currentLine).
Proof.
  induction ws as [|w ws IH]; intros lines cur Hws Hlines Hcur; cbn [wrap_loop].
  - destruct cur as [|c cur]; simpl; [exact Hlines|].
    apply Forall_app. split; [exact Hlines|].
    constructor; [|constructor]. destruct Hcur as [E|E]; [discriminate|exact E].
  - inversion Hws as [|? ? Hw Hws']; subst.
    destruct cur as [|c cur]; cbn [truthy].
    + rewrite andb_false_r. apply IH; auto. apply clean_word_shape. exact Hw.
    + assert (Hc : starts_nonspace (c :: cur) = true)
        by (destruct Hcur as [E|E]; [discriminate|exact E]).
      destruct (Qgtb _ _ && true).
      * apply IH; auto.
        -- apply Forall_app. split; [exact Hlines|]. constructor; [exact Hc|constructor].
        -- apply clean_word_shape. exact Hw.
      * apply IH; auto.
Qed.

Lemma words_of_line (l : jsstring) : starts_nonspace l = true -> words l <> [].
Proof.
  destruct l as [|c l]; [discriminate|]. simpl. intros Hc. apply negb_true_iff in Hc.
  unfold words, split.
  destruct (split_by_cons_keep (fun a => char_eqb a SPACE) c l Hc) as (w & wt & _ & ->).
  simpl. discriminate.
Qed.

Lemma length_flat_map_nonempty {A B} (f : A -> list B) (l : list A) :
  Forall (fun x => f x <> []) l -> length l <= length (flat_map f l).
Proof.
  induction 1 as [|x l Hx _ IH]; simpl; [lia|].
  rewrite length_app. destruct (f x); [congruence|]. simpl. lia.
Qed.

(** Every line is non-empty and starts with a character other than the
    space (the lines may end with spaces); there are at most as many lines as
    words, so a text without words, the empty text among them, gives no
    line at all. *)
Theorem wrapText_line_shape (text : jsstring) (font : Font) (size maxWidth : Q) :
  let lines := wrapText text font size maxWidth in
  Forall (fun l => starts_nonspace l = true) lines /\
  length lines <= length (words text) /\
  (words text = [] -> lines = []).
Proof.
  intros lines.
  assert (Hshape : Forall (fun l => starts_nonspace l = true) lines).
  { unfold lines, wrapText. apply wrap_loop_shape; auto.
    rewrite Forall_forall. intros w Hw.
    apply (split_by_pieces_clean (fun c => char_eqb c SPACE) text). exact Hw. }
  assert (Hlen : length lines <= length (words text)).
  { assert (Hw : flat_map words lines = words text).
    { unfold lines, wrapText.
      rewrite (wrap_loop_words font size maxWidth text) by apply incl_refl. reflexivity. }
    rewrite <- Hw. apply length_flat_map_nonempty.
    rewrite Forall_forall in Hshape |- *. intros l Hl. apply words_of_line. auto. }
  refine (conj Hshape (conj Hlen _)).
  intros E. rewrite E in Hlen. destruct lines; [reflexivity|simpl in Hlen; lia].
Qed.

Lemma wrapText_line_shape_witness :
  wrapText (js "   ") fixed_pitch 11 100 = [].
Proof.
  destruct (wrapText_line_shape (js "   ") fixed_pitch 11 100) as (_ & _ & H).
  apply H. reflexivity.
Defined.

Lemma glue_join (ws : list jsstring) :
  forall cur : jsstring, truthy cur = true -> glue cur ws = join [SPACE] (cur :: ws).
Proof.
  unfold glue. induction ws as [|w ws IH]; intros cur Hcur; [reflexivity|].
  cbn [fold_left]. rewrite Hcur.
  rewrite IH by (destruct cur; [discriminate|reflexivity]).
  rewrite join_two_more. destruct ws as [|w' r].
  - reflexivity.
  - rewrite !join_two_more, <- !app_assoc. reflexivity.
Qed.

Lemma glue_split (s : jsstring) : glue [] (split SPACE s) = strip_leading_spaces s.
Proof.
  unfold split, strip_leading_spaces. induction s as [|c s IH]; [reflexivity|].
  simpl split_by. simpl dropWhile. destruct (char_eqb c SPACE) eqn:E.
  - exact IH.
  - pose proof (join_split SPACE s) as Hj. unfold split in Hj.
    destruct (split_by (fun a => char_eqb a SPACE) s) as [|w ws] eqn:Es;
      [exfalso; exact (split_by_nonempty _ s Es)|].
    change (glue [] ((c :: w) :: ws)) with (glue (c :: w) ws).
    rewrite glue_join by reflexivity.
    rewrite <- Hj. destruct ws; reflexivity.
Qed.

Lemma wrap_loop_no_break (font : Font) (size maxWidth : Q) (ws : list jsstring) :
  forall (lines : list jsstring) (cur : jsstring),
    Forall (fun line => exceeds font size maxWidth line = false) (test_lines cur ws) ->
    wrap_loop font size maxWidth ws lines cur
    = lines ++ (if truthy (glue cur ws) then [glue cur ws] else []).
Proof.
  induction ws as [|w ws IH]; intros lines cur Hfit; cbn [wrap_loop].
  - unfold glue. simpl. destruct (truthy cur); [reflexivity|rewrite app_nil_r; reflexivity].
  - cbn [test_lines] in Hfit. inversion Hfit as [|? ? Hl Hrest]; subst.
    match goal with |- context [Qgtb ?t maxWidth] =>
      replace (Qgtb t maxWidth) with false by (symmetry; exact Hl) end.
    cbn [andb]. rewrite IH by exact Hrest. reflexivity.
Qed.

Lemma glue_extends (ws : list jsstring) :
  forall cur : jsstring, exists rest : jsstring, glue cur ws = cur ++ rest.
Proof.
  unfold glue. induction ws as [|w ws IH]; intros cur; cbn [fold_left].
  - exists []. rewrite app_nil_r. reflexivity.
  - destruct cur as [|c cur]; cbn [truthy].
    + exists (fold_left (fun c w => if truthy c then c ++ [SPACE] ++ w else w) ws w).
      reflexivity.
    + destruct (IH ((c :: cur) ++ [SPACE] ++ w)) as (rest & ->).
      exists (([SPACE] ++ w) ++ rest). rewrite <- !app_assoc. reflexivity.
Qed.

Lemma test_lines_prefix (ws : list jsstring) :
  forall cur : jsstring,
    Forall (fun line => exists rest, glue cur ws = line ++ rest) (test_lines cur ws).
Proof.
  induction ws as [|w ws IH]; intros cur; cbn [test_lines]; [constructor|].
  constructor.
  - change (glue cur (w :: ws))
      with (glue (if truthy cur then cur ++ [SPACE] ++ w else w) ws).
    apply glue_extends.
  - apply (IH (if truthy cur then cur ++ [SPACE] ++ w else w)).
Qed.

(** The lines the loop measures before it cuts any are beginnings of the
    text without its leading spaces.  When none of them measures more than
    [maxWidth], the text is one line: the text itself without its leading
    spaces (inner and trailing spaces are kept), or no line when nothing is
    left. *)
Theorem wrapText_single_line (text : jsstring) (font : Font) (size maxWidth : Q) :
  Forall (fun line => exceeds font size maxWidth line = false) (candidate_lines text) ->
  wrapText text font size maxWidth
  = (if truthy (strip_leading_spaces text) then [strip_leading_spaces text] else []) /\
  Forall (fun line => exists rest, strip_leading_spaces text = line ++ rest)
    (candidate_lines text).
Proof.
  intros Hfit. split.
  - unfold wrapText. rewrite wrap_loop_no_break by exact Hfit.
    rewrite glue_split. reflexivity.
  - rewrite <- glue_split. apply test_lines_prefix.
Qed.

Lemma wrapText_single_line_witness :
  wrapText (js "  two  words ") fixed_pitch 11 100 = [js "two  words "].
Proof.
  apply (wrapText_single_line (js "  two  words ") fixed_pitch 11 100).
  repeat constructor.
Defined.

(** ** Inline Emphasis Renderer: the runs *)

Lemma split_bold_odd (s : jsstring) :
  forall (k : nat) (acc : jsstring), Nat.odd (length (split_bold_from s k acc)) = true.
Proof.
  induction s as [|c s IH]; intros k acc; [reflexivity|].
  cbn [split_bold_from]. destruct k as [|k]; [|apply IH].
  destruct (match_bold (c :: s)) as [[m rest]|]; [|apply IH].
  cbn [length]. rewrite Nat.odd_succ_succ. apply IH.
Qed.

Lemma bold_loop_uniform (font fontBold : Font) (size : Q) (color : Color)
    (parts : list jsstring) :
  forall offsetX y : Q,
    Forall (fun o => exists t x f, o = DrawText t x y size f color /\ (f = font \/ f = fontBold))
      (bold_loop parts offsetX y font fontBold size color).
Proof.
  induction parts as [|p parts IH]; intros offsetX y; [constructor|].
  rewrite bold_loop_step. constructor; [|apply IH].
  exists (run_content p), offsetX, (run_font font fontBold p). split; [reflexivity|].
  unfold run_font. destruct (is_bold_part p); auto.
Qed.

(** The number of runs drawn for a line is odd (at least one: a normal
    run, possibly empty, stands before, between and after the spans); all
    runs are drawn at the same height, size and colour, in one of the two
    faces; and a line without any star is drawn as it is, in one normal run
    at the starting x. *)
Theorem drawTextWithBold_run_count (text : jsstring) (x y : Q) (font fontBold : Font)
    (size : Q) (color : Color) :
  let ops := drawTextWithBold text x y font fontBold size color in
  Nat.odd (length ops) = true /\
  Forall (fun o => exists t x' f, o = DrawText t x' y size f color /\ (f = font \/ f = fontBold))
    ops /\
  (noStar text = true -> ops = [DrawText text x y size font color]).
Proof.
  intros ops. unfold ops, drawTextWithBold.
  refine (conj _ (conj (bold_loop_uniform _ _ _ _ _ _ _) _)).
  - destruct (bold_loop_texts font fontBold size color (split_bold text) x y) as [Ht _].
    rewrite <- (length_map op_text), Ht, length_map. apply split_bold_odd.
  - intros Hn. unfold split_bold.
    rewrite <- (app_nil_r text) at 1. rewrite split_bold_plain by exact Hn.
    cbn [split_bold_from]. rewrite app_nil_r, rev_involutive.
    rewrite bold_loop_step. unfold run_content, run_font.
    rewrite (noStar_not_bold text Hn). reflexivity.
Qed.

Lemma drawTextWithBold_run_count_witness :
  drawTextWithBold (js "plain text") 60 700 fixed_pitch fixed_pitch 11 BLACK
  = [DrawText (js "plain text") 60 700 11 fixed_pitch BLACK].
Proof.
  destruct (drawTextWithBold_run_count (js "plain text") 60 700 fixed_pitch fixed_pitch 11 BLACK)
    as (_ & _ & H).
  apply H. reflexivity.
Defined.

(** ** The job-entry pattern *)

Lemma star_greedy_sound {R} (cls : char -> bool) (s : jsstring) (k : jsstring -> option R)
    (r : R) :
  star_greedy cls s k = Some r ->
  exists pre s2, s = pre ++ s2 /\ forallb cls pre = true /\ k s2 = Some r.
Proof.
  induction s as [|c s IH]; simpl; intros H.
  - exists [], []. auto.
  - destruct (cls c) eqn:Hc; [|exists [], (c :: s); auto].
    destruct (star_greedy cls s k) as [r'|] eqn:E.
    + injection H as ->. destruct (IH eq_refl) as (pre & s2 & -> & Hpre & Hk).
      exists (c :: pre), s2. simpl. rewrite Hc, Hpre. auto.
    + exists [], (c :: s). auto.
Qed.

Lemma star_lazy_sound {R} (cls : char -> bool) (s : jsstring) (k : jsstring -> option R)
    (r : R) :
  star_lazy cls s k = Some r ->
  exists pre s2, s = pre ++ s2 /\ forallb cls pre = true /\ k s2 = Some r.
Proof.
  induction s as [|c s IH]; simpl; intros H.
  - destruct (k []) eqn:E; [|discriminate]. exists [], []. rewrite E. auto.
  - destruct (k (c :: s)) eqn:E; [exists [], (c :: s); rewrite E; auto|].
    destruct (cls c) eqn:Hc; [|discriminate].
    destruct (IH H) as (pre & s2 & -> & Hpre & Hk).
    exists (c :: pre), s2. simpl. rewrite Hc, Hpre. auto.
Qed.

Lemma star_sound {R} (g : bool) (cls : char -> bool) (s : jsstring)
    (k : jsstring -> option R) (r : R) :
  star g cls s k = Some r ->
  exists pre s2, s = pre ++ s2 /\ forallb cls pre = true /\ k s2 = Some r.
Proof. destruct g; [apply star_greedy_sound|apply star_lazy_sound]. Qed.

Lemma firstn_app_exact {A} (a b : list A) :
  firstn (length (a ++ b) - length b) (a ++ b) = a.
Proof.
  rewrite length_app, Nat.add_sub, firstn_app, firstn_all, Nat.sub_diag.
  simpl. apply app_nil_r.
Qed.

Lemma plus_group_sound {R} (input : jsstring) (g : bool) (cls : char -> bool)
    (s : jsstring) (caps : list jsstring) (k : jsstring -> list jsstring -> option R) (r : R) :
  rmatch input (RGroup (RPlus g cls)) s caps k = Some r ->
  exists cap s2, s = cap ++ s2 /\ cap <> [] /\ forallb cls cap = true
                 /\ k s2 (caps ++ [cap]) = Some r.
Proof.
  cbn [rmatch]. destruct s as [|c s]; [discriminate|].
  destruct (cls c) eqn:Hc; [|discriminate]. intros H.
  apply star_sound in H. destruct H as (pre & s2 & -> & Hpre & Hk).
  exists (c :: pre), s2.
  change (c :: pre ++ s2) with ((c :: pre) ++ s2) in Hk. rewrite firstn_app_exact in Hk.
  simpl. rewrite Hc, Hpre. repeat split; auto. discriminate.
Qed.

Lemma startsWith_prefix (l s : jsstring) :
  startsWith s l = true -> s = l ++ skipn (length l) s.
Proof.
  revert s. induction l as [|p l IH]; intros s H; [reflexivity|].
  destruct s as [|c s]; [discriminate|]. simpl in H.
  apply andb_true_iff in H. destruct H as [Hc Hs]. apply char_eqb_eq in Hc. subst c.
  simpl. f_equal. apply IH. exact Hs.
Qed.

Lemma lit_sound {R} (input l s : jsstring) (caps : list jsstring)
    (k : jsstring -> list jsstring -> option R) (r : R) :
  rmatch input (RLit l) s caps k = Some r ->
  exists s2, s = l ++ s2 /\ k s2 caps = Some r.
Proof.
  cbn [rmatch]. destruct (startsWith s l) eqn:E; [|discriminate]. intros H.
  exists (skipn (length l) s). split; [apply startsWith_prefix; exact E|exact H].
Qed.

Lemma rsearch_sound (r : regex) (input s : jsstring) (caps : list jsstring) :
  rsearch r input s = Some caps ->
  exists pre s', s = pre ++ s'
                 /\ rmatch input r s' [] (fun _ caps' => Some caps') = Some caps.
Proof.
  induction s as [|c s IH]; cbn [rsearch].
  - destruct (rmatch input r [] [] _) eqn:E; [|discriminate].
    intros H. injection H as ->. exists [], []. auto.
  - destruct (rmatch input r (c :: s) [] _) eqn:E.
    + intros H. injection H as ->. exists [], (c :: s). auto.
    + intros H. destruct (IH H) as (pre & s' & -> & Hm). exists (c :: pre), s'. auto.
Qed.

Lemma seq_unfold {R} (input : jsstring) (r1 r2 : regex) (s : jsstring)
    (caps : list jsstring) (k : jsstring -> list jsstring -> option R) :
  rmatch input (RSeq r1 r2) s caps k
  = rmatch input r1 s caps (fun s2 caps2 => rmatch input r2 s2 caps2 k).
Proof. reflexivity. Qed.

Lemma bol_sound {R} (input s : jsstring) (caps : list jsstring)
    (k : jsstring -> list jsstring -> option R) (r : R) :
  rmatch input RBol s caps k = Some r ->
  length s = length input /\ k s caps = Some r.
Proof.
  cbn [rmatch]. destruct (length s =? length input) eqn:E; [|discriminate].
  apply Nat.eqb_eq in E. auto.
Qed.

Lemma eol_sound {R} (input s : jsstring) (caps : list jsstring)
    (k : jsstring -> list jsstring -> option R) (r : R) :
  rmatch input REol s caps k = Some r -> s = [] /\ k [] caps = Some r.
Proof. cbn [rmatch]. destruct s; [auto|discriminate]. Qed.

Lemma star_class_sound {R} (input : jsstring) (g : bool) (cls : char -> bool)
    (s : jsstring) (caps : list jsstring) (k : jsstring -> list jsstring -> option R) (r : R) :
  rmatch input (RStar g cls) s caps k = Some r ->
  exists pre s2, s = pre ++ s2 /\ forallb cls pre = true /\ k s2 caps = Some r.
Proof. cbn [rmatch]. apply star_sound. Qed.

(** What a match of the job-entry pattern captures. *)
Lemma job_match_sound (line : jsstring) (caps : list jsstring) :
  regex_match JOB_MATCH line = Some caps ->
  exists jobTitle companyName gap period : jsstring,
    caps = [jobTitle; companyName; period]
    /\ line = jobTitle ++ js " at " ++ companyName ++ [COLON] ++ gap ++ period
    /\ jobTitle <> [] /\ companyName <> [] /\ period <> []
    /\ forallb dot jobTitle = true /\ forallb dot companyName = true
    /\ forallb dot period = true /\ forallb isSpaceChar gap = true.
Proof.
  unfold regex_match. intros H.
  apply rsearch_sound in H. destruct H as (pre & s & Hline & H).
  unfold JOB_MATCH in H.
  rewrite seq_unfold in H. apply bol_sound in H. destruct H as (Elen & H).
  assert (pre = []) as ->.
  { rewrite Hline, length_app in Elen. destruct pre; [reflexivity|simpl in Elen; lia]. }
  simpl in Hline. subst s.
  rewrite seq_unfold in H. apply plus_group_sound in H.
  destruct H as (t & s1 & Hs & Htne & Ht & H).
  rewrite seq_unfold in H. apply lit_sound in H. destruct H as (s2 & Hs1 & H).
  rewrite seq_unfold in H. apply plus_group_sound in H.
  destruct H as (c & s3 & Hs2 & Hcne & Hc & H).
  rewrite seq_unfold in H. apply lit_sound in H. destruct H as (s4 & Hs3 & H).
  rewrite seq_unfold in H. apply star_class_sound in H.
  destruct H as (w & s5 & Hs4 & Hw & H).
  rewrite seq_unfold in H. apply plus_group_sound in H.
  destruct H as (p & s6 & Hs5 & Hpne & Hp & H).
  apply eol_sound in H. destruct H as (Hs6 & H). injection H as <-.
  subst s6 s5 s4 s3 s2 s1. rewrite app_nil_r in Hs.
  exists t, c, w, p. simpl app at 1.
  refine (conj eq_refl (conj Hs (conj Htne (conj Hcne (conj Hpne
           (conj Ht (conj Hc (conj Hp Hw)))))))).
Qed.

Lemma star_greedy_none {R} (cls : char -> bool) (s : jsstring) (k : jsstring -> option R) :
  star_greedy cls s k = None ->
  forall pre s2, s = pre ++ s2 -> forallb cls pre = true -> k s2 = None.
Proof.
  induction s as [|c s IH]; simpl; intros H pre s2 Hs Hpre.
  - destruct pre; [|discriminate]. simpl in Hs. subst s2. exact H.
  - destruct pre as [|c' pre].
    + simpl in Hs. subst s2.
      destruct (cls c); [|exact H].
      destruct (star_greedy cls s k); [discriminate|exact H].
    + simpl in Hs. injection Hs as <- ->. simpl in Hpre.
      apply andb_true_iff in Hpre. destruct Hpre as [Hc Hpre]. rewrite Hc in H.
      destruct (star_greedy cls (pre ++ s2) k) eqn:E; [discriminate|].
      exact (IH eq_refl pre s2 eq_refl Hpre).
Qed.

Lemma star_lazy_none {R} (cls : char -> bool) (s : jsstring) (k : jsstring -> option R) :
  star_lazy cls s k = None ->
  forall pre s2, s = pre ++ s2 -> forallb cls pre = true -> k s2 = None.
Proof.
  induction s as [|c s IH]; simpl; intros H pre s2 Hs Hpre.
  - destruct pre; [|discriminate]. simpl in Hs. subst s2.
    destruct (k []); [discriminate|reflexivity].
  - destruct (k (c :: s)) eqn:E; [discriminate|].
    destruct pre as [|c' pre].
    + simpl in Hs. subst s2. exact E.
    + simpl in Hs. injection Hs as <- ->. simpl in Hpre.
      apply andb_true_iff in Hpre. destruct Hpre as [Hc Hpre]. rewrite Hc in H.
      exact (IH H pre s2 eq_refl Hpre).
Qed.

Lemma star_none {R} (g : bool) (cls : char -> bool) (s : jsstring) (k : jsstring -> option R) :
  star g cls s k = None ->
  forall pre s2, s = pre ++ s2 -> forallb cls pre = true -> k s2 = None.
Proof. destruct g; [apply star_greedy_none|apply star_lazy_none]. Qed.

Lemma plus_group_none {R} (input : jsstring) (g : bool) (cls : char -> bool)
    (cap s2 : jsstring) (caps : list jsstring) (k : jsstring -> list jsstring -> option R) :
  rmatch input (RGroup (RPlus g cls)) (cap ++ s2) caps k = None ->
  cap <> [] -> forallb cls cap = true -> k s2 (caps ++ [cap]) = None.
Proof.
  cbn [rmatch]. destruct cap as [|c cap]; [congruence|]. intros H _ Hcap.
  simpl in Hcap. apply andb_true_iff in Hcap. destruct Hcap as [Hc Hcap].
  change ((c :: cap) ++ s2) with (c :: (cap ++ s2)) in H. cbv iota in H. rewrite Hc in H.
  pose proof (star_none _ _ _ _ H cap s2 eq_refl Hcap) as Hk. cbv beta in Hk.
  change (c :: cap ++ s2) with ((c :: cap) ++ s2) in Hk.
  rewrite firstn_app_exact in Hk. exact Hk.
Qed.

Lemma lit_none {R} (input l s2 : jsstring) (caps : list jsstring)
    (k : jsstring -> list jsstring -> option R) :
  rmatch input (RLit l) (l ++ s2) caps k = None -> k s2 caps = None.
Proof.
  cbn [rmatch].
  assert (Hs : startsWith (l ++ s2) l = true).
  { induction l as [|c l IH]; [reflexivity|]. simpl. rewrite char_eqb_refl. exact IH. }
  rewrite Hs, skipn_app, skipn_all, Nat.sub_diag. simpl. auto.
Qed.

Lemma star_class_none {R} (input : jsstring) (g : bool) (cls : char -> bool)
    (pre s2 : jsstring) (caps : list jsstring) (k : jsstring -> list jsstring -> option R) :
  rmatch input (RStar g cls) (pre ++ s2) caps k = None ->
  forallb cls pre = true -> k s2 caps = None.
Proof.
  cbn [rmatch]. intros H Hpre. exact (star_none _ _ _ _ H pre s2 eq_refl Hpre).
Qed.

Lemma bol_none {R} (input : jsstring) (caps : list jsstring)
    (k : jsstring -> list jsstring -> option R) :
  rmatch input RBol input caps k = None -> k input caps = None.
Proof. cbn [rmatch]. rewrite Nat.eqb_refl. auto. Qed.

(** The job-entry pattern matches every line of the shape title, " at ",
    company, colon, white space, period. *)
Lemma job_match_complete (t c w p : jsstring) :
  t <> [] -> c <> [] -> p <> [] ->
  forallb dot t = true -> forallb dot c = true -> forallb dot p = true ->
  forallb isSpaceChar w = true ->
  regex_match JOB_MATCH (t ++ js " at " ++ c ++ [COLON] ++ w ++ p) <> None.
Proof.
  intros Ht Hc Hp Dt Dc Dp Hw.
  set (line := t ++ js " at " ++ c ++ [COLON] ++ w ++ p).
  unfold regex_match.
  assert (Hm : rmatch line JOB_MATCH line [] (fun _ caps => Some caps) <> None).
  { intros H. unfold JOB_MATCH in H.
    rewrite seq_unfold in H. apply bol_none in H.
    rewrite seq_unfold in H. unfold line at 2 in H.
    apply plus_group_none in H; [|exact Ht|exact Dt].
    rewrite seq_unfold in H. apply lit_none in H.
    rewrite seq_unfold in H. apply plus_group_none in H; [|exact Hc|exact Dc].
    rewrite seq_unfold in H. apply lit_none in H.
    rewrite seq_unfold in H. apply star_class_none in H; [|exact Hw].
    rewrite seq_unfold in H. rewrite <- (app_nil_r p) in H.
    apply plus_group_none in H; [|exact Hp|exact Dp].
    discriminate H. }
  destruct line as [|x line']; cbn [rsearch];
    destruct (rmatch _ JOB_MATCH _ [] _); congruence.
Qed.

(** The job-entry pattern matches exactly the lines made of a title,
    " at ", a company, a colon, some white space and a period, where title,
    company and period are non-empty and hold no line terminator.  The
    three captured groups are then such a title, company and period of the
    line: nothing of the line is lost but the separators. *)
Theorem job_match_parts (line : jsstring) :
  (forall caps, regex_match JOB_MATCH line = Some caps ->
     exists jobTitle companyName gap period : jsstring,
       caps = [jobTitle; companyName; period]
       /\ line = jobTitle ++ js " at " ++ companyName ++ [COLON] ++ gap ++ period
       /\ jobTitle <> [] /\ companyName <> [] /\ period <> []
       /\ forallb dot jobTitle = true /\ forallb dot companyName = true
       /\ forallb dot period = true /\ forallb isSpaceChar gap = true) /\
  (forall t c w p : jsstring,
     line = t ++ js " at " ++ c ++ [COLON] ++ w ++ p ->
     t <> [] -> c <> [] -> p <> [] ->
     forallb dot t = true -> forallb dot c = true -> forallb dot p = true ->
     forallb isSpaceChar w = true ->
     regex_match JOB_MATCH line <> None).
Proof.
  split.
  - apply job_match_sound.
  - intros t c w p ->. apply job_match_complete.
Qed.

Lemma job_match_parts_witness :
  (exists jobTitle companyName gap period : jsstring,
     [js "Dev"; js "Acme"; js "01/2020"] = [jobTitle; companyName; period]
     /\ js "Dev at Acme: 01/2020"
        = jobTitle ++ js " at " ++ companyName ++ [COLON] ++ gap ++ period
     /\ jobTitle <> [] /\ companyName <> [] /\ period <> []
     /\ forallb dot jobTitle = true /\ forallb dot companyName = true
     /\ forallb dot period = true /\ forallb isSpaceChar gap = true)
  /\ regex_match JOB_MATCH (js "Dev at Acme: 01/2020") <> None.
Proof.
  destruct (job_match_parts (js "Dev at Acme: 01/2020")) as [Hs Hc].
  split.
  - apply (Hs [js "Dev"; js "Acme"; js "01/2020"]). reflexivity.
  - apply (Hc (js "Dev") (js "Acme") (js " ") (js "01/2020")); try reflexivity; discriminate.
Defined.

Lemma plus_sound {R} (input : jsstring) (g : bool) (cls : char -> bool)
    (s : jsstring) (caps : list jsstring) (k : jsstring -> list jsstring -> option R) (r : R) :
  rmatch input (RPlus g cls) s caps k = Some r ->
  exists pre s2, s = pre ++ s2 /\ pre <> [] /\ forallb cls pre = true /\ k s2 caps = Some r.
Proof.
  cbn [rmatch]. destruct s as [|c s]; [discriminate|].
  destruct (cls c) eqn:Hc; [|discriminate]. intros H.
  apply star_sound in H. destruct H as (pre & s2 & -> & Hpre & Hk).
  exists (c :: pre), s2. simpl. rewrite Hc, Hpre. repeat split; auto. discriminate.
Qed.

(** What the job test finds in a line. *)
Lemma job_test_sound (line : jsstring) :
  regex_test JOB_TEST line = true ->
  exists a d1 d2 b : jsstring,
    line = a ++ js " at " ++ d1 ++ [COLON] ++ d2 ++ b /\ d1 <> [] /\ d2 <> [].
Proof.
  unfold regex_test, regex_match.
  destruct (rsearch JOB_TEST line line) as [caps|] eqn:E; [|discriminate]. intros _.
  apply rsearch_sound in E. destruct E as (a & s & Hline & H).
  unfold JOB_TEST in H.
  rewrite seq_unfold in H. apply lit_sound in H. destruct H as (s1 & -> & H).
  rewrite seq_unfold in H. apply plus_sound in H. destruct H as (d1 & s2 & -> & Hd1 & _ & H).
  rewrite seq_unfold in H. apply lit_sound in H. destruct H as (s3 & -> & H).
  apply plus_sound in H. destruct H as (d2 & b & -> & Hd2 & _ & _).
  exists a, d1, d2, b. rewrite Hline. auto.
Qed.

(** A line that passes the job test is matched by the job-entry pattern,
    and so drawn as a job entry, whenever its trimmed form holds no line
    terminator (carriage return, U+2028, U+2029).  A line that passes the
    test and is not matched is drawn by no branch at all: that can only be a
    line with such a character inside. *)
Theorem job_test_then_match (E : Env) (raw : jsstring) (st : Flow) :
  let line := trim raw in
  regex_test JOB_TEST line = true ->
  (forallb dot line = true -> regex_match JOB_MATCH line <> None) /\
  (regex_match JOB_MATCH line = None -> job_entry E line st = st).
Proof.
  intros line Htest. split.
  - intros Hdot.
    destruct (job_test_sound line Htest) as (a & d1 & d2 & b & Hline & Hd1 & Hd2).
    rewrite Hline in Hdot. rewrite !forallb_app in Hdot.
    repeat (apply andb_true_iff in Hdot; destruct Hdot as [? Hdot]).
    assert (Ha : a <> []).
    { intros ->. simpl in Hline.
      destruct (trim_head raw) as [E0|(x & t & E0 & Hx)]; fold line in E0;
        rewrite Hline in E0; [discriminate|].
      injection E0 as <- _. discriminate Hx. }
    rewrite Hline.
    apply (job_match_complete a d1 [] (d2 ++ b)); auto.
    + destruct d2; [congruence|discriminate].
    + rewrite forallb_app. apply andb_true_iff. auto.
  - intros Hnone. unfold job_entry. rewrite Hnone. reflexivity.
Qed.

Lemma job_test_then_match_witness :
  regex_test JOB_TEST (trim (js " Dev at Acme: now ")) = true
  /\ regex_match JOB_MATCH (trim (js " Dev at Acme: now ")) <> None.
Proof.
  split; [reflexivity|].
  destruct (job_test_then_match example_env (js " Dev at Acme: now ") initial_flow eq_refl)
    as [H _].
  apply H. reflexivity.
Defined.

(** Such a line: the job test passes, the pattern does not match across
    the carriage return, and the turn draws nothing. *)
Example job_line_with_carriage_return :
  let line := js "Lead" ++ [13%N] ++ js "Dev at Acme: 2020" in
  regex_test JOB_TEST line = true
  /\ regex_match JOB_MATCH line = None
  /\ placed (body_line example_env initial_flow line) = [].
Proof. repeat split. Qed.

(** ** Page Flow Engine: order of the items, header, blank lines *)

Lemma in_page_order_snoc (log : list Placed) (p : Placed) :
  in_page_order log ->
  Forall (fun q => pl_page q <= pl_page p) log ->
  in_page_order (log ++ [p]).
Proof.
  intros Hord Hle i j a b Hij Ha Hb.
  destruct (Nat.lt_ge_cases j (length log)) as [Hj|Hj].
  - rewrite nth_error_app1 in Ha, Hb by lia. exact (Hord i j a b Hij Ha Hb).
  - rewrite nth_error_app2 in Hb by lia.
    assert (b = p) as ->.
    { destruct (j - length log) as [|k]; simpl in Hb; [congruence|].
      destruct k; discriminate. }
    destruct (Nat.lt_ge_cases i (length log)) as [Hi|Hi].
    + rewrite nth_error_app1 in Ha by lia.
      rewrite Forall_forall in Hle. apply Hle. exact (nth_error_In _ _ Ha).
    + rewrite nth_error_app2 in Ha by lia.
      destruct (i - length log) as [|k]; simpl in Ha; [injection Ha as ->; lia|].
      destruct k; discriminate.
Qed.

Lemma flow_ok_advance (h : Q) (st : Flow) :
  (0 <= h)%Q -> flow_ok st -> flow_ok (advance h st).
Proof.
  intros Hh (Hp & Hy & Hall & Hord). unfold flow_ok. simpl.
  refine (conj Hp (conj _ (conj Hall Hord))). lra.
Qed.

Lemma flow_ok_place (k : option LineKind) (calls : list Op) (st : Flow) :
  flow_ok st -> flow_ok (place (mkPlaced (current_page st) k (y st) calls) st).
Proof.
  intros (Hp & Hy & Hall & Hord). unfold flow_ok. simpl.
  refine (conj Hp (conj Hy (conj _ _))).
  - apply Forall_app. split; [exact Hall|]. constructor; [|constructor]. simpl.
    split; [unfold current_page; simpl; lia|exact Hy].
  - apply in_page_order_snoc; [exact Hord|]. simpl.
    rewrite Forall_forall in Hall |- *. intros q Hq. apply (Hall q Hq).
Qed.

Lemma flow_ok_page_check (st : Flow) : flow_ok st -> flow_ok (page_check st).
Proof.
  intros (Hp & Hy & Hall & Hord). unfold page_check.
  destruct (Qltb (y st) MARGIN_BOTTOM); [|exact (conj Hp (conj Hy (conj Hall Hord)))].
  unfold flow_ok. simpl. rewrite length_app. simpl.
  refine (conj _ (conj _ (conj _ Hord))); [lia|lra|].
  rewrite Forall_forall in Hall |- *. intros q Hq.
  destruct (Hall q Hq) as [H1 H2]. split; [|exact H2].
  unfold current_page in *. simpl. rewrite length_app. simpl. lia.
Qed.

Lemma step_flow_ok (E : Env) (allowed : LineKind -> bool) (st st' : Flow) :
  step E allowed st st' -> flow_ok st -> flow_ok st'.
Proof.
  intros H Hok. destruct H.
  - apply flow_ok_advance; assumption.
  - unfold flow_line.
    assert (H2 : flow_ok (advance (line_advance k)
                            (place (mkPlaced (current_page st) (Some k) (y st)
                                      (draw_calls E k text (y st))) st))).
    { apply flow_ok_advance; [apply line_advance_nonneg|]. apply flow_ok_place. exact Hok. }
    destruct (line_checked k); [apply flow_ok_page_check|]; exact H2.
  - apply flow_ok_page_check. exact Hok.
  - apply flow_ok_place. exact Hok.
  - exact Hok.
Qed.

Lemma steps_flow_ok (E : Env) (allowed : LineKind -> bool) (st st' : Flow) :
  steps E allowed st st' -> flow_ok st -> flow_ok st'.
Proof.
  induction 1 as [|? ? ? _ IH Hs]; [auto|].
  intros H. exact (step_flow_ok _ _ _ _ Hs (IH H)).
Qed.

Lemma initial_flow_ok : flow_ok initial_flow.
Proof.
  unfold flow_ok, initial_flow. simpl.
  refine (conj (le_n 1) (conj _ (conj _ _))).
  - lra.
  - constructor.
  - intros i j p q _ Hp. destruct i; discriminate.
Qed.

(** For every text: every item of the document is on a page of the
    document and at the top margin or below; an item is never on an earlier
    page than an item drawn before it (what is drawn is not moved when a
    page is added); the cursor ends at the top margin or below. *)
Theorem document_in_page_order (E : Env) (resumeText : jsstring) :
  let doc := generateResumePdf E resumeText in
  Forall (fun p => pl_page p < length (pages doc) /\ (pl_y p <= PAGE_HEIGHT - MARGIN_TOP)%Q)
    (placed doc) /\
  in_page_order (placed doc) /\
  (y doc <= PAGE_HEIGHT - MARGIN_TOP)%Q.
Proof.
  intros doc.
  destruct (steps_flow_ok _ _ _ _ (generateResumePdf_steps E resumeText) initial_flow_ok)
    as (Hp & Hy & Hall & Hord).
  fold doc in Hp, Hy, Hall, Hord.
  refine (conj _ (conj Hord Hy)).
  rewrite Forall_forall in Hall |- *. intros p Hin.
  destruct (Hall p Hin) as [H1 H2]. split; [|exact H2].
  unfold current_page in H1. lia.
Qed.

Lemma flow_lines_unchecked (E : Env) (k : LineKind) (lines : list jsstring) :
  line_checked k = false ->
  forall st, pages (flow_lines E k lines st) = pages st.
Proof.
  intros Hk. induction lines as [|l lines IH]; intros st; simpl; [reflexivity|].
  rewrite IH. unfold flow_line. rewrite Hk. reflexivity.
Qed.

Lemma flow_lines_on_page (E : Env) (k : LineKind) (lines : list jsstring) :
  line_checked k = false ->
  forall st, exists new,
    placed (flow_lines E k lines st) = placed st ++ new
    /\ Forall (fun p => pl_kind p = Some k /\ pl_page p = current_page st) new.
Proof.
  intros Hk. induction lines as [|l lines IH]; intros st; simpl.
  - exists []. rewrite app_nil_r. split; [reflexivity|constructor].
  - destruct (IH (flow_line E k l st)) as (new & Hp & Hall).
    rewrite placed_flow_line in Hp.
    exists (mkPlaced (current_page st) (Some k) (y st) (draw_calls E k l (y st)) :: new).
    rewrite Hp, <- app_assoc. split; [reflexivity|].
    constructor; [split; reflexivity|].
    assert (Hc : current_page (flow_line E k l st) = current_page st)
      by (unfold flow_line, current_page; rewrite Hk; reflexivity).
    rewrite Hc in Hall. exact Hall.
Qed.

(** The header block: one page, the name and contact lines on it, then
    the rule. *)
Lemma header_block_layout (E : Env) (p : Parsed) :
  let st := header_block E p in
  pages st = [(PAGE_WIDTH, PAGE_HEIGHT)] /\
  exists (items : list Placed) (yr : Q),
    placed st = items ++ [header_rule yr]
    /\ Forall (fun q => (pl_kind q = Some KName \/ pl_kind q = Some KContact) /\ pl_page q = 0)
         items
    /\ y st = (yr - 16)%Q.
Proof.
  intros st.
  set (nameLines := fun n => wrapText (toUpperCase E n) (helveticaBold E) NAME_SIZE CONTENT_WIDTH).
  set (st1 := match name p with
              | Some ((_ :: _) as n) => advance 2 (flow_lines E KName (nameLines n) initial_flow)
              | _ => advance NAME_LINE_HEIGHT initial_flow
              end).
  assert (H1 : pages st1 = [(PAGE_WIDTH, PAGE_HEIGHT)]
               /\ Forall (fun q => (pl_kind q = Some KName \/ pl_kind q = Some KContact)
                                   /\ pl_page q = 0) (placed st1)).
  { unfold st1. destruct (name p) as [[|c n]|]; try (split; [reflexivity|constructor]).
    cbn [pages placed advance].
    rewrite flow_lines_unchecked by reflexivity.
    destruct (flow_lines_on_page E KName (nameLines (c :: n)) eq_refl initial_flow)
      as (new & -> & Hall).
    split; [reflexivity|]. simpl.
    rewrite Forall_forall in Hall |- *. intros q Hq. destruct (Hall q Hq) as [-> ->]. auto. }
  destruct H1 as [Hpages1 Hitems1].
  set (contactParts := filter_Boolean [location p; phone p; email p; linkedin p]).
  set (st2 := if 0 <? length contactParts
              then advance 4 (flow_lines E KContact
                     (wrapText (join CONTACT_SEP contactParts) (helvetica E) CONTACT_SIZE
                        CONTENT_WIDTH) st1)
              else st1).
  assert (H2 : pages st2 = [(PAGE_WIDTH, PAGE_HEIGHT)]
               /\ Forall (fun q => (pl_kind q = Some KName \/ pl_kind q = Some KContact)
                                   /\ pl_page q = 0) (placed st2)).
  { unfold st2. destruct (0 <? length contactParts); [|split; assumption].
    cbn [pages placed advance].
    rewrite flow_lines_unchecked by reflexivity.
    destruct (flow_lines_on_page E KContact
                (wrapText (join CONTACT_SEP contactParts) (helvetica E) CONTACT_SIZE CONTENT_WIDTH)
                eq_refl st1) as (new & -> & Hall).
    split; [exact Hpages1|]. apply Forall_app. split; [exact Hitems1|].
    rewrite Forall_forall in Hall |- *. intros q Hq. destruct (Hall q Hq) as [-> ->].
    unfold current_page. rewrite Hpages1. auto. }
  destruct H2 as [Hpages2 Hitems2].
  assert (Hst : st = advance 16
                       (place (mkPlaced (current_page st2) None (y st2)
                                 [DrawLine left (y st2) right (y st2) 1.5 DARK_BLUE]) st2))
    by reflexivity.
  rewrite Hst. cbn [pages placed y advance place].
  split; [exact Hpages2|].
  exists (placed st2), (y st2).
  unfold header_rule, current_page. rewrite Hpages2. auto.
Qed.

(** A run of blank lines in the body draws nothing, adds no page, changes
    no flag and is not tested against the bottom margin, however low the
    cursor gets: the cursor is lowered by 6 once for each line, one
    subtraction after the other, and so never rises. *)
Theorem blank_lines_only_move_cursor (E : Env) (raws : list jsstring) :
  Forall (fun raw => blank raw = true) raws ->
  forall st : Flow,
    let st' := body_loop E raws st in
    pages st' = pages st /\ placed st' = placed st /\
    inSkillsSection st' = inSkillsSection st /\ skills st' = skills st /\
    y st' = Nat.iter (length raws) (fun y0 => (y0 - 6)%Q) (y st) /\
    (y st' <= y st)%Q.
Proof.
  unfold body_loop.
  induction 1 as [|raw raws Hraw _ IH]; intros st; cbn [fold_left length].
  - refine (conj eq_refl (conj eq_refl (conj eq_refl (conj eq_refl (conj eq_refl _))))).
    apply Qle_refl.
  - assert (Hstep : body_line E st raw = advance 6 st).
    { unfold body_line. unfold blank in Hraw. rewrite Hraw. reflexivity. }
    rewrite Hstep. destruct (IH (advance 6 st)) as (H1 & H2 & H3 & H4 & H5 & H6).
    refine (conj H1 (conj H2 (conj H3 (conj H4 (conj _ _))))).
    + rewrite H5, Nat.iter_succ_r. reflexivity.
    + apply (Qle_trans _ _ _ H6). cbn [y advance]. lra.
Qed.

Lemma blank_lines_only_move_cursor_witness :
  pages (body_loop example_env (repeat (js " ") 200) initial_flow) = pages initial_flow
  /\ placed (body_loop example_env (repeat (js " ") 200) initial_flow) = placed initial_flow
  /\ (y (body_loop example_env (repeat (js " ") 200) initial_flow) <= y initial_flow)%Q.
Proof.
  destruct (blank_lines_only_move_cursor example_env (repeat (js " ") 200)) with (st := initial_flow)
    as (H1 & H2 & _ & _ & _ & H6).
  - apply Forall_forall. intros raw Hraw. apply repeat_spec in Hraw. subst raw. reflexivity.
  - exact (conj H1 (conj H2 H6)).
Defined.

(** A job entry is drawn as the wrapped title, then the wrapped company,
    then the wrapped period after it went through the date formatter, each
    capture trimmed first; the " at " and the colon are not drawn. *)
Theorem job_entry_draws (E : Env) (line jobTitle companyName period : jsstring) (st : Flow) :
  regex_match JOB_MATCH line = Some [jobTitle; companyName; period] ->
  exists new : list Placed,
    placed (job_entry E line st) = placed st ++ new
    /\ drawn_texts new
       = wrapText (trim jobTitle) (helveticaBold E) (BODY_SIZE + 1) (CONTENT_WIDTH - 10)
         ++ wrapText (trim companyName) (helvetica E) BODY_SIZE (CONTENT_WIDTH - 10)
         ++ wrapText (formatDate (trim period)) (helvetica E) (BODY_SIZE - 1) (CONTENT_WIDTH - 10)
    /\ Forall (fun q => pl_kind q = Some KTitle \/ pl_kind q = Some KCompany
                        \/ pl_kind q = Some KPeriod) new.
Proof.
  intros Hm. unfold job_entry. rewrite Hm. cbn [placed advance].
  set (st0 := advance 8 st).
  destruct (flow_lines_texts E KTitle
              (wrapText (trim jobTitle) (helveticaBold E) (BODY_SIZE + 1) (CONTENT_WIDTH - 10))
              ltac:(discriminate) st0) as (n1 & P1 & K1 & T1).
  set (st1 := flow_lines E KTitle _ st0) in *.
  destruct (flow_lines_texts E KCompany
              (wrapText (trim companyName) (helvetica E) BODY_SIZE (CONTENT_WIDTH - 10))
              ltac:(discriminate) st1) as (n2 & P2 & K2 & T2).
  set (st2 := flow_lines E KCompany _ st1) in *.
  destruct (flow_lines_texts E KPeriod
              (wrapText (formatDate (trim period)) (helvetica E) (BODY_SIZE - 1) (CONTENT_WIDTH - 10))
              ltac:(discriminate) st2) as (n3 & P3 & K3 & T3).
  exists (n1 ++ n2 ++ n3).
  refine (conj _ (conj _ _)).
  - rewrite P3, P2, P1. cbn [placed advance st0]. rewrite <- !app_assoc. reflexivity.
  - unfold drawn_texts in *. rewrite !flat_map_app, T1, T2, T3. reflexivity.
  - rewrite !Forall_app. repeat split.
    + rewrite Forall_forall in K1 |- *. intros q Hq. left. exact (K1 q Hq).
    + rewrite Forall_forall in K2 |- *. intros q Hq. right. left. exact (K2 q Hq).
    + rewrite Forall_forall in K3 |- *. intros q Hq. right. right. exact (K3 q Hq).
Qed.

Lemma job_entry_draws_witness :
  exists new : list Placed,
    placed (job_entry example_env (js "Dev at Acme: 01/2020 - 02/2021") initial_flow)
    = placed initial_flow ++ new
    /\ drawn_texts new
       = wrapText (trim (js "Dev")) fixed_pitch (BODY_SIZE + 1) (CONTENT_WIDTH - 10)
         ++ wrapText (trim (js "Acme")) fixed_pitch BODY_SIZE (CONTENT_WIDTH - 10)
         ++ wrapText (formatDate (trim (js "01/2020 - 02/2021"))) fixed_pitch (BODY_SIZE - 1)
              (CONTENT_WIDTH - 10)
    /\ Forall (fun q => pl_kind q = Some KTitle \/ pl_kind q = Some KCompany
                        \/ pl_kind q = Some KPeriod) new.
Proof.
  apply (job_entry_draws example_env (js "Dev at Acme: 01/2020 - 02/2021")
           (js "Dev") (js "Acme") (js "01/2020 - 02/2021") initial_flow).
  reflexivity.
Defined.

Lemma flow_lines_kinds (E : Env) (k : LineKind) (lines : list jsstring) :
  forall st, exists new,
    placed (flow_lines E k lines st) = placed st ++ new
    /\ Forall (is_kind k) new /\ length new = length lines.
Proof.
  induction lines as [|l lines IH]; intros st; simpl.
  - exists []. rewrite app_nil_r. repeat split. constructor.
  - destruct (IH (flow_line E k l st)) as (new & Hp & Hk & Hl).
    rewrite placed_flow_line in Hp.
    exists (mkPlaced (current_page st) (Some k) (y st) (draw_calls E k l (y st)) :: new).
    rewrite Hp, <- app_assoc. split; [reflexivity|]. split.
    + constructor; [reflexivity|exact Hk].
    + simpl. rewrite Hl. reflexivity.
Qed.

(** The order of the tests of the body loop, on a non-blank line: a line
    that ends with a colon is drawn as a section header, whole, even when
    it looks like a job entry or starts with the category glyph; otherwise a
    line that passes the job test draws job-entry items only; otherwise a
    line that starts with the glyph is drawn as a category, whole; and any
    other line is drawn as body text, one item per wrapped line. *)
Theorem body_line_branches (E : Env) (st : Flow) (raw : jsstring) :
  truthy (trim raw) = true ->
  let line := trim raw in
  exists new : list Placed,
    placed (body_line E st raw) = placed st ++ new /\
    (endsWith line [COLON] = true ->
       Forall (is_kind KSection) new
       /\ drawn_texts new = wrapText line (helveticaBold E) SECTION_HEADER_SIZE CONTENT_WIDTH) /\
    (endsWith line [COLON] = false -> regex_test JOB_TEST line = true ->
       Forall is_job_kind new) /\
    (endsWith line [COLON] = false -> regex_test JOB_TEST line = false ->
     startsWith line [MIDDLE_DOT] = true ->
       Forall (is_kind KCategory) new
       /\ drawn_texts new = wrapText line (helveticaBold E) (BODY_SIZE + 1) (CONTENT_WIDTH - 20)) /\
    (endsWith line [COLON] = false -> regex_test JOB_TEST line = false ->
     startsWith line [MIDDLE_DOT] = false ->
       Forall (is_kind KBody) new
       /\ length new = length (wrapText line (helvetica E) BODY_SIZE (CONTENT_WIDTH - 10))).
Proof.
  intros Hraw line. unfold body_line. rewrite Hraw. fold line. cbn [negb].
  rewrite placed_page_check. unfold classify_and_draw.
  destruct (endsWith line [COLON]) eqn:Ecol.
  - destruct (flow_lines_texts E KSection
                (wrapText line (helveticaBold E) SECTION_HEADER_SIZE CONTENT_WIDTH)
                ltac:(discriminate) (advance 12 st)) as (new & Hp & Hk & Ht).
    exists new. split.
    + destruct (str_eqb (toLowerCase E line) (js "skills:")); exact Hp.
    + repeat split; try discriminate; auto.
  - destruct (regex_test JOB_TEST line) eqn:Etest.
    + unfold job_entry.
      destruct (regex_match JOB_MATCH line) as [[|t [|c [|p [|? ?]]]]|] eqn:Em;
        try (exists []; rewrite app_nil_r; repeat split; try discriminate; constructor).
      cbn [placed advance].
      destruct (flow_lines_kinds E KTitle
                  (wrapText (trim t) (helveticaBold E) (BODY_SIZE + 1) (CONTENT_WIDTH - 10))
                  (advance 8 st)) as (n1 & P1 & K1 & _).
      set (st1 := flow_lines E KTitle _ (advance 8 st)) in *.
      destruct (flow_lines_kinds E KCompany
                  (wrapText (trim c) (helvetica E) BODY_SIZE (CONTENT_WIDTH - 10)) st1)
        as (n2 & P2 & K2 & _).
      set (st2 := flow_lines E KCompany _ st1) in *.
      destruct (flow_lines_kinds E KPeriod
                  (wrapText (formatDate (trim p)) (helvetica E) (BODY_SIZE - 1)
                     (CONTENT_WIDTH - 10)) st2) as (n3 & P3 & K3 & _).
      exists (n1 ++ n2 ++ n3). split.
      * rewrite P3, P2, P1. cbn [placed advance]. rewrite <- !app_assoc. reflexivity.
      * repeat split; try discriminate. intros _ _. rewrite !Forall_app.
        unfold is_kind, is_job_kind in *. repeat split.
        -- rewrite Forall_forall in K1 |- *. intros q Hq. left. exact (K1 q Hq).
        -- rewrite Forall_forall in K2 |- *. intros q Hq. right. left. exact (K2 q Hq).
        -- rewrite Forall_forall in K3 |- *. intros q Hq. right. right. exact (K3 q Hq).
    + destruct (startsWith line [MIDDLE_DOT]) eqn:Edot.
      * replace (trim line) with line by (symmetry; apply trim_idem).
        destruct (flow_lines_texts E KCategory
                    (wrapText line (helveticaBold E) (BODY_SIZE + 1) (CONTENT_WIDTH - 20))
                    ltac:(discriminate) st) as (new & Hp & Hk & Ht).
        exists new. repeat split; try discriminate; auto.
      * destruct (flow_lines_kinds E KBody
                    (wrapText line (helvetica E) BODY_SIZE (CONTENT_WIDTH - 10)) st)
          as (new & Hp & Hk & Hl).
        exists new. repeat split; try discriminate; auto.
Qed.

Lemma body_line_branches_witness :
  exists new : list Placed,
    placed (body_line example_env initial_flow ([MIDDLE_DOT] ++ js " Tools at work: all"))
    = placed initial_flow ++ new
    /\ Forall is_job_kind new.
Proof.
  destruct (body_line_branches example_env initial_flow
              ([MIDDLE_DOT] ++ js " Tools at work: all") eq_refl)
    as (new & Hp & _ & Hjob & _).
  exists new. split; [exact Hp|]. apply Hjob; reflexivity.
Defined.

Lemma flow_lines_body_items (E : Env) (k : LineKind) (lines : list jsstring) (st : Flow) :
  body_kind k = true ->
  exists new, placed (flow_lines E k lines st) = placed st ++ new
              /\ Forall (fun p => exists k', pl_kind p = Some k' /\ body_kind k' = true) new.
Proof.
  intros Hk. destruct (flow_lines_kinds E k lines st) as (new & Hp & Hkinds & _).
  exists new. split; [exact Hp|].
  rewrite Forall_forall in Hkinds |- *. intros p Hin. exists k. split; [exact (Hkinds p Hin)|exact Hk].
Qed.

Lemma body_line_items (E : Env) (st : Flow) (raw : jsstring) :
  exists new, placed (body_line E st raw) = placed st ++ new
              /\ Forall (fun p => exists k', pl_kind p = Some k' /\ body_kind k' = true) new.
Proof.
  unfold body_line. destruct (negb (truthy (trim raw))).
  - exists []. rewrite app_nil_r. split; [reflexivity|constructor].
  - rewrite placed_page_check. unfold classify_and_draw.
    destruct (endsWith (trim raw) [COLON]).
    + destruct (flow_lines_body_items E KSection
                  (wrapText (trim raw) (helveticaBold E) SECTION_HEADER_SIZE CONTENT_WIDTH)
                  (advance 12 st) eq_refl) as (new & Hp & Hk).
      exists new. split; [|exact Hk].
      destruct (str_eqb (toLowerCase E (trim raw)) (js "skills:")); exact Hp.
    + destruct (regex_test JOB_TEST (trim raw)).
      * unfold job_entry.
        destruct (regex_match JOB_MATCH (trim raw)) as [[|t [|c [|p [|? ?]]]]|];
          try (exists []; rewrite app_nil_r; split; [reflexivity|constructor]).
        cbn [placed advance].
        destruct (flow_lines_body_items E KTitle
                    (wrapText (trim t) (helveticaBold E) (BODY_SIZE + 1) (CONTENT_WIDTH - 10))
                    (advance 8 st) eq_refl) as (n1 & P1 & K1).
        set (st1 := flow_lines E KTitle _ (advance 8 st)) in *.
        destruct (flow_lines_body_items E KCompany
                    (wrapText (trim c) (helvetica E) BODY_SIZE (CONTENT_WIDTH - 10)) st1 eq_refl)
          as (n2 & P2 & K2).
        set (st2 := flow_lines E KCompany _ st1) in *.
        destruct (flow_lines_body_items E KPeriod
                    (wrapText (formatDate (trim p)) (helvetica E) (BODY_SIZE - 1)
                       (CONTENT_WIDTH - 10)) st2 eq_refl) as (n3 & P3 & K3).
        exists (n1 ++ n2 ++ n3). split.
        -- rewrite P3, P2, P1. cbn [placed advance]. rewrite <- !app_assoc. reflexivity.
        -- rewrite !Forall_app. auto.
      * destruct (startsWith (trim raw) [MIDDLE_DOT]).
        -- apply flow_lines_body_items. reflexivity.
        -- apply flow_lines_body_items. reflexivity.
Qed.

Lemma body_loop_items (E : Env) (raws : list jsstring) :
  forall st, exists new,
    placed (body_loop E raws st) = placed st ++ new
    /\ Forall (fun p => exists k', pl_kind p = Some k' /\ body_kind k' = true) new.
Proof.
  unfold body_loop. induction raws as [|raw raws IH]; intros st; simpl.
  - exists []. rewrite app_nil_r. split; [reflexivity|constructor].
  - destruct (body_line_items E st raw) as (n1 & P1 & K1).
    destruct (IH (body_line E st raw)) as (n2 & P2 & K2).
    exists (n1 ++ n2). rewrite P2, P1, <- app_assoc. split; [reflexivity|].
    apply Forall_app. auto.
Qed.

(** The layout of every document.  The header block is never paginated:
    however many lines the name and the contact line wrap into, the
    document has its one first page when the body starts, and the name and
    contact lines are all on that page.  They are followed by exactly one
    rule, 16 above the cursor the body starts with, and then by the items
    of the body, none of which is a name line, a contact line or a rule. *)
Theorem document_layout (E : Env) (resumeText : jsstring) :
  let doc := generateResumePdf E resumeText in
  pages (header_block E (parseResume resumeText)) = [(PAGE_WIDTH, PAGE_HEIGHT)] /\
  exists (items : list Placed) (yr : Q) (bodyItems : list Placed),
    placed doc = items ++ [header_rule yr] ++ bodyItems
    /\ y (header_block E (parseResume resumeText)) = (yr - 16)%Q
    /\ Forall (fun q => (pl_kind q = Some KName \/ pl_kind q = Some KContact) /\ pl_page q = 0)
         items
    /\ Forall (fun q => exists k, pl_kind q = Some k /\ body_kind k = true) bodyItems.
Proof.
  intros doc.
  destruct (header_block_layout E (parseResume resumeText))
    as (Hpages & items & yr & Hplaced & Hitems & Hy).
  split; [exact Hpages|].
  assert (Hdoc : doc = after_body E resumeText).
  { unfold doc, generateResumePdf, trailing_skills.
    rewrite (steps_keep_skills _ _ _ _ (after_body_steps E resumeText)).
    simpl. rewrite andb_false_r. reflexivity. }
  destruct (body_loop_items E (split LF (body (parseResume resumeText)))
              (header_block E (parseResume resumeText))) as (bodyItems & Hb & Hkinds).
  exists items, yr, bodyItems.
  refine (conj _ (conj Hy (conj Hitems Hkinds))).
  rewrite Hdoc. unfold after_body. rewrite Hb, Hplaced, <- app_assoc. reflexivity.
Qed.
